(** * User data sync workbench service

    A shallow embedding of
    [src/vs/workbench/services/userDataSync/browser/userDataSyncWorkbenchService.ts]:
    the account registry and session resolution of [UserDataSyncWorkbenchService],
    its first-time-sync decision, and the manual-sync preview state machine
    [UserDataSyncPreview].

    The private fields of the two classes are records that are passed
    explicitly.  Every call on an injected collaborator (authentication
    service, sync engine, manual sync task, dialogs, telemetry, log, ...) is a
    node of a finite interaction tree whose continuation receives the
    collaborator's answer, a value or a thrown error.  One method call is run
    to completion before the next one starts: the interleaving of overlapping
    asynchronous flows is not modelled. *)

From Stdlib Require Import List String Bool Arith ZArith Lia Permutation.
Import ListNotations.
Local Open Scope string_scope.
Local Open Scope list_scope.

Set Implicit Arguments.

(** ** Values thrown and returned *)

(** [canceled()] of [vs/base/common/errors] and [new Error(message)]. *)
Inductive error : Type :=
| Canceled
| Error (message : string).

Inductive outcome (A : Type) : Type :=
| Ok (a : A)
| Throw (e : error).
Arguments Ok {A} a.
Arguments Throw {A} e.

Definition succeeded {A} (o : outcome A) : bool :=
  match o with Ok _ => true | Throw _ => false end.

(** ** Data model *)

(** Modelled from the spec: [URI] and [isEqual] of [vs/base/common/resources]
    are declared outside this file; a resource is identified by its text and
    two resources are equal when their texts are. *)
Definition URI : Type := string.
Definition isEqual (a b : URI) : bool := String.eqb a b.

(** Modelled from the spec: the enumerations [SyncResource] and [Change] are
    imported from [vs/platform/userDataSync/common/userDataSync]. *)
Module SyncResource.
Inductive t : Type := Settings | Keybindings | Snippets | Extensions | GlobalState.
Definition eqb (a b : t) : bool :=
  match a, b with
  | Settings, Settings | Keybindings, Keybindings | Snippets, Snippets
  | Extensions, Extensions | GlobalState, GlobalState => true
  | _, _ => false
  end.
End SyncResource.

Module Change.
Inductive t : Type := None | Added | Modified | Deleted.
Definition eqb (a b : t) : bool :=
  match a, b with
  | None, None | Added, Added | Modified, Modified | Deleted, Deleted => true
  | _, _ => false
  end.
End Change.

Module AccountStatus.
Inductive t : Type := Uninitialized | Unavailable | Available.
Definition eqb (a b : t) : bool :=
  match a, b with
  | Uninitialized, Uninitialized | Unavailable, Unavailable
  | Available, Available => true
  | _, _ => false
  end.
End AccountStatus.

(** The fields of [IResourcePreview] and [ISyncResourcePreview] this file reads. *)
Record IResourcePreview : Type := {
  localResource : URI;
  remoteResource : URI;
  previewResource : URI;
  localChange : Change.t;
  remoteChange : Change.t;
  merged : bool
}.

Record ISyncResourcePreview : Type := {
  isLastSyncFromCurrentMachine : bool;
  resourcePreviews : list IResourcePreview
}.

(** [IUserDataSyncResourceGroup]. *)
Module Group.
Record t : Type := {
  syncResource : SyncResource.t;
  local : URI;
  remote : URI;
  preview : URI;
  localChange : Change.t;
  remoteChange : Change.t
}.
End Group.

(** [AuthenticationSession] of [vs/editor/common/modes].  Reading
    [accessToken] is the token fetch that [updateToken] guards with
    [try]/[catch]: it yields the token or throws. *)
Module SessionAccount.
Record t : Type := { label : string; id : string }.
End SessionAccount.

Module Session.
Record t : Type := {
  id : string;
  accessToken : outcome string;
  account : SessionAccount.t
}.
End Session.

Record IAuthenticationProvider : Type := {
  provider_id : string;
  scopes : list string
}.

(** [class UserDataSyncAccount] with its four getters. *)
Record UserDataSyncAccount : Type := {
  authenticationProviderId : string;
  session : Session.t
}.
Definition sessionId (a : UserDataSyncAccount) : string := Session.id (session a).
Definition accountName (a : UserDataSyncAccount) : string :=
  SessionAccount.label (Session.account (session a)).
Definition accountId (a : UserDataSyncAccount) : string :=
  SessionAccount.id (Session.account (session a)).
Definition token (a : UserDataSyncAccount) : outcome string :=
  Session.accessToken (session a).

(** [type FirstTimeSyncAction = 'pull' | 'push' | 'merge' | 'manual'] *)
Module FirstTimeSyncAction.
Inductive t : Type := pull | push | merge | manual.
End FirstTimeSyncAction.

(** A handle on an [IManualSyncTask] created by the sync engine. *)
Definition IManualSyncTask : Type := nat.

(** [[SyncResource, ISyncResourcePreview][]] *)
Definition SyncPreview : Type := list (SyncResource.t * ISyncResourcePreview).

(** The private fields of [class UserDataSyncPreview]. *)
Module ManualSync.
Record t : Type := {
  preview : SyncPreview;
  task : IManualSyncTask
}.
End ManualSync.

Record PreviewState : Type := {
  _changes : list Group.t;
  _conflicts : list Group.t;
  manualSync : option ManualSync.t
}.

(** [type AccountQuickPickItem]. *)
Record AccountQuickPickItem : Type := {
  item_label : string;
  item_authenticationProvider : IAuthenticationProvider;
  item_account : option UserDataSyncAccount;
  item_description : option string
}.

Inductive QuickPickEntry : Type :=
| Separator (label : string)
| Item (item : AccountQuickPickItem).

(** The three private events of [UserDataSyncPreview] and the account status
    event of the service, with the value each one is fired with. *)
Inductive notification : Type :=
| DidChangeChanges (changes : list Group.t)
| DidChangeConflicts (conflicts : list Group.t)
| DidChangeAccountStatus (status : AccountStatus.t).

Inductive Severity : Type := SeverityInfo | SeverityError.

Inductive contextValue : Type :=
| BoolValue (b : bool)
| StatusValue (s : AccountStatus.t).

(** ** Calls on collaborators *)

Inductive call : Type :=
(* IAuthenticationService *)
| GetSessions (providerId : string)
| Login (providerId : string) (scopes : list string)
(* IUserDataSyncAccountService *)
| UpdateAccount (value : option (string * string))
(* ILogService *)
| LogTrace (message : string) (argument : string)
| LogDebug (message : string) (previous next : AccountStatus.t)
| LogError (e : error)
(* ITelemetryService *)
| PublicLog2 (eventName : string) (data : list (string * string))
(* IDialogService *)
| DialogShow (severity : Severity) (message : string) (buttons : list string)
    (cancelId : nat) (detail : string)
(* IQuickInputService *)
| QuickPick (title placeholder : string) (items : list QuickPickEntry)
(* IUserDataAutoSyncService *)
| AutoSyncIsEnabled
| AutoSyncTurnOn
| AutoSyncTurnOff (everywhere : bool)
(* IUserDataSyncService *)
| ResetLocal
| CreateManualSyncTask
| HasLocalData
| AcceptPreviewContent (syncResource : SyncResource.t) (resource : URI) (content : string)
(* IManualSyncTask *)
| TaskPreview (task : IManualSyncTask)
| TaskManifestIsNull (task : IManualSyncTask)
| TaskAccept (task : IManualSyncTask) (resource : URI) (content : string)
| TaskMerge (task : IManualSyncTask) (resource : option URI)
| TaskPull (task : IManualSyncTask)
| TaskPush (task : IManualSyncTask)
| TaskStop (task : IManualSyncTask)
| TaskDispose (task : IManualSyncTask)
| TaskOnSynchronizeResources (task : IManualSyncTask)
| DisposeListener (listener : nat)
(* IProgressService, INotificationService *)
| WithProgress (title : string) (delay : nat)
| ProgressReport (message : string)
| NotificationInfo (message : string)
| NotificationNotify (severity : Severity) (message : string) (primaryAction : string)
(* context keys, ICommandService, IViewsService, IViewDescriptorService *)
| ContextSet (key : string) (value : contextValue)
| ExecuteCommand (command : string)
| GetVisibleViewContainer
| OpenView (view : string)
| OpenViewContainer (container : string)
| CloseViewContainer (container : string)
| GetViewContainerByViewId (view : string)
(* an emitter of this file firing its listeners *)
| Fire (n : notification)
(* [Event.toPromise(Event.filter(e, l => l.length === 0))]: the flow is
   suspended until the preview fires [onDidChangeConflicts] (or else
   [onDidChangeChanges]) with an empty list; it resumes on the preview as the
   other flows have left it *)
| AwaitEmpty (conflicts : bool).

(** What each call answers with when it does not throw. *)
Definition reply (c : call) : Type :=
  match c with
  | GetSessions _ => option (list Session.t)
  | Login _ _ => Session.t
  | DialogShow _ _ _ _ _ => nat
  | QuickPick _ _ _ => option AccountQuickPickItem
  | AutoSyncIsEnabled => bool
  | CreateManualSyncTask => IManualSyncTask
  | HasLocalData => bool
  | TaskPreview _ => SyncPreview
  | TaskManifestIsNull _ => bool
  | TaskAccept _ _ _ => SyncPreview
  | TaskMerge _ _ => SyncPreview
  | TaskOnSynchronizeResources _ => nat
  | GetVisibleViewContainer => option string
  | GetViewContainerByViewId _ => option string
  | AwaitEmpty _ => PreviewState
  | _ => unit
  end.

(** ** Interaction trees of one method call *)

Inductive prog (R : Type) : Type :=
| Ret (r : R)
| Vis (c : call) (k : outcome (reply c) -> prog R).
Arguments Ret {R} r.
Arguments Vis {R} c k.

Fixpoint pbind {A B} (p : prog A) (f : A -> prog B) : prog B :=
  match p with
  | Ret a => f a
  | Vis c k => Vis c (fun x => pbind (k x) f)
  end.

(** A method over private state [S]: it ends with a value or a thrown error,
    and with the state as it has been left. *)
Definition M (S A : Type) : Type := S -> prog (outcome A * S).

Definition ret {S A} (a : A) : M S A := fun s => Ret (Ok a, s).
Definition throw {S A} (e : error) : M S A := fun s => Ret (Throw e, s).
Definition bind {S A B} (m : M S A) (f : A -> M S B) : M S B :=
  fun s => pbind (m s) (fun r =>
    match fst r with
    | Ok a => f a (snd r)
    | Throw e => Ret (Throw e, snd r)
    end).

Notation "x <- m ;; k" := (bind m (fun x => k))
  (at level 61, m at next level, right associativity).
Notation "m ;;; k" := (bind m (fun _ => k))
  (at level 61, right associativity).

(** Awaiting, or synchronously calling, a collaborator. *)
Definition perform {S} (c : call) : M S (reply c) :=
  fun s => Vis c (fun x => Ret (x, s)).

(** A synchronous call that answers nothing and is taken not to throw:
    logging, telemetry, context keys, notifications, progress reports,
    disposal, and the calls whose promise is dropped. *)
Definition signal {S} (c : call) : M S unit :=
  fun s => Vis c (fun _ => Ret (Ok tt, s)).

(** [Emitter.fire]: errors of listeners never reach the caller. *)
Definition fire {S} (n : notification) : M S unit := signal (Fire n).

Fixpoint fireAll {S} (l : list notification) : M S unit :=
  match l with
  | [] => ret tt
  | n :: l' => fire n ;;; fireAll l'
  end.

Definition get {S} : M S S := fun s => Ret (Ok s, s).

(** A field assignment, and a getter that may assign (a lazily filled cache). *)
Definition assign {S} (f : S -> S) : M S unit := fun s => Ret (Ok tt, f s).
Definition stateful {S A} (f : S -> A * S) : M S A :=
  fun s => Ret (Ok (fst (f s)), snd (f s)).

(** A call whose failure cannot reach the caller: it answers [default]. *)
Definition performOr {S} (c : call) (default : reply c) : M S (reply c) :=
  fun s => Vis c (fun x => Ret (Ok match x with Ok a => a | Throw _ => default end, s)).

(** A synchronous field update that also fires its notifications. *)
Definition modify {S} (f : S -> S * list notification) : M S unit :=
  fun s => fireAll (snd (f s)) (fst (f s)).

(** [try { body } catch (e) { handler }] *)
Definition tryCatch {S A} (body : M S A) (handler : error -> M S A) : M S A :=
  fun s => pbind (body s) (fun r =>
    match fst r with
    | Ok a => Ret (Ok a, snd r)
    | Throw e => handler e (snd r)
    end).

(** [try { body } finally { final }] *)
Definition tryFinally {S A} (body : M S A) (final : M S unit) : M S A :=
  fun s => pbind (body s) (fun r =>
    pbind (final (snd r)) (fun r' =>
      match fst r' with
      | Ok _ => Ret (fst r, snd r')
      | Throw e => Ret (Throw e, snd r')
      end)).

(** ** Running a tree against collaborators *)

(** The collaborators as a whole: a state [W] of their own and an answer to
    every call. *)
Definition handler (W : Type) : Type :=
  forall c : call, W -> outcome (reply c) * W.

Record entry : Type := Called {
  called : call;
  answered : outcome (reply called)
}.

Definition trace : Type := list entry.

Fixpoint run {W R} (h : handler W) (p : prog R) (w : W) : R * W * trace :=
  match p with
  | Ret r => (r, w, [])
  | Vis c k =>
      let a := h c w in
      let r := run h (k (fst a)) (snd a) in
      (fst (fst r), snd (fst r), Called c (fst a) :: snd r)
  end.

Definition result_of {R W} (r : R * W * trace) : R := fst (fst r).
Definition world_of {R W} (r : R * W * trace) : W := snd (fst r).
Arguments result_of {R W} r /.
Arguments world_of {R W} r /.
Definition trace_of {R W} (r : R * W * trace) : trace := snd r.
Arguments trace_of {R W} r /.

Definition calls (t : trace) : list call := map called t.

(** ** ManualSyncPreviewStateMachine: [class UserDataSyncPreview] *)

(** Modelled from the spec: [flatten] and [equals] of [vs/base/common/arrays]
    are declared outside this file.  [flatten] concatenates; [equals] holds of
    two arrays of the same length whose items agree position by position. *)
Definition flatten {A} (l : list (list A)) : list A := List.concat l.

Fixpoint equals {A} (one other : list A) (itemEquals : A -> A -> bool) : bool :=
  match one, other with
  | [], [] => true
  | a :: one', b :: other' => itemEquals a b && equals one' other' itemEquals
  | _, _ => false
  end.

Module UserDataSyncPreview.

(** The item comparison both lists are compared with:
    [(a, b) => isEqual(a.local, b.local)]. *)
Definition sameLocal (a b : Group.t) : bool := isEqual (Group.local a) (Group.local b).

Definition initialPreview : PreviewState :=
  {| _changes := []; _conflicts := []; manualSync := None |}.

Definition changes (st : PreviewState) : list Group.t := _changes st.
Definition conflicts (st : PreviewState) : list Group.t := _conflicts st.

Definition toUserDataSyncResourceGroups
    (syncResourcePreviews : list (SyncResource.t * list IResourcePreview)) : list Group.t :=
  flatten
    (map (fun p =>
            map (fun r =>
                   {| Group.syncResource := fst p;
                      Group.local := localResource r;
                      Group.remote := remoteResource r;
                      Group.preview := previewResource r;
                      Group.localChange := localChange r;
                      Group.remoteChange := remoteChange r |})
                (snd p))
         syncResourcePreviews).

(** The filter of [updateChanges] on one resource preview. *)
Definition isPendingChange (st : PreviewState) (syncResource : SyncResource.t)
    (r : IResourcePreview) : bool :=
  negb (merged r)
  && (negb (Change.eqb (localChange r) Change.None)
      || negb (Change.eqb (remoteChange r) Change.None))
  && negb (existsb (fun c => SyncResource.eqb (Group.syncResource c) syncResource
                             && isEqual (Group.local c) (localResource r))
                   (_conflicts st)).

Definition manualPreview (st : PreviewState) : SyncPreview :=
  match manualSync st with
  | Some m => ManualSync.preview m
  | None => []
  end.

Definition newChanges (st : PreviewState) : list Group.t :=
  toUserDataSyncResourceGroups
    (map (fun p => (fst p, filter (isPendingChange st (fst p)) (resourcePreviews (snd p))))
         (filter (fun p => negb (SyncResource.eqb (fst p) SyncResource.GlobalState))
                 (manualPreview st))).

Definition updateChanges (st : PreviewState) : PreviewState * list notification :=
  let newChanges := newChanges st in
  if negb (equals newChanges (_changes st) sameLocal)
  then ({| _changes := newChanges;
           _conflicts := _conflicts st;
           manualSync := manualSync st |},
        [DidChangeChanges newChanges])
  else (st, []).

Definition updateConflicts (conflicts : list (SyncResource.t * list IResourcePreview))
    (st : PreviewState) : PreviewState * list notification :=
  let newConflicts := toUserDataSyncResourceGroups conflicts in
  let r :=
    if negb (equals newConflicts (_conflicts st) sameLocal)
    then ({| _changes := _changes st;
             _conflicts := newConflicts;
             manualSync := manualSync st |},
          [DidChangeConflicts newConflicts])
    else (st, []) in
  let r' := updateChanges (fst r) in
  (fst r', snd r ++ snd r').

Definition updatePreview (preview : SyncPreview) (st : PreviewState)
    : PreviewState * list notification :=
  match manualSync st with
  | Some m =>
      updateChanges
        {| _changes := _changes st;
           _conflicts := _conflicts st;
           manualSync := Some {| ManualSync.preview := preview;
                                 ManualSync.task := ManualSync.task m |} |}
  | None => (st, [])
  end.

Definition setManualSyncPreview (task : IManualSyncTask) (preview : SyncPreview)
    (st : PreviewState) : PreviewState * list notification :=
  updateChanges
    {| _changes := _changes st;
       _conflicts := _conflicts st;
       manualSync := Some {| ManualSync.preview := preview; ManualSync.task := task |} |}.

(** The constructor: no changes, no conflicts, no manual session, then the
    conflicts the sync engine holds at that time. *)
Definition newUserDataSyncPreview (conflicts : list (SyncResource.t * list IResourcePreview))
    : PreviewState * list notification :=
  updateConflicts conflicts initialPreview.

Definition accept (syncResource : SyncResource.t) (resource : URI) (content : string)
    : M PreviewState unit :=
  st <- get ;;
  match manualSync st with
  | Some m =>
      syncPreview <- perform (TaskAccept (ManualSync.task m) resource content) ;;
      modify (updatePreview syncPreview)
  | None =>
      perform (AcceptPreviewContent syncResource resource content)
  end.

Definition merge (resource : option URI) : M PreviewState unit :=
  st <- get ;;
  match manualSync st with
  | None => throw (Error "Can merge only while syncing manually")
  | Some m =>
      syncPreview <- perform (TaskMerge (ManualSync.task m) resource) ;;
      modify (updatePreview syncPreview)
  end.

Definition pull : M PreviewState unit :=
  st <- get ;;
  match manualSync st with
  | None => throw (Error "Can pull only while syncing manually")
  | Some m =>
      perform (TaskPull (ManualSync.task m)) ;;;
      modify (updatePreview [])
  end.

Definition push : M PreviewState unit :=
  st <- get ;;
  match manualSync st with
  | None => throw (Error "Can push only while syncing manually")
  | Some m =>
      perform (TaskPush (ManualSync.task m)) ;;;
      modify (updatePreview [])
  end.

(** [IDecorationData], of which only the letter is set. *)
Record IDecorationData : Type := { letter : string }.

Definition provideDecorations (resource : URI) (st : PreviewState) : option IDecorationData :=
  let changeResource :=
    match find (fun c => isEqual (Group.remote c) resource) (changes st) with
    | Some c => Some c
    | None => find (fun c => isEqual (Group.remote c) resource) (conflicts st)
    end in
  match changeResource with
  | Some changeResource =>
      if Change.eqb (Group.localChange changeResource) Change.Modified
         || Change.eqb (Group.remoteChange changeResource) Change.Modified
      then Some {| letter := "M" |}
      else if Change.eqb (Group.localChange changeResource) Change.Added
              || Change.eqb (Group.localChange changeResource) Change.Deleted
              || Change.eqb (Group.remoteChange changeResource) Change.Added
              || Change.eqb (Group.remoteChange changeResource) Change.Deleted
      then Some {| letter := "A" |}
      else None
  | None => None
  end.

End UserDataSyncPreview.

(** ** [class UserDataSyncWorkbenchService] *)

(** Modelled from the spec: [localize(key, message)] of [vs/nls] is declared
    outside this file; it answers the message. *)
Definition localize (key message : string) : string := message.

(** An ES2015 [Map] with string keys: its entries in insertion order; setting
    a key that is present replaces the value where it stands. *)
Fixpoint map_set {V} (key : string) (value : V) (m : list (string * V)) : list (string * V) :=
  match m with
  | [] => [(key, value)]
  | (k, v) :: m' =>
      if String.eqb k key then (key, value) :: m' else (k, v) :: map_set key value m'
  end.

Fixpoint map_get {V} (key : string) (m : list (string * V)) : option V :=
  match m with
  | [] => None
  | (k, v) :: m' => if String.eqb k key then Some v else map_get key m'
  end.

Definition map_values {V} (m : list (string * V)) : list V := map snd m.

(** Modelled from the spec: the global scope of [IStorageService], a key-value
    store of strings shared with the other windows ([get], [store], [remove],
    [getBoolean]); a boolean is stored as its text. *)
Definition Storage : Type := list (string * string).

Definition storage_get (key : string) (s : Storage) : option string := map_get key s.
Definition storage_remove (key : string) (s : Storage) : Storage :=
  filter (fun kv => negb (String.eqb (fst kv) key)) s.
Definition storage_store (key value : string) (s : Storage) : Storage :=
  (key, value) :: storage_remove key s.
Definition storage_getBoolean (key : string) (fallback : bool) (s : Storage) : bool :=
  match storage_get key s with
  | Some v => String.eqb v "true"
  | None => fallback
  end.

Definition option_eqb {A} (eqb : A -> A -> bool) (a b : option A) : bool :=
  match a, b with
  | Some x, Some y => eqb x y
  | None, None => true
  | _, _ => false
  end.

Module UserDataSyncWorkbenchService.

Definition DONOT_USE_WORKBENCH_SESSION_STORAGE_KEY : string :=
  "userDataSyncAccount.donotUseWorkbenchSession".
Definition CACHED_SESSION_STORAGE_KEY : string := "userDataSyncAccountPreference".

(** Modelled from the spec: the identifiers imported from
    [vs/workbench/services/userDataSync/common/userDataSync]; each stands for
    itself. *)
Definition CONTEXT_ACCOUNT_STATE : string := "CONTEXT_ACCOUNT_STATE".
Definition CONTEXT_SHOW_MANUAL_SYNC_VIEW : string := "CONTEXT_SHOW_MANUAL_SYNC_VIEW".
Definition SHOW_SYNC_LOG_COMMAND_ID : string := "SHOW_SYNC_LOG_COMMAND_ID".
Definition SHOW_SYNCED_DATA_COMMAND_ID : string := "SHOW_SYNCED_DATA_COMMAND_ID".
Definition MANUAL_SYNC_VIEW_ID : string := "MANUAL_SYNC_VIEW_ID".

(** The private fields, the storage the service reads and writes, and the
    session id the host may supply
    ([environmentService.options?.authenticationSessionId]).
    [_cachedCurrentSessionId] is [None] for [null], [Some None] for
    [undefined]. *)
Record State : Type := {
  authenticationProviders : list IAuthenticationProvider;
  _accountStatus : AccountStatus.t;
  _all : list (string * list UserDataSyncAccount);
  _cachedCurrentSessionId : option (option string);
  storage : Storage;
  authenticationSessionId : option string;
  userDataSyncPreview : PreviewState
}.

Definition with_accountStatus (v : AccountStatus.t) (st : State) : State :=
  {| authenticationProviders := authenticationProviders st;
     _accountStatus := v;
     _all := _all st;
     _cachedCurrentSessionId := _cachedCurrentSessionId st;
     storage := storage st;
     authenticationSessionId := authenticationSessionId st;
     userDataSyncPreview := userDataSyncPreview st |}.

Definition with_all (v : list (string * list UserDataSyncAccount)) (st : State) : State :=
  {| authenticationProviders := authenticationProviders st;
     _accountStatus := _accountStatus st;
     _all := v;
     _cachedCurrentSessionId := _cachedCurrentSessionId st;
     storage := storage st;
     authenticationSessionId := authenticationSessionId st;
     userDataSyncPreview := userDataSyncPreview st |}.

Definition with_cachedCurrentSessionId (v : option (option string)) (st : State) : State :=
  {| authenticationProviders := authenticationProviders st;
     _accountStatus := _accountStatus st;
     _all := _all st;
     _cachedCurrentSessionId := v;
     storage := storage st;
     authenticationSessionId := authenticationSessionId st;
     userDataSyncPreview := userDataSyncPreview st |}.

Definition with_storage (v : Storage) (st : State) : State :=
  {| authenticationProviders := authenticationProviders st;
     _accountStatus := _accountStatus st;
     _all := _all st;
     _cachedCurrentSessionId := _cachedCurrentSessionId st;
     storage := v;
     authenticationSessionId := authenticationSessionId st;
     userDataSyncPreview := userDataSyncPreview st |}.

Definition with_userDataSyncPreview (v : PreviewState) (st : State) : State :=
  {| authenticationProviders := authenticationProviders st;
     _accountStatus := _accountStatus st;
     _all := _all st;
     _cachedCurrentSessionId := _cachedCurrentSessionId st;
     storage := storage st;
     authenticationSessionId := authenticationSessionId st;
     userDataSyncPreview := v |}.

(** The state the constructor leaves: the configured providers, status
    [Uninitialized], no account, nothing cached, a preview that has read the
    engine's conflicts. *)
Definition newService (providers : list IAuthenticationProvider) (stored : Storage)
    (hostSessionId : option string)
    (engineConflicts : list (SyncResource.t * list IResourcePreview)) : State :=
  {| authenticationProviders := providers;
     _accountStatus := AccountStatus.Uninitialized;
     _all := [];
     _cachedCurrentSessionId := None;
     storage := stored;
     authenticationSessionId := hostSessionId;
     userDataSyncPreview := fst (UserDataSyncPreview.newUserDataSyncPreview engineConflicts) |}.

(** A method of the preview, called on the [userDataSyncPreview] field. *)
Definition onPreview {A} (m : M PreviewState A) : M State A :=
  fun s => pbind (m (userDataSyncPreview s))
                 (fun r => Ret (fst r, with_userDataSyncPreview (snd r) s)).

Definition accountStatus (st : State) : AccountStatus.t := _accountStatus st.

(** *** The persisted current session id and its cache *)

Definition getStoredCachedSessionId (st : State) : option string :=
  storage_get CACHED_SESSION_STORAGE_KEY (storage st).

(** [get currentSessionId()] *)
Definition currentSessionId (st : State) : option string * State :=
  match _cachedCurrentSessionId st with
  | None =>
      let stored := getStoredCachedSessionId st in
      (stored, with_cachedCurrentSessionId (Some stored) st)
  | Some cached => (cached, st)
  end.

(** [set currentSessionId(cachedSessionId)] *)
Definition set_currentSessionId (cachedSessionId : option string) (st : State) : State :=
  if negb (option_eqb (option_eqb String.eqb) (_cachedCurrentSessionId st) (Some cachedSessionId))
  then
    let st1 := with_cachedCurrentSessionId (Some cachedSessionId) st in
    match cachedSessionId with
    | None => with_storage (storage_remove CACHED_SESSION_STORAGE_KEY (storage st1)) st1
    | Some id => with_storage (storage_store CACHED_SESSION_STORAGE_KEY id (storage st1)) st1
    end
  else st.

(** [get useWorkbenchSessionId()] and its setter *)
Definition useWorkbenchSessionId (st : State) : bool :=
  negb (storage_getBoolean DONOT_USE_WORKBENCH_SESSION_STORAGE_KEY false (storage st)).

Definition set_useWorkbenchSessionId (useWorkbenchSession : bool) (st : State) : State :=
  with_storage
    (storage_store DONOT_USE_WORKBENCH_SESSION_STORAGE_KEY
       (if negb useWorkbenchSession then "true" else "false") (storage st))
    st.

(** *** AccountRegistry *)

Definition isCurrentAccount (account : UserDataSyncAccount) (st : State) : bool * State :=
  let r := currentSessionId st in
  (option_eqb String.eqb (Some (sessionId account)) (fst r), snd r).

(** [get all()] *)
Definition all (st : State) : list UserDataSyncAccount := flatten (map_values (_all st)).

(** [accounts.filter(account => this.isCurrentAccount(account))] *)
Fixpoint filterCurrent (accounts : list UserDataSyncAccount) (st : State)
    : list UserDataSyncAccount * State :=
  match accounts with
  | [] => ([], st)
  | account :: rest =>
      let r := isCurrentAccount account st in
      let r' := filterCurrent rest (snd r) in
      (if fst r then account :: fst r' else fst r', snd r')
  end.

(** [get current()] *)
Definition current (st : State) : option UserDataSyncAccount * State :=
  let r := filterCurrent (all st) st in
  (hd_error (fst r), snd r).

(** The loop of [getAccounts] over the sessions of one provider. *)
Fixpoint collectAccounts (authenticationProviderId : string) (sessions : list Session.t)
    (accounts : list (string * UserDataSyncAccount))
    (currentAccount : option UserDataSyncAccount) (st : State)
    : (list (string * UserDataSyncAccount) * option UserDataSyncAccount) * State :=
  match sessions with
  | [] => ((accounts, currentAccount), st)
  | session :: rest =>
      let account := {| authenticationProviderId := authenticationProviderId;
                        session := session |} in
      let accounts := map_set (accountName account) account accounts in
      let r := isCurrentAccount account st in
      collectAccounts authenticationProviderId rest accounts
        (if fst r then Some account else currentAccount) (snd r)
  end.

Definition getAccounts (authenticationProviderId : string)
    : M State (list UserDataSyncAccount) :=
  sessions <- perform (GetSessions authenticationProviderId) ;;
  r <- stateful (collectAccounts authenticationProviderId
                   (match sessions with Some l => l | None => [] end) [] None) ;;
  let accounts :=
    match snd r with
    | Some currentAccount => map_set (accountName currentAccount) currentAccount (fst r)
    | None => fst r
    end in
  ret (map_values accounts).

Definition updateToken (current : option UserDataSyncAccount) : M State unit :=
  value <-
    match current with
    | Some current =>
        tryCatch
          (signal (LogTrace "Preferences Sync: Updating the token for the account"
                      (accountName current)) ;;;
           token <- (match token current with Ok t => ret t | Throw e => throw e end) ;;
           signal (LogTrace "Preferences Sync: Token updated for the account"
                      (accountName current)) ;;;
           ret (Some (token, authenticationProviderId current)))
          (fun e => signal (LogError e) ;;; ret None)
    | None => ret None
    end ;;
  perform (UpdateAccount value).

Definition updateAccountStatus (current : option UserDataSyncAccount) : M State unit :=
  let accountStatus :=
    match current with
    | Some _ => AccountStatus.Available
    | None => AccountStatus.Unavailable
    end in
  st <- get ;;
  if negb (AccountStatus.eqb (_accountStatus st) accountStatus)
  then
    let previous := _accountStatus st in
    signal (LogDebug "Sync account status changed" previous accountStatus) ;;;
    assign (with_accountStatus accountStatus) ;;;
    signal (ContextSet CONTEXT_ACCOUNT_STATE (StatusValue accountStatus)) ;;;
    fire (DidChangeAccountStatus accountStatus)
  else ret tt.

(** The loop of [update] over the configured providers. *)
Fixpoint fetchAccounts (providers : list IAuthenticationProvider)
    (allAccounts : list (string * list UserDataSyncAccount))
    : M State (list (string * list UserDataSyncAccount)) :=
  match providers with
  | [] => ret allAccounts
  | provider :: rest =>
      accounts <- getAccounts (provider_id provider) ;;
      fetchAccounts rest (map_set (provider_id provider) accounts allAccounts)
  end.

Definition update : M State unit :=
  st <- get ;;
  allAccounts <- fetchAccounts (authenticationProviders st) [] ;;
  assign (with_all allAccounts) ;;;
  current <- stateful current ;;
  updateToken current ;;;
  updateAccountStatus current.

Definition initialize : M State unit :=
  st <- get ;;
  sid <- stateful currentSessionId ;;
  (match sid, useWorkbenchSessionId st, authenticationSessionId st with
   | None, true, Some hostId =>
       if negb (String.eqb hostId "")
       then assign (set_currentSessionId (Some hostId)) ;;;
            assign (set_useWorkbenchSessionId false)
       else ret tt
   | _, _, _ => ret tt
   end) ;;;
  update.

Definition isSupportedAuthenticationProviderId (authenticationProviderId : string)
    (st : State) : bool :=
  existsb (fun p => String.eqb (provider_id p) authenticationProviderId)
          (authenticationProviders st).

(** *** FirstTimeSyncDecisionEngine *)

Definition firstTimeSyncDialog : call :=
  DialogShow SeverityInfo
    (localize "Replace or Merge" "Replace or Merge")
    [ localize "sync manually" "Sync Manually";
      localize "merge" "Merge";
      localize "replace local" "Replace Local";
      localize "cancel" "Cancel" ]
    3
    (localize "first time sync detail"
       "It looks like you last synced from another machine.
Would you like to replace or merge with the synced data?").

Definition firstTimeSyncEvent (action : string) : call :=
  PublicLog2 "sync/firstTimeSync" [("action", action)].

Definition getFirstTimeSyncAction
    (hasRemoteData hasLocalData hasChanges isLastSyncFromCurrentMachine : bool)
    : M State FirstTimeSyncAction.t :=
  if negb hasLocalData
     || negb hasRemoteData
     || negb hasChanges
     || isLastSyncFromCurrentMachine
  then ret FirstTimeSyncAction.merge
  else
    choice <- perform firstTimeSyncDialog ;;
    match choice with
    | 0 => signal (firstTimeSyncEvent "manual") ;;; ret FirstTimeSyncAction.manual
    | 1 => signal (firstTimeSyncEvent "merge") ;;; ret FirstTimeSyncAction.merge
    | 2 => signal (firstTimeSyncEvent "pull") ;;; ret FirstTimeSyncAction.pull
    | _ => signal (firstTimeSyncEvent "cancelled") ;;; throw Canceled
    end.

(** *** Enablement *)

Definition hasAnyChange (preview : SyncPreview) : bool :=
  existsb (fun p =>
             existsb (fun r => negb (Change.eqb (localChange r) Change.None)
                               || negb (Change.eqb (remoteChange r) Change.None))
                     (resourcePreviews (snd p)))
          preview.

Definition syncManually (task : IManualSyncTask) (preview : SyncPreview) : M State unit :=
  visibleViewContainer <- perform GetVisibleViewContainer ;;
  onPreview (modify (UserDataSyncPreview.setManualSyncPreview task preview)) ;;;
  signal (ContextSet CONTEXT_SHOW_MANUAL_SYNC_VIEW (BoolValue true)) ;;;
  perform (ExecuteCommand SHOW_SYNCED_DATA_COMMAND_ID) ;;;
  perform (OpenView MANUAL_SYNC_VIEW_ID) ;;;
  resumed <- perform (AwaitEmpty false) ;;
  assign (with_userDataSyncPreview resumed) ;;;
  st <- get ;;
  (match UserDataSyncPreview.conflicts (userDataSyncPreview st) with
   | [] => ret tt
   | _ :: _ =>
       resumed <- perform (AwaitEmpty true) ;;
       assign (with_userDataSyncPreview resumed)
   end) ;;;
  (* Merge to sync globalState changes *)
  perform (TaskMerge task None) ;;;
  match visibleViewContainer with
  | Some container => signal (OpenViewContainer container)
  | None =>
      viewContainer <- perform (GetViewContainerByViewId MANUAL_SYNC_VIEW_ID) ;;
      match viewContainer with
      | Some container => signal (CloseViewContainer container)
      | None => throw (Error "TypeError")
      end
  end.

Definition syncBeforeTurningOn (title : string) : M State unit :=
  (* Make sure sync started on clean local state *)
  perform ResetLocal ;;;
  manualSyncTask <- perform CreateManualSyncTask ;;
  tryFinally
    (tryCatch
       (r <- (signal (WithProgress title 500) ;;;
              signal (ProgressReport (localize "turning on" "Turning on...")) ;;;
              preview <- perform (TaskPreview manualSyncTask) ;;
              manifestIsNull <- perform (TaskManifestIsNull manualSyncTask) ;;
              let hasRemoteData := negb manifestIsNull in
              hasLocalData <- perform HasLocalData ;;
              let hasChanges := hasAnyChange preview in
              let isLastSyncFromCurrentMachine :=
                forallb (fun p => isLastSyncFromCurrentMachine (snd p)) preview in
              action <- getFirstTimeSyncAction hasRemoteData hasLocalData hasChanges
                          isLastSyncFromCurrentMachine ;;
              progressDisposable <- perform (TaskOnSynchronizeResources manualSyncTask) ;;
              tryFinally
                (match action with
                 | FirstTimeSyncAction.merge =>
                     perform (TaskMerge manualSyncTask None) ;;; ret tt
                 | FirstTimeSyncAction.pull => perform (TaskPull manualSyncTask)
                 | FirstTimeSyncAction.push => perform (TaskPush manualSyncTask)
                 | FirstTimeSyncAction.manual => ret tt
                 end)
                (signal (DisposeListener progressDisposable)) ;;;
              ret (action, preview)) ;;
        match fst r with
        | FirstTimeSyncAction.manual => syncManually manualSyncTask (snd r)
        | _ => ret tt
        end)
       (fun error => perform (TaskStop manualSyncTask) ;;; throw error))
    (signal (TaskDispose manualSyncTask)).

(** *** SessionResolutionProtocol *)

Definition switch (sessionId accountName accountId : string) : M State unit :=
  currentAccount <- stateful current ;;
  enabled <- perform AutoSyncIsEnabled ;;
  (* accounts are switched while sync is enabled: the block is empty *)
  assign (set_currentSessionId (Some sessionId)) ;;;
  signal (PublicLog2 "sync.userAccount" [("id", accountId)]) ;;;
  update.

(** [UserDataSyncAccount | IAuthenticationProvider] *)
Inductive picked : Type :=
| PickedAccount (account : UserDataSyncAccount)
| PickedProvider (provider : IAuthenticationProvider).

Section QuickPick.

(** [Array.prototype.sort] with a comparison function, which ECMAScript
    leaves implementation-defined when the function is not consistent, and
    the two synchronous queries of the authentication service. *)
Variable arraySort : forall A : Type, (A -> A -> Z) -> list A -> list A.
Variable getLabel : string -> string.
Variable supportsMultipleAccounts : string -> bool.

Definition currentFirst {A} (key : A -> string) (currentKey : option string) (a _b : A) : Z :=
  if option_eqb String.eqb (Some (key a)) currentKey then (-1)%Z else 1%Z.

(** The loop over the sorted providers; [sort] reorders the array held in
    [_all] in place. *)
Fixpoint accountItems (providers : list IAuthenticationProvider)
    (current : option UserDataSyncAccount) (st : State) : list QuickPickEntry * State :=
  match providers with
  | [] => ([], st)
  | authenticationProvider :: rest =>
      let cmp := currentFirst sessionId (option_map sessionId current) in
      let accounts :=
        match map_get (provider_id authenticationProvider) (_all st) with
        | Some accounts => arraySort cmp accounts
        | None => arraySort cmp []
        end in
      let st1 :=
        match map_get (provider_id authenticationProvider) (_all st) with
        | Some _ => with_all (map_set (provider_id authenticationProvider) accounts (_all st)) st
        | None => st
        end in
      let providerName := getLabel (provider_id authenticationProvider) in
      let items :=
        map (fun account =>
               Item {| item_label :=
                         (accountName account ++ " (" ++ providerName ++ ")")%string;
                       item_description :=
                         if option_eqb String.eqb (Some (sessionId account))
                              (option_map sessionId current)
                         then Some (localize "last used" "Last Used with Sync")
                         else None;
                       item_account := Some account;
                       item_authenticationProvider := authenticationProvider |})
            accounts in
      let r := accountItems rest current st1 in
      (items ++ fst r, snd r)
  end.

Definition providerItems (st : State) : list QuickPickEntry :=
  flat_map (fun authenticationProvider =>
              let signedInForProvider :=
                existsb (fun account => String.eqb (authenticationProviderId account)
                                                   (provider_id authenticationProvider))
                        (all st) in
              if negb signedInForProvider
                 || supportsMultipleAccounts (provider_id authenticationProvider)
              then [Item {| item_label :=
                              ("Sign in with "
                               ++ getLabel (provider_id authenticationProvider))%string;
                            item_description := None;
                            item_account := None;
                            item_authenticationProvider := authenticationProvider |}]
              else [])
           (authenticationProviders st).

(** [this.current] is read once where the source reads it in every
    comparison and for every account: the reads after the first one find
    the cache filled, change nothing, and find the same account as long as no
    two accounts share a session id. *)
Definition createQuickpickItems (st : State) : list QuickPickEntry * State :=
  let signedIn :=
    match all st with
    | [] => ([], st)
    | _ :: _ =>
        let c := current st in
        let authenticationProviders :=
          arraySort (currentFirst provider_id (option_map authenticationProviderId (fst c)))
                    (authenticationProviders st) in
        let r := accountItems authenticationProviders (fst c) (snd c) in
        ([Separator (localize "signed in" "Signed in")] ++ fst r
         ++ [Separator (localize "others" "Others")], snd r)
    end in
  (fst signedIn ++ providerItems (snd signedIn), snd signedIn).

(** The quick pick resolves with the account of the accepted item, or else
    its provider, or with [undefined] when it is hidden without a choice. *)
Definition doPick : M State (option picked) :=
  st <- get ;;
  match authenticationProviders st with
  | [] => ret None
  | _ :: _ =>
      update ;;;
      st <- get ;;
      match authenticationProviders st, all st with
      | [provider], [] =>
          (* Single auth provider and no accounts available *)
          ret (Some (PickedProvider provider))
      | _, _ =>
          items <- stateful createQuickpickItems ;;
          selected <- performOr (QuickPick (localize "pick an account" "Preferences Sync")
                                   (localize "choose account placeholder" "Select an account")
                                   items) None ;;
          ret (match selected with
               | Some item =>
                   match item_account item with
                   | Some account => Some (PickedAccount account)
                   | None => Some (PickedProvider (item_authenticationProvider item))
                   end
               | None => None
               end)
      end
  end.

Definition pick : M State bool :=
  result <- doPick ;;
  match result with
  | None => ret false
  | Some (PickedProvider provider) =>
      session <- perform (Login (provider_id provider) (scopes provider)) ;;
      switch (Session.id session)
             (SessionAccount.label (Session.account session))
             (SessionAccount.id (Session.account session)) ;;;
      ret true
  | Some (PickedAccount account) =>
      switch (sessionId account) (accountName account) (accountId account) ;;;
      ret true
  end.

Definition signIn : M State unit := pick ;;; ret tt.

Definition turnOn : M State unit :=
  picked <- pick ;;
  if negb picked then throw Canceled
  else
    st <- get ;;
    (* User did not pick an account or login failed *)
    if negb (AccountStatus.eqb (accountStatus st) AccountStatus.Available)
    then throw (Error (localize "no account" "No account available"))
    else
      let preferencesSyncTitle := localize "preferences sync" "Preferences Sync" in
      let title := (preferencesSyncTitle ++ " [(" ++ (localize "details" "details")
                    ++ ")](command:" ++ SHOW_SYNC_LOG_COMMAND_ID ++ ")")%string in
      syncBeforeTurningOn title ;;;
      perform AutoSyncTurnOn ;;;
      signal (NotificationInfo (title ++ " is turned on")%string).

End QuickPick.

Definition turnoff (everywhere : bool) : M State unit :=
  perform (AutoSyncTurnOff everywhere).

(** [this.update()] where the promise is dropped: its rejection reaches nobody. *)
Definition updateDetached : M State unit := tryCatch update (fun _ => ret tt).

Definition onDidSuccessiveAuthFailures : M State unit :=
  signal (PublicLog2 "sync/successiveAuthFailures" []) ;;;
  assign (set_currentSessionId None) ;;;
  update ;;;
  signal (NotificationNotify SeverityError
             (localize "successive auth failures"
                "Preferences sync was turned off because of successive authorization failures. Please sign in again to continue synchronizing")
             "sign in").

(** [e.removed] of an [AuthenticationSessionsChangeEvent] *)
Definition onDidChangeSessions (removed : list string) : M State unit :=
  sid <- stateful currentSessionId ;;
  (match sid with
   | Some id =>
       if negb (String.eqb id "") && existsb (String.eqb id) removed
       then assign (set_currentSessionId None)
       else ret tt
   | None => ret tt
   end) ;;;
  updateDetached.

(** [e.key] and whether [e.scope] is the global scope *)
Definition onDidChangeStorage (key : string) (globalScope : bool) : M State unit :=
  if String.eqb key CACHED_SESSION_STORAGE_KEY && globalScope
  then
    sid <- stateful currentSessionId ;;
    st <- get ;;
    if negb (option_eqb String.eqb sid (getStoredCachedSessionId st))
    then assign (with_cachedCurrentSessionId None) ;;; updateDetached
    else ret tt
  else ret tt.

(** Another window writing the shared storage.  This window learns of it
    only when its listener [onDidChangeStorage] runs, which [initialize]
    registers after its first refresh: until then, and while the event is
    under way, the cache of this window may hold what was stored before. *)
Definition storageWrittenElsewhere (key : string) (value : option string) : M State unit :=
  assign (fun st =>
            with_storage (match value with
                          | Some v => storage_store key v (storage st)
                          | None => storage_remove key (storage st)
                          end) st).

End UserDataSyncWorkbenchService.

Module P := UserDataSyncPreview.
Module S := UserDataSyncWorkbenchService.

(** ** What a trace shows *)

Definition isDialog (c : call) : bool :=
  match c with DialogShow _ _ _ _ _ => true | _ => false end.

Definition isTelemetry (c : call) : bool :=
  match c with PublicLog2 _ _ => true | _ => false end.

Definition prompted (t : trace) : bool := existsb isDialog (calls t).
Definition telemetry (t : trace) : list call := filter isTelemetry (calls t).

Definition isGetSessions (c : call) : bool :=
  match c with GetSessions _ => true | _ => false end.

Definition isPush (c : call) : bool :=
  match c with UpdateAccount _ => true | _ => false end.

Definition isLog (c : call) : bool :=
  match c with LogTrace _ _ | LogError _ => true | _ => false end.

(** The calls on the token sink. *)
Definition pushes (t : trace) : list call := filter isPush (calls t).

(** The statuses [onDidChangeAccountStatus] is fired with. *)
Definition statusFired (t : trace) : list AccountStatus.t :=
  flat_map (fun c => match c with
                     | Fire (DidChangeAccountStatus s) => [s]
                     | _ => []
                     end) (calls t).

(** The answers to the calls a refresh awaits: the session lists and the
    token sink. *)
Definition awaitedAnswers (t : trace) : list bool :=
  map (fun e => succeeded (answered e))
      (filter (fun e => isGetSessions (called e) || isPush (called e)) t).

(** A trace of session fetches only. *)
Definition fetchesOnly (t : trace) : Prop := forallb isGetSessions (calls t) = true.

(** The calls of account resolution: the authentication service, the token
    sink, the log, the account telemetry, the picker, the account status. *)
Definition isAccountStep (c : call) : bool :=
  match c with
  | GetSessions _ | Login _ _ | UpdateAccount _
  | LogTrace _ _ | LogDebug _ _ _ | LogError _
  | QuickPick _ _ _ | AutoSyncIsEnabled
  | ContextSet _ (StatusValue _) | Fire (DidChangeAccountStatus _) => true
  | PublicLog2 eventName _ => String.eqb eventName "sync.userAccount"
  | _ => false
  end.

(** The calls of the synchronisation that [turnOn] starts: on the engine, on
    the manual sync task, the progress, the first-time-sync dialog and its
    telemetry, the manual sync view, and turning auto sync on. *)
Definition isSyncStep (c : call) : bool :=
  match c with
  | ResetLocal | CreateManualSyncTask | HasLocalData | AcceptPreviewContent _ _ _
  | TaskPreview _ | TaskManifestIsNull _ | TaskAccept _ _ _ | TaskMerge _ _
  | TaskPull _ | TaskPush _ | TaskStop _ | TaskDispose _
  | TaskOnSynchronizeResources _ | DisposeListener _
  | WithProgress _ _ | ProgressReport _ | DialogShow _ _ _ _ _
  | ContextSet _ (BoolValue _) | ExecuteCommand _ | GetVisibleViewContainer
  | OpenView _ | OpenViewContainer _ | CloseViewContainer _
  | GetViewContainerByViewId _ | AwaitEmpty _
  | Fire (DidChangeChanges _) | Fire (DidChangeConflicts _)
  | AutoSyncTurnOn | NotificationInfo _ => true
  | PublicLog2 eventName _ => String.eqb eventName "sync/firstTimeSync"
  | _ => false
  end.

(** Every call of the method, in every state and against every collaborator,
    is one of [allowed]. *)
Definition emits {St A} (allowed : call -> bool) (m : M St A) : Prop :=
  forall (s : St) (W : Type) (h : handler W) (w : W),
    forallb allowed (calls (trace_of (run h (m s) w))) = true.

(** The method keeps [I] true of the state, whatever it is answered and
    whether it returns or throws. *)
Definition preserves {St A} (I : St -> Prop) (m : M St A) : Prop :=
  forall s, I s ->
  forall (W : Type) (h : handler W) (w : W), I (snd (result_of (run h (m s) w))).

(** ** The states the preview can be in *)

(** The four asynchronous entry points of the preview. *)
Inductive operation : Type :=
| Accept (syncResource : SyncResource.t) (resource : URI) (content : string)
| Merge (resource : option URI)
| Pull
| Push.

Definition invoke (o : operation) : M PreviewState unit :=
  match o with
  | Accept syncResource resource content =>
      UserDataSyncPreview.accept syncResource resource content
  | Merge resource => UserDataSyncPreview.merge resource
  | Pull => UserDataSyncPreview.pull
  | Push => UserDataSyncPreview.push
  end.

(** A preview is constructed, and from then on receives the conflicts feed of
    the engine, is given a manual session, and has its entry points called,
    against whatever the task and the engine answer. *)
Inductive reachable : PreviewState -> Prop :=
| reachable_new feed :
    reachable (fst (UserDataSyncPreview.newUserDataSyncPreview feed))
| reachable_conflicts feed st :
    reachable st -> reachable (fst (UserDataSyncPreview.updateConflicts feed st))
| reachable_install task preview st :
    reachable st -> reachable (fst (UserDataSyncPreview.setManualSyncPreview task preview st))
| reachable_invoke o (W : Type) (h : handler W) (w : W) st :
    reachable st -> reachable (snd (result_of (run h (invoke o st) w))).

Definition locals (l : list Group.t) : list URI := map Group.local l.

Definition group (syncResource : SyncResource.t) (r : IResourcePreview) : Group.t :=
  {| Group.syncResource := syncResource;
     Group.local := localResource r;
     Group.remote := remoteResource r;
     Group.preview := previewResource r;
     Group.localChange := localChange r;
     Group.remoteChange := remoteChange r |}.

(** No local resource of [changes] is a local resource of [conflicts]. *)
Definition changesAvoidConflicts (st : PreviewState) : Prop :=
  forall c d, In c (UserDataSyncPreview.changes st) ->
              In d (UserDataSyncPreview.conflicts st) ->
              Group.local c <> Group.local d.

(** Every local resource of the preview and of the conflicts belongs to one
    kind of resource. *)
Definition oneKindPerResource (st : PreviewState) : Prop :=
  exists kindOf : URI -> SyncResource.t,
    (forall p r, In p (UserDataSyncPreview.manualPreview st) ->
                 In r (resourcePreviews (snd p)) ->
                 kindOf (localResource r) = fst p)
    /\ (forall d, In d (UserDataSyncPreview.conflicts st) ->
                  kindOf (Group.local d) = Group.syncResource d).

(** The stored entries are neither global state nor without a change. *)
Definition entryOk (c : Group.t) : Prop :=
  Group.syncResource c <> SyncResource.GlobalState
  /\ (Group.localChange c <> Change.None \/ Group.remoteChange c <> Change.None).

Definition upToDate (st : PreviewState) : Prop :=
  (forall c, In c (_changes st) -> entryOk c)
  /\ locals (_changes st) = locals (P.newChanges st).

(** ** The states the service can be in *)

(** The session id the service works with: the cached one, or the stored one
    while nothing is cached. *)
Definition effectiveSessionId (st : S.State) : option string := fst (S.currentSessionId st).

(** The state once the cache is filled. *)
Definition filled (st : S.State) : S.State := snd (S.currentSessionId st).

Definition cacheFilled (st st' : S.State) : Prop := st' = st \/ st' = filled st.

(** The cache, when filled, holds what is stored. *)
Definition coherent (st : S.State) : Prop :=
  match S._cachedCurrentSessionId st with
  | Some cached => cached = S.getStoredCachedSessionId st
  | None => True
  end.

(** What the token sink is to receive for an account. *)
Definition tokenValue (current : option UserDataSyncAccount) : option (string * string) :=
  match current with
  | Some a =>
      match token a with
      | Ok t => Some (t, authenticationProviderId a)
      | Throw _ => None
      end
  | None => None
  end.

Definition statusFor (current : option UserDataSyncAccount) : AccountStatus.t :=
  match current with
  | Some _ => AccountStatus.Available
  | None => AccountStatus.Unavailable
  end.

(** The state a refresh ends in, given the accounts it has fetched and the
    state the fetches left. *)
Definition refreshed (allAccounts : list (string * list UserDataSyncAccount))
    (st1 : S.State) : S.State :=
  let st3 := snd (S.current (S.with_all allAccounts st1)) in
  let c := fst (S.current (S.with_all allAccounts st1)) in
  if AccountStatus.eqb (S._accountStatus st3) (statusFor c)
  then st3 else S.with_accountStatus (statusFor c) st3.

(** What enters the service: its public methods, the listeners that
    [initialize] registers, what reaches its preview, and the writes of other
    windows to the shared storage.  A write of another window and the run of
    the storage listener of this window are two entries: the listener is
    registered only after the first refresh of [initialize], and the public
    methods can run before it does. *)
Inductive entryPoint : Type :=
| Initialize
| Refresh
| TurnOn
| Turnoff (everywhere : bool)
| SignIn
| SuccessiveAuthFailures
| SessionsChanged (removed : list string)
| StorageWritten (key : string) (value : option string)
| StorageChanged (key : string) (globalScope : bool)
| ConflictsFed (feed : list (SyncResource.t * list IResourcePreview))
| PreviewInvoked (o : operation).

Section Service.

Variable arraySort : forall A : Type, (A -> A -> Z) -> list A -> list A.
Variable getLabel : string -> string.
Variable supportsMultipleAccounts : string -> bool.

Definition enter (e : entryPoint) : M S.State unit :=
  match e with
  | Initialize => S.initialize
  | Refresh => S.update
  | TurnOn => S.turnOn arraySort getLabel supportsMultipleAccounts
  | Turnoff everywhere => S.turnoff everywhere
  | SignIn => S.signIn arraySort getLabel supportsMultipleAccounts
  | SuccessiveAuthFailures => S.onDidSuccessiveAuthFailures
  | SessionsChanged removed => S.onDidChangeSessions removed
  | StorageWritten key value => S.storageWrittenElsewhere key value
  | StorageChanged key globalScope => S.onDidChangeStorage key globalScope
  | ConflictsFed feed => S.onPreview (modify (P.updateConflicts feed))
  | PreviewInvoked o => S.onPreview (invoke o)
  end.

(** A service is constructed, and is then entered any number of times and in
    any order, each entry running to its end against whatever it is
    answered. *)
Inductive serviceReachable : S.State -> Prop :=
| service_new providers stored hostSessionId engineConflicts :
    serviceReachable (S.newService providers stored hostSessionId engineConflicts)
| service_enter e (W : Type) (h : handler W) (w : W) st :
    serviceReachable st ->
    serviceReachable (snd (result_of (run h (enter e st) w))).

End Service.

(** ** Scripted collaborators and scenarios *)

Definition defaultReply (c : call) : reply c :=
  match c return reply c with
  | GetSessions _ => None
  | Login _ _ =>
      {| Session.id := ""; Session.accessToken := Ok "";
         Session.account := {| SessionAccount.label := ""; SessionAccount.id := "" |} |}
  | DialogShow _ _ _ _ _ => 3
  | QuickPick _ _ _ => None
  | AutoSyncIsEnabled => false
  | CreateManualSyncTask => 0
  | HasLocalData => false
  | TaskPreview _ => []
  | TaskManifestIsNull _ => true
  | TaskAccept _ _ _ => []
  | TaskMerge _ _ => []
  | TaskOnSynchronizeResources _ => 0
  | GetVisibleViewContainer => None
  | GetViewContainerByViewId _ => None
  | AwaitEmpty _ => UserDataSyncPreview.initialPreview
  | _ => tt
  end.

(** Collaborators that answer every call with [defaultReply], but the
    first-time-sync dialog, where button [choice] is pressed. *)
Definition pressing (choice : nat) : handler unit :=
  fun c w =>
    match c return outcome (reply c) * unit with
    | DialogShow _ _ _ _ _ => (Ok choice, w)
    | c' => (Ok (defaultReply c'), w)
    end.

Definition resourcePreview (resource : URI) (lc rc : Change.t) (isMerged : bool)
    : IResourcePreview :=
  {| localResource := ("local:" ++ resource)%string;
     remoteResource := ("remote:" ++ resource)%string;
     previewResource := ("preview:" ++ resource)%string;
     localChange := lc;
     remoteChange := rc;
     merged := isMerged |}.

(** Two states the preview reaches.  In the first one the engine reports, as
    a keybindings conflict, the local resource that the manual session
    previews as a change of the settings.  In the second one every resource
    has its kind. *)
Definition crossKindState : PreviewState :=
  fst (UserDataSyncPreview.updateConflicts
         [(SyncResource.Keybindings, [resourcePreview "u" Change.Modified Change.None false])]
         (fst (UserDataSyncPreview.setManualSyncPreview 0
                 [(SyncResource.Settings,
                   {| isLastSyncFromCurrentMachine := false;
                      resourcePreviews :=
                        [resourcePreview "u" Change.Modified Change.None false] |})]
                 (fst (UserDataSyncPreview.newUserDataSyncPreview []))))).

Definition manualState : PreviewState :=
  fst (UserDataSyncPreview.updateConflicts
         [(SyncResource.Settings, [resourcePreview "a" Change.Modified Change.Modified false])]
         (fst (UserDataSyncPreview.setManualSyncPreview 0
                 [(SyncResource.Settings,
                   {| isLastSyncFromCurrentMachine := false;
                      resourcePreviews :=
                        [resourcePreview "a" Change.Modified Change.Modified false;
                         resourcePreview "b" Change.Added Change.None false] |});
                  (SyncResource.GlobalState,
                   {| isLastSyncFromCurrentMachine := false;
                      resourcePreviews :=
                        [resourcePreview "g" Change.None Change.Modified false] |})]
                 (fst (UserDataSyncPreview.newUserDataSyncPreview []))))).

Definition github : IAuthenticationProvider :=
  {| provider_id := "github"; scopes := ["user:email"] |}.

Definition sessionOf (sessionId : string) (accessToken : outcome string) : Session.t :=
  {| Session.id := sessionId;
     Session.accessToken := accessToken;
     Session.account := {| SessionAccount.label := "octocat"; SessionAccount.id := "1" |} |}.

Fixpoint firstAccountItem (items : list QuickPickEntry) : option AccountQuickPickItem :=
  match items with
  | [] => None
  | Item item :: rest =>
      match item_account item with
      | Some _ => Some item
      | None => firstAccountItem rest
      end
  | Separator _ :: rest => firstAccountItem rest
  end.

(** Collaborators that answer every call with [defaultReply], but: every
    provider lists [sessions], a login opens [loggedIn], and the user accepts
    the first account the quick pick shows. *)
Definition withSessions (sessions : list Session.t) (loggedIn : Session.t) : handler unit :=
  fun c w =>
    match c return outcome (reply c) * unit with
    | GetSessions _ => (Ok (Some sessions), w)
    | Login _ _ => (Ok loggedIn, w)
    | QuickPick _ _ items => (Ok (firstAccountItem items), w)
    | c' => (Ok (defaultReply c'), w)
    end.

(** A window whose stored current session is [s1]. *)
Definition windowOnS1 : UserDataSyncWorkbenchService.State :=
  UserDataSyncWorkbenchService.newService [github]
    [(UserDataSyncWorkbenchService.CACHED_SESSION_STORAGE_KEY, "s1")] None [].

(** A window with nothing stored. *)
Definition freshWindow : UserDataSyncWorkbenchService.State :=
  UserDataSyncWorkbenchService.newService [github] [] None [].

(** [Array.prototype.sort] taken as leaving the order as it is, and provider
    labels taken as the provider ids. *)
Definition keepOrder (A : Type) (compare : A -> A -> Z) (l : list A) : list A := l.
Definition labelIsId (providerId : string) : string := providerId.
Definition singleAccount (providerId : string) : bool := false.

(** A first enablement with local data, remote data and a change that did
    not come from this machine; the user accepts the first account and presses
    button [choice] of the first-time-sync dialog. *)
Definition changedPreview : SyncPreview :=
  [(SyncResource.Settings,
    {| isLastSyncFromCurrentMachine := false;
       resourcePreviews :=
         [resourcePreview "settings.json" Change.Modified Change.Modified false] |})].

Definition firstSync (choice : nat) : handler unit :=
  fun c w =>
    match c return outcome (reply c) * unit with
    | GetSessions _ => (Ok (Some [sessionOf "s1" (Ok "token")]), w)
    | QuickPick _ _ items => (Ok (firstAccountItem items), w)
    | HasLocalData => (Ok true, w)
    | TaskManifestIsNull _ => (Ok false, w)
    | TaskPreview _ => (Ok changedPreview, w)
    | DialogShow _ _ _ _ _ => (Ok choice, w)
    | c' => (Ok (defaultReply c'), w)
    end.

(** ** What the further properties speak of *)

(** The notifications fired, in order. *)
Definition fired (t : trace) : list notification :=
  flat_map (fun c => match c with Fire n => [n] | _ => [] end) (calls t).

(** The call an entry point of the preview delegates to: on the task of the
    manual session, or for [accept] without one on the engine. *)
Definition delegateCall (o : operation) (st : PreviewState) : option call :=
  match o, manualSync st with
  | Accept _ resource content, Some m => Some (TaskAccept (ManualSync.task m) resource content)
  | Accept syncResource resource content, None =>
      Some (AcceptPreviewContent syncResource resource content)
  | Merge resource, Some m => Some (TaskMerge (ManualSync.task m) resource)
  | Pull, Some m => Some (TaskPull (ManualSync.task m))
  | Push, Some m => Some (TaskPush (ManualSync.task m))
  | _, None => None
  end.

(** Collaborators that answer every call with [defaultReply], but a manual
    sync task that fails every [pull]. *)
Definition failingPull (e : error) : handler unit :=
  fun c w =>
    match c return outcome (reply c) * unit with
    | TaskPull _ => (Throw e, w)
    | c' => (Ok (defaultReply c'), w)
    end.

(** What a refresh leaves alone: the storage, the session id the service
    works with, the configured providers and the session id of the host. *)
Definition sessionView (st : S.State)
    : Storage * option string * list IAuthenticationProvider * option string :=
  (S.storage st, effectiveSessionId st, S.authenticationProviders st,
   S.authenticationSessionId st).

(** The calls a refresh can make. *)
Definition isRefreshCall (c : call) : bool :=
  match c with
  | GetSessions _ | UpdateAccount _ | LogTrace _ _ | LogDebug _ _ _ | LogError _
  | ContextSet _ (StatusValue _) | Fire (DidChangeAccountStatus _) => true
  | _ => false
  end.

(** A window that may adopt the session [s1] of its host. *)
Definition hostedWindow : S.State := S.newService [github] [] (Some "s1") [].

(** The notifications shown to the user. *)
Definition isNotify (c : call) : bool :=
  match c with NotificationNotify _ _ _ | NotificationInfo _ => true | _ => false end.

Definition notified (t : trace) : list call := filter isNotify (calls t).

(** Every call a refresh awaits was answered. *)
Definition allAnswered (t : trace) : bool := forallb (fun b => b) (awaitedAnswers t).

(** A window that works with the session [s1] after another window has
    stored [s2]. *)
Definition staleWindow : S.State :=
  S.with_storage [(S.CACHED_SESSION_STORAGE_KEY, "s2"%string)] (filled windowOnS1).

(** The calls that end a manual sync task, and the one that pushes with it. *)
Definition isTaskEnd (c : call) : bool :=
  match c with TaskStop _ | TaskDispose _ => true | _ => false end.

Definition taskEnds (t : trace) : list call := filter isTaskEnd (calls t).

Definition isTaskPush (c : call) : bool :=
  match c with TaskPush _ => true | _ => false end.

(** What the method returns, when it returns, satisfies [post]. *)
Definition yields {St A} (post : A -> Prop) (m : M St A) : Prop :=
  forall (s : St) (W : Type) (h : handler W) (w : W) (a : A),
    fst (result_of (run h (m s) w)) = Ok a -> post a.

(** The calls that turn auto sync on and tell the user so. *)
Definition isTurnedOn (c : call) : bool :=
  match c with AutoSyncTurnOn | NotificationInfo _ => true | _ => false end.

(** The calls that neither end a manual sync task, nor push with it, nor turn
    auto sync on. *)
Definition isOrdinaryStep (c : call) : bool :=
  negb (isTaskEnd c) && negb (isTaskPush c) && negb (isTurnedOn c).

(** Two registries that file the same accounts under the same providers, in
    the same order of providers, up to the order of the accounts of a
    provider. *)
Definition sameRegistry (m m' : list (string * list UserDataSyncAccount)) : Prop :=
  Forall2 (fun e e' => fst e = fst e' /\ Permutation (snd e) (snd e')) m m'.

(** [Array.prototype.sort] returns the elements it was given, in some order. *)
Definition reorders (arraySort : forall A : Type, (A -> A -> Z) -> list A -> list A) : Prop :=
  forall (A : Type) (compare : A -> A -> Z) (l : list A), Permutation (arraySort A compare l) l.

(** The description of the quick pick item of an account. *)
Definition lastUsed (current : option UserDataSyncAccount) (account : UserDataSyncAccount)
    : option string :=
  if option_eqb String.eqb (Some (sessionId account)) (option_map sessionId current)
  then Some (localize "last used" "Last Used with Sync")
  else None.

(** Collaborators that answer every call with [defaultReply], but an
    authentication service that fails every [getSessions]. *)
Definition failingFetch (e : error) : handler unit :=
  fun c w =>
    match c return outcome (reply c) * unit with
    | GetSessions _ => (Throw e, w)
    | c' => (Ok (defaultReply c'), w)
    end.


(** * Properties *)

(** ** Running sequenced methods *)

Lemma run_pbind {W A B} (h : handler W) (p : prog A) (f : A -> prog B) (w : W) :
  run h (pbind p f) w =
  let r := run h p w in
  let r' := run h (f (fst (fst r))) (snd (fst r)) in
  (fst (fst r'), snd (fst r'), snd r ++ snd r').
Proof.
  revert w. induction p as [a | c k IH]; intro w; simpl.
  - destruct (run h (f a) w) as [[b w'] t]. reflexivity.
  - rewrite IH. reflexivity.
Qed.

Lemma run_bind {St A B W} (h : handler W) (m : M St A) (f : A -> M St B) (s : St) (w : W) :
  run h (bind m f s) w =
  let r := run h (m s) w in
  match fst (result_of r) with
  | Ok a =>
      let r' := run h (f a (snd (result_of r))) (world_of r) in
      (result_of r', world_of r', trace_of r ++ trace_of r')
  | Throw e => ((Throw e, snd (result_of r)), world_of r, trace_of r)
  end.
Proof.
  unfold bind. rewrite run_pbind. unfold result_of, world_of, trace_of.
  destruct (run h (m s) w) as [[[[a | e] s1] w1] t1]; simpl.
  - reflexivity.
  - rewrite app_nil_r. reflexivity.
Qed.

Lemma run_perform {St W} (h : handler W) (c : call) (s : St) (w : W) :
  run h (perform c s) w = ((fst (h c w), s), snd (h c w), [Called c (fst (h c w))]).
Proof. reflexivity. Qed.

Lemma run_signal {St W} (h : handler W) (c : call) (s : St) (w : W) :
  run h (signal c s) w = ((Ok tt, s), snd (h c w), [Called c (fst (h c w))]).
Proof. reflexivity. Qed.

(** ** FirstTimeSyncDecisionEngine *)

(** C1. For each of the sixteen inputs the decision is [merge], reached
    without any call on a collaborator (so without a prompt), as soon as there
    is no local data, no remote data, no change, or the last sync ran from
    this machine; in the one remaining case the first thing the method does
    is to show the dialog. *)
Theorem first_time_sync_decision
    (hasRemoteData hasLocalData hasChanges isLastSyncFromCurrentMachine : bool)
    (st : S.State) (W : Type) (h : handler W) (w : W) :
  let out := run h (S.getFirstTimeSyncAction hasRemoteData hasLocalData hasChanges
                      isLastSyncFromCurrentMachine st) w in
  prompted (trace_of out)
    = hasRemoteData && hasLocalData && hasChanges && negb isLastSyncFromCurrentMachine
  /\ (if negb hasLocalData || negb hasRemoteData || negb hasChanges
         || isLastSyncFromCurrentMachine
      then out = ((Ok FirstTimeSyncAction.merge, st), w, [])
      else hd_error (calls (trace_of out)) = Some S.firstTimeSyncDialog).
Proof.
  destruct hasRemoteData, hasLocalData, hasChanges, isLastSyncFromCurrentMachine;
    simpl; split; reflexivity.
Qed.

(** C2. Once the dialog is answered with a choice, choice 0 yields [manual],
    1 yields [merge], 2 yields [pull], and Cancel (choice 3, as any other
    choice) throws [Canceled]; in each case exactly one telemetry event
    [sync/firstTimeSync] is logged, carrying that action name, [cancelled]
    for Cancel. *)
Theorem first_time_sync_prompt_outcomes
    (st : S.State) (W : Type) (h : handler W) (w w1 : W) (choice : nat) :
  h S.firstTimeSyncDialog w = (Ok choice, w1) ->
  let out := run h (S.getFirstTimeSyncAction true true true false st) w in
  let reported := telemetry (trace_of out) in
  match choice with
  | 0 => result_of out = (Ok FirstTimeSyncAction.manual, st)
         /\ reported = [PublicLog2 "sync/firstTimeSync" [("action", "manual")]]
  | 1 => result_of out = (Ok FirstTimeSyncAction.merge, st)
         /\ reported = [PublicLog2 "sync/firstTimeSync" [("action", "merge")]]
  | 2 => result_of out = (Ok FirstTimeSyncAction.pull, st)
         /\ reported = [PublicLog2 "sync/firstTimeSync" [("action", "pull")]]
  | _ => result_of out = (Throw Canceled, st)
         /\ reported = [PublicLog2 "sync/firstTimeSync" [("action", "cancelled")]]
  end.
Proof.
  intros Hdialog. simpl. rewrite Hdialog. simpl.
  destruct choice as [|[|[|n]]]; simpl; split; reflexivity.
Qed.

Lemma first_time_sync_prompt_outcomes_witness :
  pressing 3 S.firstTimeSyncDialog tt = (Ok 3, tt)
  /\ result_of (run (pressing 3)
                  (S.getFirstTimeSyncAction true true true false
                     (S.newService [] [] None [])) tt)
     = (Throw Canceled, S.newService [] [] None [])
  /\ telemetry (trace_of (run (pressing 3)
                            (S.getFirstTimeSyncAction true true true false
                               (S.newService [] [] None [])) tt))
     = [PublicLog2 "sync/firstTimeSync" [("action", "cancelled")]].
Proof.
  split; [reflexivity |].
  exact (first_time_sync_prompt_outcomes (S.newService [] [] None []) (pressing 3) tt
           (w1 := tt) (choice := 3) eq_refl).
Defined.

(** ** ManualSyncPreviewStateMachine *)



Lemma find_app {A} (f : A -> bool) (l1 l2 : list A) :
  find f (l1 ++ l2) = match find f l1 with Some x => Some x | None => find f l2 end.
Proof.
  induction l1 as [|a l1 IH]; simpl; [reflexivity |].
  destruct (f a); [reflexivity | exact IH].
Qed.

(** C9. The entry looked up is the first one, through [changes] and then
    [conflicts], whose remote resource is the given one.  [Modified] on
    either side gives the letter M; otherwise [Added] or [Deleted] on either
    side gives the letter A; an entry with neither, or no entry, gives
    nothing.  The answer is one decoration at most. *)
Theorem decoration_lookup (resource : URI) (st : PreviewState) :
  let decoration := P.provideDecorations resource st in
  match find (fun c => isEqual (Group.remote c) resource) (P.changes st ++ P.conflicts st) with
  | Some entry =>
      let lc := Group.localChange entry in
      let rc := Group.remoteChange entry in
      (lc = Change.Modified \/ rc = Change.Modified ->
       decoration = Some {| P.letter := "M" |})
      /\ (lc <> Change.Modified -> rc <> Change.Modified ->
          lc = Change.Added \/ lc = Change.Deleted
          \/ rc = Change.Added \/ rc = Change.Deleted ->
          decoration = Some {| P.letter := "A" |})
      /\ (lc = Change.None -> rc = Change.None -> decoration = None)
  | None => decoration = None
  end
  /\ (decoration = None
      \/ decoration = Some {| P.letter := "M" |}
      \/ decoration = Some {| P.letter := "A" |}).
Proof.
  unfold P.provideDecorations. rewrite find_app.
  destruct (find _ (P.changes st)) as [c|];
    [| destruct (find _ (P.conflicts st)) as [c|]]; simpl.
  3: { split; [reflexivity | left; reflexivity]. }
  all: destruct (Group.localChange c), (Group.remoteChange c); simpl;
    repeat split; intros; try reflexivity; try congruence;
    repeat match goal with
           | H : _ \/ _ |- _ => destruct H
           end; try congruence; auto.
Qed.

(** In [manualState] the settings resource [b] is a change and [a] is a
    conflict: [b], added locally, is decorated A; [a], modified, is decorated
    M; a resource in neither list is not decorated. *)
Example decorations_of_manualState :
  P.provideDecorations "remote:b" manualState = Some {| P.letter := "A" |}
  /\ P.provideDecorations "remote:a" manualState = Some {| P.letter := "M" |}
  /\ P.provideDecorations "remote:g" manualState = None.
Proof. repeat split. Qed.

(** *** Equality by local resource *)

Lemma equals_locals (one other : list Group.t) :
  equals one other P.sameLocal = true <-> locals one = locals other.
Proof.
  revert other. induction one as [|a one IH]; intros [|b other]; simpl;
    try (split; [reflexivity | reflexivity]); try (split; discriminate).
  rewrite andb_true_iff, IH. unfold P.sameLocal, isEqual. rewrite String.eqb_eq.
  split; [intros [-> ->]; reflexivity | intros H; injection H; auto].
Qed.

Lemma equals_refl (l : list Group.t) : equals l l P.sameLocal = true.
Proof. apply equals_locals. reflexivity. Qed.

Lemma equals_decide (one other : list Group.t) :
  equals one other P.sameLocal
  = if list_eq_dec string_dec (locals one) (locals other) then true else false.
Proof.
  destruct (list_eq_dec string_dec (locals one) (locals other)) as [e | n].
  - apply equals_locals. exact e.
  - destruct (equals one other P.sameLocal) eqn:E; [| reflexivity].
    apply equals_locals in E. contradiction.
Qed.

(** *** Recomputation *)

Lemma newChanges_frame (st : PreviewState) (l : list Group.t) :
  P.newChanges {| _changes := l; _conflicts := _conflicts st; manualSync := manualSync st |}
  = P.newChanges st.
Proof. reflexivity. Qed.

Lemma updateChanges_locals (st : PreviewState) :
  locals (_changes (fst (P.updateChanges st))) = locals (P.newChanges st)
  /\ P.newChanges (fst (P.updateChanges st)) = P.newChanges st
  /\ _conflicts (fst (P.updateChanges st)) = _conflicts st
  /\ manualSync (fst (P.updateChanges st)) = manualSync st.
Proof.
  unfold P.updateChanges.
  destruct (equals (P.newChanges st) (_changes st) P.sameLocal) eqn:E; simpl.
  - apply equals_locals in E. repeat split; symmetry; exact E.
  - repeat split.
Qed.

Lemma updateChanges_twice (st : PreviewState) :
  P.updateChanges (fst (P.updateChanges st)) = (fst (P.updateChanges st), []).
Proof.
  destruct (updateChanges_locals st) as (Hl & Hn & _ & _).
  unfold P.updateChanges at 1. rewrite Hn.
  assert (E : equals (P.newChanges st) (_changes (fst (P.updateChanges st))) P.sameLocal = true)
    by (apply equals_locals; symmetry; exact Hl).
  rewrite E. reflexivity.
Qed.

Lemma updateConflicts_cases
    (feed : list (SyncResource.t * list IResourcePreview)) (st : PreviewState) :
  let newConflicts := P.toUserDataSyncResourceGroups feed in
  let st1 := {| _changes := _changes st;
                _conflicts := newConflicts;
                manualSync := manualSync st |} in
  (locals newConflicts = locals (_conflicts st)
   /\ P.updateConflicts feed st = P.updateChanges st)
  \/ (locals newConflicts <> locals (_conflicts st)
      /\ P.updateConflicts feed st
         = (fst (P.updateChanges st1), DidChangeConflicts newConflicts :: snd (P.updateChanges st1))).
Proof.
  intros newConflicts st1. unfold P.updateConflicts.
  fold newConflicts. rewrite equals_decide.
  destruct (list_eq_dec string_dec (locals newConflicts) (locals (_conflicts st))) as [e | n];
    simpl.
  - left. split; [exact e |]. destruct (P.updateChanges st); reflexivity.
  - right. split; [exact n | reflexivity].
Qed.

Lemma updateChanges_fires (st : PreviewState) :
  snd (P.updateChanges st)
  = (if list_eq_dec string_dec (locals (P.newChanges st)) (locals (P.changes st))
     then [] else [DidChangeChanges (P.newChanges st)]).
Proof.
  unfold P.updateChanges. rewrite equals_decide.
  destruct (list_eq_dec string_dec _ _); reflexivity.
Qed.

(** C8. A second recomputation from the same conflicts feed and the same
    preview fires nothing and changes nothing, and so does a second
    recomputation of the changes alone.  What a recomputation fires is decided
    by the local resources, compared in order: [onDidChangeConflicts] when
    those of the new conflicts differ from those of the stored ones, then
    [onDidChangeChanges] when those of the new changes differ from those of
    the stored ones. *)
Theorem recomputation_fires_on_difference_only
    (feed : list (SyncResource.t * list IResourcePreview)) (st : PreviewState) :
  let once := P.updateConflicts feed st in
  let newConflicts := P.toUserDataSyncResourceGroups feed in
  P.updateConflicts feed (fst once) = (fst once, [])
  /\ P.updateChanges (fst (P.updateChanges st)) = (fst (P.updateChanges st), [])
  /\ snd (P.updateChanges st)
     = (if list_eq_dec string_dec (locals (P.newChanges st)) (locals (P.changes st))
        then [] else [DidChangeChanges (P.newChanges st)])
  /\ snd once
     = (if list_eq_dec string_dec (locals newConflicts) (locals (P.conflicts st))
        then [] else [DidChangeConflicts newConflicts])
       ++ (if list_eq_dec string_dec (locals (P.newChanges (fst once))) (locals (P.changes st))
           then [] else [DidChangeChanges (P.newChanges (fst once))]).
Proof.
  intros once newConflicts. subst once.
  repeat split.
  - (* the second recomputation from the feed *)
    destruct (updateConflicts_cases feed st) as [[e Hu] | [n Hu]]; rewrite Hu.
    + destruct (updateChanges_locals st) as (_ & _ & Hc & _).
      destruct (updateConflicts_cases feed (fst (P.updateChanges st))) as [[e' Hu'] | [n' _]].
      * rewrite Hu'. apply updateChanges_twice.
      * exfalso. apply n'. rewrite Hc. exact e.
    + simpl fst.
      match goal with
      | |- P.updateConflicts feed (fst (P.updateChanges ?s)) = _ =>
          destruct (updateChanges_locals s) as (_ & _ & Hc & _);
          destruct (updateConflicts_cases feed (fst (P.updateChanges s)))
            as [[e' Hu'] | [n' _]];
          [ rewrite Hu'; apply updateChanges_twice
          | exfalso; apply n'; rewrite Hc; reflexivity ]
      end.
  - apply updateChanges_twice.
  - apply updateChanges_fires.
  - destruct (updateConflicts_cases feed st) as [[e Hu] | [n Hu]]; rewrite Hu.
    + fold newConflicts in e.
      destruct (list_eq_dec string_dec (locals newConflicts) (locals (P.conflicts st)));
        [| contradiction].
      rewrite updateChanges_fires.
      destruct (updateChanges_locals st) as (_ & Hn & _ & _). rewrite Hn. reflexivity.
    + fold newConflicts in n.
      destruct (list_eq_dec string_dec (locals newConflicts) (locals (P.conflicts st)));
        [contradiction |].
      simpl snd. simpl fst. rewrite updateChanges_fires.
      match goal with
      | |- context [fst (P.updateChanges ?s)] =>
          destruct (updateChanges_locals s) as (_ & Hn & _ & _); rewrite Hn
      end.
      reflexivity.
Qed.

(** *** The states the entry points lead to *)

Lemma run_fireAll {St W} (h : handler W) (l : list notification) (s : St) (w : W) :
  result_of (run h (fireAll l s) w) = (Ok tt, s).
Proof.
  revert w. induction l as [|n l IH]; intro w; [reflexivity |].
  simpl fireAll. rewrite run_bind. unfold fire. rewrite run_signal. simpl.
  apply IH.
Qed.

Lemma run_modify {St W} (h : handler W) (f : St -> St * list notification) (s : St) (w : W) :
  result_of (run h (modify f s) w) = (Ok tt, fst (f s)).
Proof. unfold modify. apply run_fireAll. Qed.

(** An entry point leaves the state as it was, or as [updatePreview] leaves it
    while a manual session is active. *)
Lemma invoke_state (o : operation) (W : Type) (h : handler W) (w : W) (st : PreviewState) :
  snd (result_of (run h (invoke o st) w)) = st
  \/ exists m preview,
       manualSync st = Some m
       /\ snd (result_of (run h (invoke o st) w))
          = fst (P.updateChanges
                   {| _changes := _changes st;
                      _conflicts := _conflicts st;
                      manualSync := Some {| ManualSync.preview := preview;
                                            ManualSync.task := ManualSync.task m |} |}).
Proof.
  assert (Hmod : forall m preview w', manualSync st = Some m ->
            snd (result_of (run h (modify (P.updatePreview preview) st) w'))
            = fst (P.updateChanges
                     {| _changes := _changes st;
                        _conflicts := _conflicts st;
                        manualSync := Some {| ManualSync.preview := preview;
                                              ManualSync.task := ManualSync.task m |} |})).
  { intros m preview w' Hm. rewrite run_modify. simpl.
    unfold P.updatePreview. rewrite Hm. reflexivity. }
  destruct o as [syncResource resource content | resource | |];
    unfold invoke, P.accept, P.merge, P.pull, P.push;
    rewrite run_bind; simpl;
    destruct (manualSync st) as [m|] eqn:Hm; try (left; reflexivity);
    rewrite ?run_bind, ?run_perform; simpl.
  all: match goal with
       | |- context [fst (?H ?c ?w0)] => destruct (H c w0) as [[x | e] w1]
       end; simpl; try (left; reflexivity).
  all: right; eexists m, _; split; [reflexivity |].
  all: erewrite <- Hmod by reflexivity.
  all: simpl; reflexivity.
Qed.

(** *** What the changes never contain *)

Lemma SyncResource_eqb_eq (a b : SyncResource.t) : SyncResource.eqb a b = true <-> a = b.
Proof. destruct a, b; simpl; split; congruence. Qed.

Lemma Change_eqb_eq (a b : Change.t) : Change.eqb a b = true <-> a = b.
Proof. destruct a, b; simpl; split; congruence. Qed.

Lemma Change_eqb_neq (a b : Change.t) : negb (Change.eqb a b) = true <-> a <> b.
Proof. destruct a, b; simpl; split; congruence. Qed.

Lemma toUserDataSyncResourceGroups_In (c : Group.t)
    (l : list (SyncResource.t * list IResourcePreview)) :
  In c (P.toUserDataSyncResourceGroups l)
  <-> exists p r, In p l /\ In r (snd p) /\ c = group (fst p) r.
Proof.
  unfold P.toUserDataSyncResourceGroups, flatten. rewrite in_concat. split.
  - intros (g & Hg & Hc). apply in_map_iff in Hg. destruct Hg as (p & <- & Hp).
    apply in_map_iff in Hc. destruct Hc as (r & <- & Hr).
    exists p, r. repeat split; assumption.
  - intros (p & r & Hp & Hr & ->).
    eexists. split.
    + apply in_map_iff. exists p. split; [reflexivity | exact Hp].
    + apply in_map_iff. exists r. split; [reflexivity | exact Hr].
Qed.

(** An entry of the derived changes comes from a preview of the manual
    session that passed every filter of [updateChanges]. *)
Lemma newChanges_In (c : Group.t) (st : PreviewState) :
  In c (P.newChanges st)
  <-> exists p r,
        In p (P.manualPreview st)
        /\ fst p <> SyncResource.GlobalState
        /\ In r (resourcePreviews (snd p))
        /\ P.isPendingChange st (fst p) r = true
        /\ c = group (fst p) r.
Proof.
  unfold P.newChanges. rewrite toUserDataSyncResourceGroups_In. split.
  - intros (q & r & Hq & Hr & ->).
    apply in_map_iff in Hq. destruct Hq as (p & <- & Hp).
    apply filter_In in Hp. destruct Hp as (Hp & Hk).
    simpl in Hr. apply filter_In in Hr. destruct Hr as (Hr & Hpending).
    exists p, r. repeat split; try assumption.
    intro E. rewrite E in Hk. discriminate.
  - intros (p & r & Hp & Hk & Hr & Hpending & ->).
    exists (fst p, filter (P.isPendingChange st (fst p)) (resourcePreviews (snd p))), r.
    repeat split.
    + apply in_map_iff. exists p. split; [reflexivity |].
      apply filter_In. split; [exact Hp |].
      destruct (SyncResource.eqb (fst p) SyncResource.GlobalState) eqn:E; [| reflexivity].
      apply SyncResource_eqb_eq in E. contradiction.
    + simpl. apply filter_In. split; assumption.
Qed.

Lemma isPendingChange_true (st : PreviewState) (k : SyncResource.t) (r : IResourcePreview) :
  P.isPendingChange st k r = true ->
  merged r = false
  /\ (localChange r <> Change.None \/ remoteChange r <> Change.None)
  /\ (forall d, In d (_conflicts st) -> Group.syncResource d = k ->
                Group.local d <> localResource r).
Proof.
  unfold P.isPendingChange. rewrite !andb_true_iff, orb_true_iff, !Change_eqb_neq.
  intros [[Hm Hc] Hn]. repeat split.
  - destruct (merged r); [discriminate | reflexivity].
  - exact Hc.
  - intros d Hd Hk Hl.
    assert (E : existsb (fun c => SyncResource.eqb (Group.syncResource c) k
                                  && isEqual (Group.local c) (localResource r))
                        (_conflicts st) = true).
    { apply existsb_exists. exists d. split; [exact Hd |].
      apply andb_true_iff. split.
      - apply SyncResource_eqb_eq. exact Hk.
      - unfold isEqual. apply String.eqb_eq. exact Hl. }
    rewrite E in Hn. discriminate.
Qed.

Lemma newChanges_entryOk (st : PreviewState) (c : Group.t) :
  In c (P.newChanges st) -> entryOk c.
Proof.
  intro Hc. apply newChanges_In in Hc.
  destruct Hc as (p & r & _ & Hk & _ & Hpending & ->).
  apply isPendingChange_true in Hpending. destruct Hpending as (_ & Hc & _).
  split; [exact Hk | exact Hc].
Qed.

Lemma updateChanges_upToDate (st : PreviewState) :
  (forall c, In c (_changes st) -> entryOk c) ->
  upToDate (fst (P.updateChanges st)).
Proof.
  intro Hok. split.
  - unfold P.updateChanges.
    destruct (negb (equals (P.newChanges st) (_changes st) P.sameLocal)); simpl.
    + apply newChanges_entryOk.
    + exact Hok.
  - destruct (updateChanges_locals st) as (Hl & Hn & _ & _). rewrite Hl, Hn. reflexivity.
Qed.

Lemma updateConflicts_upToDate feed (st : PreviewState) :
  (forall c, In c (_changes st) -> entryOk c) ->
  upToDate (fst (P.updateConflicts feed st)).
Proof.
  intro Hok.
  destruct (updateConflicts_cases feed st) as [[_ Hu] | [_ Hu]]; rewrite Hu;
    apply updateChanges_upToDate; exact Hok.
Qed.

Lemma reachable_upToDate (st : PreviewState) : reachable st -> upToDate st.
Proof.
  induction 1 as [feed | feed st _ IH | task preview st _ IH | o W h w st _ IH].
  - apply updateConflicts_upToDate. intros c [].
  - apply updateConflicts_upToDate. exact (proj1 IH).
  - apply updateChanges_upToDate. exact (proj1 IH).
  - destruct (invoke_state o h w st) as [E | (m & preview & _ & E)]; rewrite E.
    + exact IH.
    + apply updateChanges_upToDate. exact (proj1 IH).
Qed.

(** C3. In every state the preview can reach, an entry of [changes] is never
    of the global state kind and never without a local or remote change, and
    its local resource is that of a preview of the manual session which is not
    of the global state kind, is not merged, has a change, and has no conflict
    of its own kind on its local resource.  Where every local resource belongs
    to one kind, no local resource of [changes] is one of [conflicts]. *)
Theorem changes_of_reachable_preview (st : PreviewState) :
  reachable st ->
  (forall c, In c (P.changes st) ->
     Group.syncResource c <> SyncResource.GlobalState
     /\ (Group.localChange c <> Change.None \/ Group.remoteChange c <> Change.None)
     /\ exists p r,
          In p (P.manualPreview st)
          /\ In r (resourcePreviews (snd p))
          /\ localResource r = Group.local c
          /\ fst p <> SyncResource.GlobalState
          /\ merged r = false
          /\ (localChange r <> Change.None \/ remoteChange r <> Change.None)
          /\ (forall d, In d (P.conflicts st) -> Group.syncResource d = fst p ->
                        Group.local d <> localResource r))
  /\ (oneKindPerResource st -> changesAvoidConflicts st).
Proof.
  intro Hreach. destruct (reachable_upToDate Hreach) as [Hok Hlocals].
  assert (Hsource : forall c, In c (P.changes st) ->
            exists p r,
              In p (P.manualPreview st)
              /\ In r (resourcePreviews (snd p))
              /\ localResource r = Group.local c
              /\ fst p <> SyncResource.GlobalState
              /\ merged r = false
              /\ (localChange r <> Change.None \/ remoteChange r <> Change.None)
              /\ (forall d, In d (P.conflicts st) -> Group.syncResource d = fst p ->
                            Group.local d <> localResource r)).
  { intros c Hc.
    assert (Hl : In (Group.local c) (locals (P.newChanges st))).
    { rewrite <- Hlocals. apply in_map. exact Hc. }
    apply in_map_iff in Hl. destruct Hl as (g & Hg & Hin).
    apply newChanges_In in Hin.
    destruct Hin as (p & r & Hp & Hk & Hr & Hpending & ->).
    apply isPendingChange_true in Hpending. destruct Hpending as (Hm & Hch & Hno).
    exists p, r. repeat split; assumption. }
  split.
  - intros c Hc. destruct (Hok c Hc) as [Hk Hch]. repeat split; auto.
  - intros (kindOf & Hpreview & Hconflicts) c d Hc Hd Heq.
    destruct (Hsource c Hc) as (p & r & Hp & Hr & Hl & _ & _ & _ & Hno).
    apply (Hno d Hd).
    + rewrite <- (Hconflicts d Hd), <- (Hpreview p r Hp Hr). congruence.
    + congruence.
Qed.

(** C3, as claimed, fails: a local resource the engine reports in conflict
    under one kind stays in [changes] under another kind, because
    [updateChanges] drops an entry only for a conflict of its own kind. *)
Lemma changes_share_resource_with_conflicts :
  reachable crossKindState
  /\ locals (P.changes crossKindState) = ["local:u"]
  /\ locals (P.conflicts crossKindState) = ["local:u"]
  /\ ~ changesAvoidConflicts crossKindState.
Proof.
  split; [| split; [reflexivity | split; [reflexivity |]]].
  - unfold crossKindState. apply reachable_conflicts, reachable_install, reachable_new.
  - intro H.
    apply (H (group SyncResource.Settings
                (resourcePreview "u" Change.Modified Change.None false))
             (group SyncResource.Keybindings
                (resourcePreview "u" Change.Modified Change.None false))).
    + left. reflexivity.
    + left. reflexivity.
    + reflexivity.
Qed.

Lemma changes_of_reachable_preview_witness :
  reachable manualState
  /\ oneKindPerResource manualState
  /\ locals (P.changes manualState) = ["local:b"]
  /\ changesAvoidConflicts manualState.
Proof.
  assert (Hreach : reachable manualState).
  { unfold manualState. apply reachable_conflicts, reachable_install, reachable_new. }
  assert (Hkind : oneKindPerResource manualState).
  { exists (fun u => if String.eqb u "local:g"
                     then SyncResource.GlobalState else SyncResource.Settings).
    split.
    - intros p r [<- | [<- | []]] Hr; simpl in Hr;
        repeat (destruct Hr as [<- | Hr]; [reflexivity |]); destruct Hr.
    - intros d [<- | []]. reflexivity. }
  split; [exact Hreach | split; [exact Hkind | split; [reflexivity |]]].
  exact (proj2 (changes_of_reachable_preview Hreach) Hkind).
Defined.

(** *** Accepting a preview *)






(** ** AccountRegistry *)

Lemma filled_filled (st : S.State) : filled (filled st) = filled st.
Proof.
  unfold filled, S.currentSessionId.
  destruct (S._cachedCurrentSessionId st) eqn:E; simpl; rewrite ?E; reflexivity.
Qed.

Lemma effective_filled (st : S.State) : effectiveSessionId (filled st) = effectiveSessionId st.
Proof.
  unfold effectiveSessionId, filled, S.currentSessionId.
  destruct (S._cachedCurrentSessionId st) eqn:E; simpl; rewrite ?E; reflexivity.
Qed.

Lemma cacheFilled_refl (st : S.State) : cacheFilled st st.
Proof. left. reflexivity. Qed.

Lemma cacheFilled_trans (a b c : S.State) :
  cacheFilled a b -> cacheFilled b c -> cacheFilled a c.
Proof.
  intros [-> | ->] [-> | ->]; unfold cacheFilled; rewrite ?filled_filled; auto.
Qed.

Lemma cacheFilled_effective (st st' : S.State) :
  cacheFilled st st' -> effectiveSessionId st' = effectiveSessionId st.
Proof. intros [-> | ->]; [reflexivity | apply effective_filled]. Qed.

Lemma cacheFilled_fields (st st' : S.State) :
  cacheFilled st st' ->
  S.authenticationProviders st' = S.authenticationProviders st
  /\ S._accountStatus st' = S._accountStatus st
  /\ S._all st' = S._all st
  /\ S.storage st' = S.storage st
  /\ S.userDataSyncPreview st' = S.userDataSyncPreview st.
Proof.
  intros [-> | ->]; [repeat split |].
  unfold filled, S.currentSessionId.
  destruct (S._cachedCurrentSessionId st); repeat split.
Qed.

Lemma cacheFilled_coherent (st st' : S.State) :
  cacheFilled st st' -> coherent st -> coherent st'.
Proof.
  intros [-> | ->]; [auto |].
  unfold coherent, filled, S.currentSessionId.
  destruct (S._cachedCurrentSessionId st) eqn:E; simpl; [rewrite E; auto | reflexivity].
Qed.

Lemma isCurrentAccount_run (a : UserDataSyncAccount) (st : S.State) :
  S.isCurrentAccount a st
  = (option_eqb String.eqb (Some (sessionId a)) (effectiveSessionId st), filled st).
Proof. reflexivity. Qed.

Lemma filterCurrent_run (l : list UserDataSyncAccount) (st : S.State) :
  fst (S.filterCurrent l st)
  = filter (fun a => option_eqb String.eqb (Some (sessionId a)) (effectiveSessionId st)) l
  /\ snd (S.filterCurrent l st) = match l with [] => st | _ :: _ => filled st end.
Proof.
  revert st. induction l as [|a l IH]; intro st; [split; reflexivity |].
  cbn [S.filterCurrent]. rewrite isCurrentAccount_run. cbn [fst snd].
  destruct (IH (filled st)) as [IH1 IH2]. rewrite IH1, IH2, effective_filled. split.
  - reflexivity.
  - destruct l; [reflexivity | apply filled_filled].
Qed.

Lemma current_run (st : S.State) :
  fst (S.current st)
  = hd_error (filter (fun a => option_eqb String.eqb (Some (sessionId a))
                                 (effectiveSessionId st)) (S.all st))
  /\ cacheFilled st (snd (S.current st)).
Proof.
  unfold S.current. destruct (filterCurrent_run (S.all st) st) as [H1 H2]. simpl.
  rewrite H1, H2. split; [reflexivity |].
  destruct (S.all st); [left | right]; reflexivity.
Qed.

Lemma collectAccounts_filled (id : string) (sessions : list Session.t)
    (accounts : list (string * UserDataSyncAccount)) (cur : option UserDataSyncAccount)
    (st : S.State) :
  cacheFilled st (snd (S.collectAccounts id sessions accounts cur st)).
Proof.
  revert accounts cur st. induction sessions as [|s sessions IH]; intros accounts cur st.
  - apply cacheFilled_refl.
  - cbn [S.collectAccounts]. rewrite isCurrentAccount_run. cbn [fst snd].
    eapply cacheFilled_trans; [| apply IH]. right. reflexivity.
Qed.

(** *** What a refresh calls *)

Lemma calls_app (t1 t2 : trace) : calls (t1 ++ t2) = calls t1 ++ calls t2.
Proof. apply map_app. Qed.

Lemma pushes_app (t1 t2 : trace) : pushes (t1 ++ t2) = pushes t1 ++ pushes t2.
Proof. unfold pushes. rewrite calls_app. apply filter_app. Qed.

Lemma statusFired_app (t1 t2 : trace) : statusFired (t1 ++ t2) = statusFired t1 ++ statusFired t2.
Proof. unfold statusFired. rewrite calls_app. apply flat_map_app. Qed.

Lemma awaitedAnswers_app (t1 t2 : trace) :
  awaitedAnswers (t1 ++ t2) = awaitedAnswers t1 ++ awaitedAnswers t2.
Proof. unfold awaitedAnswers. rewrite filter_app. apply map_app. Qed.

Lemma fetchesOnly_app (t1 t2 : trace) : fetchesOnly t1 -> fetchesOnly t2 -> fetchesOnly (t1 ++ t2).
Proof.
  unfold fetchesOnly. rewrite calls_app, forallb_app. intros -> ->. reflexivity.
Qed.

Lemma fetchesOnly_quiet (t : trace) :
  fetchesOnly t ->
  pushes t = [] /\ statusFired t = []
  /\ filter isLog (calls t) = []
  /\ awaitedAnswers t = map (fun e => succeeded (answered e)) t.
Proof.
  unfold fetchesOnly, pushes, statusFired, awaitedAnswers, calls.
  induction t as [|[c a] t IH]; simpl; [repeat split |].
  rewrite andb_true_iff. intros [Hc Ht].
  destruct (IH Ht) as (I1 & I2 & I3 & I4).
  destruct c; try discriminate. simpl. rewrite I4. repeat split; assumption.
Qed.

Lemma getAccounts_run (W : Type) (h : handler W) (id : string) (st : S.State) (w : W) :
  let out := run h (S.getAccounts id st) w in
  cacheFilled st (snd (result_of out))
  /\ fetchesOnly (trace_of out)
  /\ succeeded (fst (result_of out)) = forallb (fun b => b) (awaitedAnswers (trace_of out)).
Proof.
  unfold S.getAccounts. rewrite run_bind, run_perform. simpl.
  destruct (h (GetSessions id) w) as [[sessions | e] w1]; simpl.
  - repeat split. apply collectAccounts_filled.
  - repeat split. apply cacheFilled_refl.
Qed.

Lemma fetchAccounts_run (W : Type) (h : handler W) (providers : list IAuthenticationProvider)
    (allAccounts : list (string * list UserDataSyncAccount)) (st : S.State) (w : W) :
  let out := run h (S.fetchAccounts providers allAccounts st) w in
  cacheFilled st (snd (result_of out))
  /\ fetchesOnly (trace_of out)
  /\ succeeded (fst (result_of out)) = forallb (fun b => b) (awaitedAnswers (trace_of out)).
Proof.
  revert allAccounts st w.
  induction providers as [|p providers IH]; intros allAccounts st w.
  - simpl. repeat split. apply cacheFilled_refl.
  - cbn [S.fetchAccounts]. rewrite run_bind.
    destruct (getAccounts_run h (provider_id p) st w) as (Hf & Ht & Hs).
    cbv zeta in *.
    destruct (run h (S.getAccounts (provider_id p) st) w) as [[[[accounts | e] st1] w1] t1].
    + cbn [fst snd result_of world_of trace_of] in *.
      destruct (IH (map_set (provider_id p) accounts allAccounts) st1 w1) as (Hf' & Ht' & Hs').
      cbv zeta in *.
      destruct (run h (S.fetchAccounts providers _ st1) w1) as [[[r2 st2] w2] t2].
      cbn [fst snd result_of world_of trace_of] in *.
      split; [eapply cacheFilled_trans; eassumption |].
      split; [apply fetchesOnly_app; assumption |].
      rewrite awaitedAnswers_app, forallb_app, <- Hs, <- Hs'. reflexivity.
    + cbn [fst snd result_of world_of trace_of] in *. repeat split; assumption.
Qed.

Lemma updateToken_run (W : Type) (h : handler W) (c : option UserDataSyncAccount)
    (st : S.State) (w : W) :
  let out := run h (S.updateToken c st) w in
  snd (result_of out) = st
  /\ pushes (trace_of out) = [UpdateAccount (tokenValue c)]
  /\ statusFired (trace_of out) = []
  /\ awaitedAnswers (trace_of out) = [succeeded (fst (result_of out))]
  /\ (forall a e, c = Some a -> token a = Throw e -> In (LogError e) (calls (trace_of out))).
Proof.
  unfold S.updateToken, tokenValue. destruct c as [a|].
  - destruct (token a) as [t | e] eqn:Ht; cbn; repeat split;
      intros a0 e0 [= <-] He; rewrite Ht in He; [discriminate |].
    injection He as <-. right. left. reflexivity.
  - cbn. repeat split. intros a e [=].
Qed.

Lemma updateAccountStatus_run (W : Type) (h : handler W) (c : option UserDataSyncAccount)
    (st : S.State) (w : W) :
  let out := run h (S.updateAccountStatus c st) w in
  fst (result_of out) = Ok tt
  /\ snd (result_of out)
     = (if AccountStatus.eqb (S._accountStatus st) (statusFor c)
        then st else S.with_accountStatus (statusFor c) st)
  /\ pushes (trace_of out) = []
  /\ awaitedAnswers (trace_of out) = []
  /\ statusFired (trace_of out)
     = (if AccountStatus.eqb (S._accountStatus st) (statusFor c) then [] else [statusFor c]).
Proof.
  unfold S.updateAccountStatus. fold (statusFor c). rewrite run_bind. cbn.
  destruct (AccountStatus.eqb (S._accountStatus st) (statusFor c)); cbn; repeat split.
Qed.

Lemma AccountStatus_eqb_eq (a b : AccountStatus.t) : AccountStatus.eqb a b = true <-> a = b.
Proof. destruct a, b; simpl; split; congruence. Qed.

Lemma current_stable (st st' : S.State) :
  cacheFilled st st' -> fst (S.current st') = fst (S.current st).
Proof.
  intro H. rewrite (proj1 (current_run st')), (proj1 (current_run st)).
  rewrite (cacheFilled_effective H). unfold S.all.
  destruct (cacheFilled_fields H) as (_ & _ & -> & _). reflexivity.
Qed.

Lemma effective_with_accountStatus (x : AccountStatus.t) (st : S.State) :
  effectiveSessionId (S.with_accountStatus x st) = effectiveSessionId st.
Proof.
  unfold effectiveSessionId, S.currentSessionId. simpl.
  destruct (S._cachedCurrentSessionId st); reflexivity.
Qed.

Lemma effective_with_all (x : list (string * list UserDataSyncAccount)) (st : S.State) :
  effectiveSessionId (S.with_all x st) = effectiveSessionId st.
Proof.
  unfold effectiveSessionId, S.currentSessionId. simpl.
  destruct (S._cachedCurrentSessionId st); reflexivity.
Qed.

Lemma current_with_accountStatus (x : AccountStatus.t) (st : S.State) :
  fst (S.current (S.with_accountStatus x st)) = fst (S.current st).
Proof.
  rewrite (proj1 (current_run _)), (proj1 (current_run st)).
  rewrite effective_with_accountStatus. reflexivity.
Qed.

Lemma refreshed_facts (allAccounts : list (string * list UserDataSyncAccount))
    (st st1 : S.State) :
  cacheFilled st st1 ->
  let st' := refreshed allAccounts st1 in
  let c := fst (S.current (S.with_all allAccounts st1)) in
  fst (S.current st') = c
  /\ S._accountStatus st' = statusFor c
  /\ effectiveSessionId st' = effectiveSessionId st
  /\ S.storage st' = S.storage st
  /\ (coherent st -> coherent st')
  /\ AccountStatus.eqb (S._accountStatus (snd (S.current (S.with_all allAccounts st1))))
       (statusFor c)
     = AccountStatus.eqb (S._accountStatus st) (S._accountStatus st').
Proof.
  intros Hfill st' c.
  set (st2 := S.with_all allAccounts st1) in *.
  destruct (current_run st2) as [_ Hfill3].
  set (st3 := snd (S.current st2)) in *.
  assert (Hst' : st' = st3 /\ S._accountStatus st3 = statusFor c
                 \/ st' = S.with_accountStatus (statusFor c) st3
                    /\ AccountStatus.eqb (S._accountStatus st3) (statusFor c) = false).
  { unfold st', refreshed. fold st2. fold st3. fold c.
    destruct (AccountStatus.eqb (S._accountStatus st3) (statusFor c)) eqn:E.
    - left. split; [reflexivity | apply AccountStatus_eqb_eq; exact E].
    - right. split; reflexivity. }
  assert (Hc3 : fst (S.current st3) = c) by (apply current_stable; exact Hfill3).
  assert (He3 : effectiveSessionId st3 = effectiveSessionId st).
  { rewrite (cacheFilled_effective Hfill3). unfold st2. rewrite effective_with_all.
    apply cacheFilled_effective. exact Hfill. }
  destruct (cacheFilled_fields Hfill3) as (_ & Hs3 & _ & Hg3 & _).
  destruct (cacheFilled_fields Hfill) as (_ & Hs1 & _ & Hg1 & _).
  assert (Hcoh3 : coherent st -> coherent st3).
  { intro H. apply (cacheFilled_coherent Hfill3).
    change (coherent st2) with (coherent st1).
    apply (cacheFilled_coherent Hfill). exact H. }
  assert (Hstatus3 : S._accountStatus st3 = S._accountStatus st).
  { rewrite Hs3. simpl. exact Hs1. }
  assert (Hstore3 : S.storage st3 = S.storage st).
  { rewrite Hg3. simpl. exact Hg1. }
  destruct Hst' as [[-> Hs] | [-> Hs]].
  - repeat split; try assumption.
    rewrite Hstatus3 in *. rewrite <- Hs. reflexivity.
  - repeat split; try assumption.
    + rewrite current_with_accountStatus. exact Hc3.
    + rewrite effective_with_accountStatus. exact He3.
    + simpl. rewrite Hstatus3. reflexivity.
Qed.

Lemma update_run (W : Type) (h : handler W) (st : S.State) (w : W) :
  let out := run h (S.update st) w in
  let fetched := run h (S.fetchAccounts (S.authenticationProviders st) [] st) w in
  succeeded (fst (result_of out)) = forallb (fun b => b) (awaitedAnswers (trace_of out))
  /\ match fst (result_of fetched) with
     | Ok allAccounts =>
         let st1 := snd (result_of fetched) in
         let c := fst (S.current (S.with_all allAccounts st1)) in
         cacheFilled st st1
         /\ pushes (trace_of out) = [UpdateAccount (tokenValue c)]
         /\ (forall a e, c = Some a -> token a = Throw e ->
                         In (LogError e) (calls (trace_of out)))
         /\ (fst (result_of out) = Ok tt ->
             snd (result_of out) = refreshed allAccounts st1
             /\ statusFired (trace_of out)
                = (if AccountStatus.eqb (S._accountStatus
                                           (snd (S.current (S.with_all allAccounts st1))))
                        (statusFor c)
                   then [] else [statusFor c]))
     | Throw e => fst (result_of out) = Throw e /\ pushes (trace_of out) = []
     end.
Proof.
  unfold S.update. rewrite run_bind. cbn [get run result_of world_of trace_of fst snd app].
  rewrite run_bind.
  destruct (fetchAccounts_run h (S.authenticationProviders st) [] st w) as (Hfill & Hfetch & Hok).
  cbv zeta in *.
  destruct (run h (S.fetchAccounts (S.authenticationProviders st) [] st) w)
    as [[[[allAccounts | e] st1] w1] t1];
    cbn [fst snd result_of world_of trace_of] in *.
  - destruct (fetchesOnly_quiet Hfetch) as (Hp1 & Hf1 & _ & _).
    rewrite run_bind. cbn [assign run result_of world_of trace_of fst snd app].
    rewrite run_bind. cbn [stateful run result_of world_of trace_of fst snd app].
    rewrite run_bind.
    set (st2 := S.with_all allAccounts st1) in *.
    destruct (updateToken_run h (fst (S.current st2)) (snd (S.current st2)) w1)
      as (Hst & Hpush & Hfired & Hawait & Hlog).
    cbv zeta in *.
    destruct (run h (S.updateToken (fst (S.current st2)) (snd (S.current st2))) w1)
      as [[[[[] | e] st3] w3] t3];
      cbn [fst snd result_of world_of trace_of succeeded] in *.
    + destruct (updateAccountStatus_run h (fst (S.current st2)) st3 w3)
        as (Hres & Hst4 & Hpush4 & Hawait4 & Hfired4).
      cbv zeta in *.
      destruct (run h (S.updateAccountStatus (fst (S.current st2)) st3) w3)
        as [[[r4 st4] w4] t4];
        cbn [fst snd result_of world_of trace_of succeeded] in *.
      subst r4 st3. cbn [succeeded].
      rewrite !awaitedAnswers_app, !pushes_app, !statusFired_app, !calls_app.
      rewrite Hp1, Hf1, Hpush, Hpush4, Hfired, Hfired4, Hawait, Hawait4.
      rewrite !forallb_app, <- Hok. cbn [forallb app andb].
      split; [reflexivity |]. split; [exact Hfill |]. split; [reflexivity |].
      split.
      * intros a e Ha He. apply in_or_app. right. apply in_or_app. left.
        exact (Hlog a e Ha He).
      * intros _. split; [exact Hst4 | reflexivity].
    + rewrite !awaitedAnswers_app, !pushes_app, !calls_app.
      rewrite Hp1, Hpush, Hawait.
      rewrite !forallb_app, <- Hok. cbn [forallb app andb].
      split; [reflexivity |]. split; [exact Hfill |]. split; [reflexivity |].
      split.
      * intros a e0 Ha He. apply in_or_app. right. exact (Hlog a e0 Ha He).
      * intros [=].
  - destruct (fetchesOnly_quiet Hfetch) as (Hp1 & _ & _ & _).
    split; [exact Hok |]. split; [reflexivity | exact Hp1].
Qed.

Lemma current_sessionId (st : S.State) (a : UserDataSyncAccount) :
  fst (S.current st) = Some a -> effectiveSessionId st = Some (sessionId a).
Proof.
  rewrite (proj1 (current_run st)). intro H.
  assert (Hin : In a (filter (fun a => option_eqb String.eqb (Some (sessionId a))
                                         (effectiveSessionId st)) (S.all st))).
  { destruct (filter _ (S.all st)) as [|b l]; [discriminate |].
    injection H as ->. left. reflexivity. }
  apply filter_In in Hin. destruct Hin as [_ E].
  destruct (effectiveSessionId st) as [id|]; [| discriminate].
  simpl in E. apply String.eqb_eq in E. rewrite E. reflexivity.
Qed.

Lemma coherent_effective (st : S.State) :
  coherent st -> effectiveSessionId st = S.getStoredCachedSessionId st.
Proof.
  unfold coherent, effectiveSessionId, S.currentSessionId.
  destruct (S._cachedCurrentSessionId st); simpl; auto.
Qed.

(** C6, as claimed, fails: when the token of the current account cannot be
    read, the refresh logs the error and completes, and the token sink is
    still called, with no account. *)
Lemma failed_token_fetch_still_pushes :
  let noToken := sessionOf "s1" (Throw (Error "no token")) in
  let out := run (withSessions [noToken] noToken) (S.update windowOnS1) tt in
  fst (result_of out) = Ok tt
  /\ option_map token (fst (S.current (snd (result_of out)))) = Some (Throw (Error "no token"))
  /\ In (LogError (Error "no token")) (calls (trace_of out))
  /\ pushes (trace_of out) = [UpdateAccount None]
  /\ pushes (trace_of out) <> [].
Proof.
  cbv zeta. split; [reflexivity |]. split; [reflexivity |].
  split; [| split; [reflexivity | discriminate]].
  vm_compute. right. right. left. reflexivity.
Qed.

(** C6. A refresh completes exactly when every session fetch and the call on
    the token sink do, whatever the token fetch does.  A completed refresh
    has called the token sink once: with the token and the provider of the
    current account when there is one and its token can be read, and with no
    account otherwise; an error of the token fetch has been logged. *)
Theorem refresh_pushes_token (st : S.State) (W : Type) (h : handler W) (w : W) :
  let out := run h (S.update st) w in
  let current := fst (S.current (snd (result_of out))) in
  succeeded (fst (result_of out)) = forallb (fun b => b) (awaitedAnswers (trace_of out))
  /\ (fst (result_of out) = Ok tt ->
      pushes (trace_of out)
      = [UpdateAccount
           match current with
           | Some account =>
               match token account with
               | Ok t => Some (t, authenticationProviderId account)
               | Throw _ => None
               end
           | None => None
           end]
      /\ forall account e, current = Some account -> token account = Throw e ->
                           In (LogError e) (calls (trace_of out))).
Proof.
  intros out current. destruct (update_run h st w) as [Hok Hrest].
  cbv zeta in *. fold out in Hok, Hrest. split; [exact Hok |].
  intro Hdone.
  destruct (fst (result_of (run h (S.fetchAccounts (S.authenticationProviders st) [] st) w)))
    as [allAccounts | e].
  - destruct Hrest as (Hfill & Hpush & Hlog & Hstate).
    destruct (Hstate Hdone) as [Hst' _].
    destruct (refreshed_facts allAccounts Hfill) as (Hc & _).
    cbv zeta in Hc. rewrite <- Hst' in Hc.
    unfold current. rewrite Hc. split; [exact Hpush | exact Hlog].
  - destruct Hrest as [Hthrow _]. rewrite Hthrow in Hdone. discriminate.
Qed.

(** *** What a method keeps *)

Section Preserves.
Context {St : Type} (I : St -> Prop).

Lemma preserves_ret {A} (a : A) : preserves I (ret (S := St) a).
Proof. intros s Hs W h w. exact Hs. Qed.

Lemma preserves_throw {A} (e : error) : preserves I (throw (S := St) (A := A) e).
Proof. intros s Hs W h w. exact Hs. Qed.

Lemma preserves_get : preserves I (get (S := St)).
Proof. intros s Hs W h w. exact Hs. Qed.

Lemma preserves_perform (c : call) : preserves I (perform (S := St) c).
Proof. intros s Hs W h w. exact Hs. Qed.

Lemma preserves_performOr (c : call) (d : reply c) : preserves I (performOr (S := St) c d).
Proof. intros s Hs W h w. exact Hs. Qed.

Lemma preserves_signal (c : call) : preserves I (signal (S := St) c).
Proof. intros s Hs W h w. exact Hs. Qed.

Lemma preserves_assign (f : St -> St) :
  (forall s, I s -> I (f s)) -> preserves I (assign f).
Proof. intros Hf s Hs W h w. apply Hf. exact Hs. Qed.

Lemma preserves_stateful {A} (f : St -> A * St) :
  (forall s, I s -> I (snd (f s))) -> preserves I (stateful f).
Proof. intros Hf s Hs W h w. apply Hf. exact Hs. Qed.

Lemma preserves_bind {A B} (m : M St A) (f : A -> M St B) :
  preserves I m -> (forall a, preserves I (f a)) -> preserves I (bind m f).
Proof.
  intros Hm Hf s Hs W h w. rewrite run_bind. cbv zeta.
  specialize (Hm s Hs W h w).
  destruct (run h (m s) w) as [[[[a | e] s1] w1] t1]; simpl in *.
  - apply Hf. exact Hm.
  - exact Hm.
Qed.

Lemma preserves_tryCatch {A} (body : M St A) (handle : error -> M St A) :
  preserves I body -> (forall e, preserves I (handle e)) ->
  preserves I (tryCatch body handle).
Proof.
  intros Hm Hf s Hs W h w. unfold tryCatch. rewrite run_pbind. cbv zeta.
  specialize (Hm s Hs W h w).
  destruct (run h (body s) w) as [[[[a | e] s1] w1] t1]; simpl in *.
  - exact Hm.
  - apply Hf. exact Hm.
Qed.

Lemma preserves_tryFinally {A} (body : M St A) (final : M St unit) :
  preserves I body -> preserves I final -> preserves I (tryFinally body final).
Proof.
  intros Hm Hf s Hs W h w. unfold tryFinally. rewrite run_pbind. cbv zeta.
  specialize (Hm s Hs W h w).
  destruct (run h (body s) w) as [[[r s1] w1] t1]; simpl in *.
  rewrite run_pbind. cbv zeta. specialize (Hf s1 Hm W h w1).
  destruct (run h (final s1) w1) as [[[[[] | e] s2] w2] t2]; simpl in *; exact Hf.
Qed.
End Preserves.

(** The preview is no part of what [I] speaks of. *)
Lemma preserves_onPreview {A} (I : S.State -> Prop) (m : M PreviewState A) :
  (forall s p, I s -> I (S.with_userDataSyncPreview p s)) ->
  preserves I (S.onPreview m).
Proof.
  intros Hframe s Hs W h w. unfold S.onPreview. rewrite run_pbind. simpl.
  apply Hframe. exact Hs.
Qed.

Ltac preserving :=
  repeat match goal with
         | |- preserves _ (ret _) => apply preserves_ret
         | |- preserves _ (throw _) => apply preserves_throw
         | |- preserves _ get => apply preserves_get
         | |- preserves ?I (perform ?c) => exact (preserves_perform I c)
         | |- preserves ?I (performOr ?c ?d) => exact (preserves_performOr I c d)
         | |- preserves _ (signal _) => apply preserves_signal
         | |- preserves _ (fire _) => apply preserves_signal
         | |- preserves _ (bind _ _) => apply preserves_bind; [| intro; cbv beta]
         | |- preserves _ (tryCatch _ _) => apply preserves_tryCatch; [| intro; cbv beta]
         | |- preserves _ (tryFinally _ _) => apply preserves_tryFinally
         | |- preserves _ (match ?x with _ => _ end) => destruct x
         end.

(** *** The cache agrees with the storage *)

Lemma storage_get_remove_other (key other : string) (s : Storage) :
  String.eqb other key = false ->
  storage_get key (storage_remove other s) = storage_get key s.
Proof.
  intro Hne. unfold storage_get, storage_remove.
  induction s as [|[k v] s IH]; simpl; [reflexivity |].
  destruct (String.eqb k other) eqn:Eo; simpl.
  - apply String.eqb_eq in Eo. subst k. rewrite Hne. exact IH.
  - destruct (String.eqb k key); [reflexivity | exact IH].
Qed.

Lemma storage_get_store_other (key other value : string) (s : Storage) :
  String.eqb other key = false ->
  storage_get key (storage_store other value s) = storage_get key s.
Proof.
  intro Hne. unfold storage_store, storage_get. simpl. rewrite Hne.
  apply storage_get_remove_other. exact Hne.
Qed.

Lemma storage_get_remove (key : string) (s : Storage) :
  storage_get key (storage_remove key s) = None.
Proof.
  unfold storage_get, storage_remove.
  induction s as [|[k v] s IH]; simpl; [reflexivity |].
  destruct (String.eqb k key) eqn:E; simpl; [exact IH | rewrite E; exact IH].
Qed.

Lemma storage_get_store (key value : string) (s : Storage) :
  storage_get key (storage_store key value s) = Some value.
Proof. unfold storage_store, storage_get. simpl. rewrite String.eqb_refl. reflexivity. Qed.

Lemma set_currentSessionId_coherent (id : option string) (st : S.State) :
  coherent st -> coherent (S.set_currentSessionId id st).
Proof.
  intro H. unfold S.set_currentSessionId.
  destruct (negb _); [| exact H].
  unfold coherent, S.getStoredCachedSessionId. destruct id as [id|]; simpl.
  - rewrite storage_get_store. reflexivity.
  - rewrite storage_get_remove. reflexivity.
Qed.

Lemma set_useWorkbenchSessionId_coherent (b : bool) (st : S.State) :
  coherent st -> coherent (S.set_useWorkbenchSessionId b st).
Proof.
  unfold coherent, S.set_useWorkbenchSessionId, S.getStoredCachedSessionId. simpl.
  rewrite storage_get_store_other by reflexivity. auto.
Qed.

Lemma currentSessionId_coherent (st : S.State) :
  coherent st -> coherent (snd (S.currentSessionId st)).
Proof. apply cacheFilled_coherent. right. reflexivity. Qed.

Lemma current_coherent (st : S.State) : coherent st -> coherent (snd (S.current st)).
Proof. apply cacheFilled_coherent. apply current_run. Qed.

Lemma preserves_getAccounts (id : string) : preserves coherent (S.getAccounts id).
Proof.
  unfold S.getAccounts. preserving.
  apply preserves_stateful. intros s. apply cacheFilled_coherent, collectAccounts_filled.
Qed.

Lemma preserves_fetchAccounts (providers : list IAuthenticationProvider)
    (allAccounts : list (string * list UserDataSyncAccount)) :
  preserves coherent (S.fetchAccounts providers allAccounts).
Proof.
  revert allAccounts. induction providers as [|p providers IH]; intro allAccounts; simpl.
  - apply preserves_ret.
  - apply preserves_bind; [apply preserves_getAccounts | intro accounts; apply IH].
Qed.

Lemma preserves_updateToken (c : option UserDataSyncAccount) :
  preserves coherent (S.updateToken c).
Proof.
  unfold S.updateToken. preserving.
Qed.

Lemma preserves_updateAccountStatus (c : option UserDataSyncAccount) :
  preserves coherent (S.updateAccountStatus c).
Proof.
  unfold S.updateAccountStatus. preserving.
  all: apply preserves_assign; intros s H; exact H.
Qed.

Lemma preserves_update : preserves coherent S.update.
Proof.
  unfold S.update. preserving.
  all: first [ apply preserves_updateAccountStatus | apply preserves_updateToken
             | apply preserves_fetchAccounts
             | apply preserves_stateful; exact current_coherent
             | apply preserves_assign; intros s H; exact H ].
Qed.

Lemma coherent_frame (st st' : S.State) :
  S._cachedCurrentSessionId st' = S._cachedCurrentSessionId st ->
  S.storage st' = S.storage st ->
  coherent st -> coherent st'.
Proof.
  unfold coherent, S.getStoredCachedSessionId. intros -> ->. auto.
Qed.

Lemma preserves_switch (sessionId accountName accountId : string) :
  preserves coherent (S.switch sessionId accountName accountId).
Proof.
  unfold S.switch. preserving.
  - apply preserves_stateful. exact current_coherent.
  - apply preserves_assign. intro s. apply set_currentSessionId_coherent.
  - apply preserves_update.
Qed.

Lemma preserves_updateDetached : preserves coherent S.updateDetached.
Proof. unfold S.updateDetached. preserving. apply preserves_update. Qed.

Ltac keeping :=
  preserving;
  first [ apply preserves_update | apply preserves_updateDetached
        | apply preserves_stateful; first [exact current_coherent | exact currentSessionId_coherent]
        | apply preserves_assign; intro; first [ apply set_currentSessionId_coherent
                                               | apply set_useWorkbenchSessionId_coherent
                                               | intro; assumption ]
        | apply preserves_onPreview; intros; assumption
        | idtac ].

Lemma preserves_initialize : preserves coherent S.initialize.
Proof. unfold S.initialize. keeping. Qed.

Lemma preserves_onDidSuccessiveAuthFailures :
  preserves coherent S.onDidSuccessiveAuthFailures.
Proof. unfold S.onDidSuccessiveAuthFailures. keeping. Qed.

Lemma preserves_onDidChangeSessions (removed : list string) :
  preserves coherent (S.onDidChangeSessions removed).
Proof. unfold S.onDidChangeSessions. keeping. Qed.

Lemma preserves_getFirstTimeSyncAction (r l c m : bool) :
  preserves coherent (S.getFirstTimeSyncAction r l c m).
Proof. unfold S.getFirstTimeSyncAction. keeping. Qed.

Lemma preserves_syncManually (task : IManualSyncTask) (preview : SyncPreview) :
  preserves coherent (S.syncManually task preview).
Proof. unfold S.syncManually. keeping. Qed.

Lemma preserves_syncBeforeTurningOn (title : string) :
  preserves coherent (S.syncBeforeTurningOn title).
Proof.
  unfold S.syncBeforeTurningOn. keeping.
  all: first [apply preserves_getFirstTimeSyncAction | apply preserves_syncManually].
Qed.

Section PickKeeps.
Variable arraySort : forall A : Type, (A -> A -> Z) -> list A -> list A.
Variable getLabel : string -> string.
Variable supportsMultipleAccounts : string -> bool.

Lemma accountItems_coherent (providers : list IAuthenticationProvider)
    (c : option UserDataSyncAccount) (st : S.State) :
  coherent st -> coherent (snd (S.accountItems arraySort getLabel providers c st)).
Proof.
  revert st. induction providers as [|p providers IH]; intros st H; [exact H |].
  cbn [S.accountItems snd]. apply IH.
  destruct (map_get (provider_id p) (S._all st)); exact H.
Qed.

Lemma createQuickpickItems_coherent (st : S.State) :
  coherent st ->
  coherent (snd (S.createQuickpickItems arraySort getLabel supportsMultipleAccounts st)).
Proof.
  intro H. unfold S.createQuickpickItems.
  destruct (S.all st); [exact H |].
  cbn [snd fst]. apply accountItems_coherent, current_coherent. exact H.
Qed.

Lemma preserves_doPick :
  preserves coherent (S.doPick arraySort getLabel supportsMultipleAccounts).
Proof.
  unfold S.doPick. keeping.
  all: apply preserves_stateful; exact createQuickpickItems_coherent.
Qed.

Lemma preserves_pick :
  preserves coherent (S.pick arraySort getLabel supportsMultipleAccounts).
Proof.
  unfold S.pick. keeping.
  all: first [apply preserves_doPick | apply preserves_switch].
Qed.

Lemma preserves_turnOn :
  preserves coherent (S.turnOn arraySort getLabel supportsMultipleAccounts).
Proof.
  unfold S.turnOn. keeping.
  all: first [apply preserves_pick | apply preserves_syncBeforeTurningOn].
Qed.
End PickKeeps.

Lemma option_eqb_string (a b : option string) : option_eqb String.eqb a b = true -> a = b.
Proof.
  destruct a as [x|], b as [y|]; simpl; try discriminate; try reflexivity.
  intro H. apply String.eqb_eq in H. rewrite H. reflexivity.
Qed.

(** The listener restores the agreement after another window has written the
    session id, and keeps it otherwise. *)
Lemma onDidChangeStorage_coherent (key : string) (st : S.State)
    (W : Type) (h : handler W) (w : W) :
  (String.eqb key S.CACHED_SESSION_STORAGE_KEY = false -> coherent st) ->
  coherent (snd (result_of (run h (S.onDidChangeStorage key true st) w))).
Proof.
  intro Hother. unfold S.onDidChangeStorage.
  destruct (String.eqb key S.CACHED_SESSION_STORAGE_KEY); cbn [andb].
  - rewrite run_bind. cbn [stateful run result_of world_of trace_of fst snd app].
    rewrite run_bind. cbn [get run result_of world_of trace_of fst snd app].
    fold (filled st). fold (effectiveSessionId st).
    destruct (option_eqb String.eqb (effectiveSessionId st)
                (S.getStoredCachedSessionId (filled st))) eqn:E; cbn [negb].
    + cbn. apply option_eqb_string in E.
      unfold coherent, filled, effectiveSessionId, S.currentSessionId in *.
      destruct (S._cachedCurrentSessionId st) as [cached|] eqn:Ec; cbn in *.
      * rewrite Ec. exact E.
      * reflexivity.
    + rewrite run_bind. cbn [assign run result_of world_of trace_of fst snd app].
      pose proof (preserves_updateDetached
                    (S.with_cachedCurrentSessionId None (filled st)) I h w) as Hrun.
      destruct (run h (S.updateDetached _) w) as [[[[[] | e] s1] w1] t1]; exact Hrun.
  - cbn. apply Hother. reflexivity.
Qed.

(** C7, as claimed, fails.  The window works with the session [s1] it has
    cached, another window has stored [s2] since, and the storage listener of
    this window has not run: the refresh completes with the account of [s1]
    as the current one and the status [Available], while the persisted
    session id is [s2]. *)
Lemma stale_cache_current_is_not_persisted :
  let s1 := sessionOf "s1" (Ok "token") in
  let out := run (withSessions [s1] s1) (S.update staleWindow) tt in
  let st' := snd (result_of out) in
  fst (result_of out) = Ok tt
  /\ option_map sessionId (fst (S.current st')) = Some "s1"
  /\ S.getStoredCachedSessionId st' = Some "s2"
  /\ S.accountStatus st' = AccountStatus.Available
  /\ ~ (forall account, fst (S.current st') = Some account ->
                        S.getStoredCachedSessionId st' = Some (sessionId account)).
Proof.
  cbv zeta. split; [reflexivity |]. split; [reflexivity |]. split; [reflexivity |].
  split; [reflexivity |].
  intro H. specialize (H _ eq_refl). discriminate.
Qed.

(** The service reaches that state: the window is constructed on a storage
    that holds [s1], a session change makes it read the session id (the
    refresh that follows fails on the session fetch and changes nothing), and
    another window stores [s2]. *)
Example stale_window_is_reached :
  serviceReachable keepOrder labelIsId singleAccount staleWindow.
Proof.
  assert (E : staleWindow
              = snd (result_of
                       (run (pressing 0)
                          (enter keepOrder labelIsId singleAccount
                             (StorageWritten S.CACHED_SESSION_STORAGE_KEY (Some "s2"))
                             (snd (result_of
                                     (run (failingFetch (Error "offline"))
                                        (enter keepOrder labelIsId singleAccount
                                           (SessionsChanged []) windowOnS1) tt)))) tt)))
    by reflexivity.
  rewrite E. apply service_enter, service_enter. unfold windowOnS1. apply service_new.
Qed.

(** C7. A completed refresh leaves the session id the service works with as
    it was.  It leaves a current account only if the session id of that
    account is the one the service works with, which is the persisted one
    whenever the cache agreed with the storage before the refresh, and then
    the status is [Available]; without a current account the status is
    [Unavailable].  [onDidChangeAccountStatus] has fired once, with the new
    status, when the status differs from the one before the refresh, and
    has not fired when it is the same. *)
Theorem refresh_publishes_status (st : S.State) (W : Type) (h : handler W) (w : W) :
  let out := run h (S.update st) w in
  fst (result_of out) = Ok tt ->
  let st' := snd (result_of out) in
  effectiveSessionId st' = effectiveSessionId st
  /\ match fst (S.current st') with
     | Some account =>
         effectiveSessionId st' = Some (sessionId account)
         /\ (coherent st -> S.getStoredCachedSessionId st' = Some (sessionId account))
         /\ S.accountStatus st' = AccountStatus.Available
     | None => S.accountStatus st' = AccountStatus.Unavailable
     end
  /\ statusFired (trace_of out)
     = (if AccountStatus.eqb (S.accountStatus st) (S.accountStatus st')
        then [] else [S.accountStatus st']).
Proof.
  intros out Hdone st'. destruct (update_run h st w) as [_ Hrest].
  cbv zeta in *. fold out in Hrest.
  destruct (fst (result_of (run h (S.fetchAccounts (S.authenticationProviders st) [] st) w)))
    as [allAccounts | e].
  - destruct Hrest as (Hfill & _ & _ & Hstate).
    destruct (Hstate Hdone) as [Hst' Hfired].
    pose proof (refreshed_facts allAccounts Hfill) as Hfacts.
    cbv zeta in Hfacts. rewrite <- Hst' in Hfacts. fold st' in Hfacts.
    destruct Hfacts as (Hc & Hstatus & Heff & _ & Hcoh' & Heqb).
    split; [exact Heff |]. split.
    + destruct (fst (S.current st')) as [account|] eqn:Hcur.
      * assert (Hid : effectiveSessionId st' = Some (sessionId account))
          by (apply current_sessionId; exact Hcur).
        split; [exact Hid |]. split.
        -- intro Hcoh. rewrite <- (coherent_effective st' (Hcoh' Hcoh)). exact Hid.
        -- unfold S.accountStatus. rewrite Hstatus, <- Hc. reflexivity.
      * unfold S.accountStatus. rewrite Hstatus, <- Hc. reflexivity.
    + rewrite Hfired, Heqb. unfold S.accountStatus. rewrite Hstatus. reflexivity.
  - destruct Hrest as [Hthrow _]. rewrite Hdone in Hthrow. discriminate.
Qed.

Lemma refresh_publishes_status_witness :
  let s1 := sessionOf "s1" (Ok "token") in
  let out := run (withSessions [s1] s1) (S.update windowOnS1) tt in
  let st' := snd (result_of out) in
  fst (result_of out) = Ok tt
  /\ coherent windowOnS1
  /\ option_map sessionId (fst (S.current st')) = Some "s1"
  /\ effectiveSessionId st' = Some "s1"
  /\ S.getStoredCachedSessionId st' = Some "s1"
  /\ S.accountStatus st' = AccountStatus.Available
  /\ statusFired (trace_of out) = [AccountStatus.Available].
Proof.
  cbv zeta. split; [reflexivity |]. split; [exact I |]. split; [reflexivity |].
  destruct (refresh_publishes_status windowOnS1
              (withSessions [sessionOf "s1" (Ok "token")] (sessionOf "s1" (Ok "token"))) tt
              eq_refl) as (_ & (Hid & Hstored & Hstatus) & Hfired).
  split; [exact Hid |]. split; [exact (Hstored I) |]. split; [exact Hstatus | exact Hfired].
Defined.

(** The refresh of the witness finds the account, publishes [Available] once
    and pushes the token. *)
Example refresh_signs_in :
  let s1 := sessionOf "s1" (Ok "token") in
  let out := run (withSessions [s1] s1) (S.update windowOnS1) tt in
  option_map sessionId (fst (S.current (snd (result_of out)))) = Some "s1"
  /\ S.accountStatus (snd (result_of out)) = AccountStatus.Available
  /\ statusFired (trace_of out) = [AccountStatus.Available]
  /\ pushes (trace_of out) = [UpdateAccount (Some ("token", "github"))].
Proof. cbv zeta. repeat split. Qed.

(** ** Enablement *)

(** *** What a method calls *)

Section Emits.
Context {St : Type} (allowed : call -> bool).

Lemma emits_ret {A} (a : A) : emits allowed (ret (S := St) a).
Proof. intros s W h w. reflexivity. Qed.

Lemma emits_throw {A} (e : error) : emits allowed (throw (S := St) (A := A) e).
Proof. intros s W h w. reflexivity. Qed.

Lemma emits_get : emits allowed (get (S := St)).
Proof. intros s W h w. reflexivity. Qed.

Lemma emits_assign (f : St -> St) : emits allowed (assign f).
Proof. intros s W h w. reflexivity. Qed.

Lemma emits_stateful {A} (f : St -> A * St) : emits allowed (stateful f).
Proof. intros s W h w. reflexivity. Qed.

Lemma emits_perform (c : call) : allowed c = true -> emits allowed (perform (S := St) c).
Proof. intros H s W h w. simpl. rewrite H. reflexivity. Qed.

Lemma emits_performOr (c : call) (d : reply c) :
  allowed c = true -> emits allowed (performOr (S := St) c d).
Proof. intros H s W h w. simpl. rewrite H. reflexivity. Qed.

Lemma emits_signal (c : call) : allowed c = true -> emits allowed (signal (S := St) c).
Proof. intros H s W h w. simpl. rewrite H. reflexivity. Qed.

Lemma emits_bind {A B} (m : M St A) (f : A -> M St B) :
  emits allowed m -> (forall a, emits allowed (f a)) -> emits allowed (bind m f).
Proof.
  intros Hm Hf s W h w. rewrite run_bind. cbv zeta.
  specialize (Hm s W h w).
  destruct (run h (m s) w) as [[[[a | e] s1] w1] t1]; simpl in *.
  - rewrite calls_app, forallb_app, Hm. apply Hf.
  - exact Hm.
Qed.

Lemma emits_tryCatch {A} (body : M St A) (handle : error -> M St A) :
  emits allowed body -> (forall e, emits allowed (handle e)) ->
  emits allowed (tryCatch body handle).
Proof.
  intros Hm Hf s W h w. unfold tryCatch. rewrite run_pbind. cbv zeta.
  specialize (Hm s W h w).
  destruct (run h (body s) w) as [[[[a | e] s1] w1] t1]; simpl in *.
  - rewrite app_nil_r. exact Hm.
  - rewrite calls_app, forallb_app, Hm. apply Hf.
Qed.

Lemma emits_tryFinally {A} (body : M St A) (final : M St unit) :
  emits allowed body -> emits allowed final -> emits allowed (tryFinally body final).
Proof.
  intros Hm Hf s W h w. unfold tryFinally. rewrite run_pbind. cbv zeta.
  specialize (Hm s W h w).
  destruct (run h (body s) w) as [[[r s1] w1] t1]; simpl in *.
  rewrite run_pbind. cbv zeta. specialize (Hf s1 W h w1).
  destruct (run h (final s1) w1) as [[[[[] | e] s2] w2] t2]; simpl in *;
    rewrite app_nil_r, calls_app, forallb_app, Hm; exact Hf.
Qed.
End Emits.

Lemma accountStep_not_syncStep (c : call) : isAccountStep c = true -> isSyncStep c = false.
Proof.
  destruct c; simpl; try discriminate; try reflexivity.
  - intro H. apply String.eqb_eq in H. subst. reflexivity.
  - destruct value; [discriminate | reflexivity].
  - destruct n; [discriminate | discriminate | reflexivity].
Qed.

Lemma emits_getAccounts (id : string) : emits isAccountStep (S.getAccounts id).
Proof.
  unfold S.getAccounts.
  apply emits_bind; [apply emits_perform; reflexivity | intro sessions].
  apply emits_bind; [apply emits_stateful | intro r]. apply emits_ret.
Qed.

Lemma emits_fetchAccounts (providers : list IAuthenticationProvider)
    (allAccounts : list (string * list UserDataSyncAccount)) :
  emits isAccountStep (S.fetchAccounts providers allAccounts).
Proof.
  revert allAccounts. induction providers as [|p providers IH]; intro allAccounts; simpl.
  - apply emits_ret.
  - apply emits_bind; [apply emits_getAccounts | intro accounts; apply IH].
Qed.

Lemma emits_updateToken (c : option UserDataSyncAccount) : emits isAccountStep (S.updateToken c).
Proof.
  unfold S.updateToken.
  apply emits_bind; [| intro value; apply emits_perform; reflexivity].
  destruct c as [a|]; [| apply emits_ret].
  apply emits_tryCatch.
  - apply emits_bind; [apply emits_signal; reflexivity | intros _].
    apply emits_bind; [destruct (token a); [apply emits_ret | apply emits_throw] | intro t].
    apply emits_bind; [apply emits_signal; reflexivity | intros _; apply emits_ret].
  - intro e. apply emits_bind; [apply emits_signal; reflexivity | intros _; apply emits_ret].
Qed.

Lemma emits_updateAccountStatus (c : option UserDataSyncAccount) :
  emits isAccountStep (S.updateAccountStatus c).
Proof.
  unfold S.updateAccountStatus.
  apply emits_bind; [apply emits_get | intro st].
  destruct (negb _); [| apply emits_ret].
  apply emits_bind; [apply emits_signal; reflexivity | intros _].
  apply emits_bind; [apply emits_assign | intros _].
  apply emits_bind; [apply emits_signal; reflexivity | intros _].
  apply emits_signal. reflexivity.
Qed.

Lemma emits_update : emits isAccountStep S.update.
Proof.
  unfold S.update.
  apply emits_bind; [apply emits_get | intro st].
  apply emits_bind; [apply emits_fetchAccounts | intro allAccounts].
  apply emits_bind; [apply emits_assign | intros _].
  apply emits_bind; [apply emits_stateful | intro c].
  apply emits_bind; [apply emits_updateToken | intros _].
  apply emits_updateAccountStatus.
Qed.

Lemma emits_switch (sessionId accountName accountId : string) :
  emits isAccountStep (S.switch sessionId accountName accountId).
Proof.
  unfold S.switch.
  apply emits_bind; [apply emits_stateful | intro c].
  apply emits_bind; [apply emits_perform; reflexivity | intro enabled].
  apply emits_bind; [apply emits_assign | intros _].
  apply emits_bind; [apply emits_signal; reflexivity | intros _].
  apply emits_update.
Qed.

Section Pick.
Variable arraySort : forall A : Type, (A -> A -> Z) -> list A -> list A.
Variable getLabel : string -> string.
Variable supportsMultipleAccounts : string -> bool.

Lemma emits_doPick :
  emits isAccountStep (S.doPick arraySort getLabel supportsMultipleAccounts).
Proof.
  unfold S.doPick.
  apply emits_bind; [apply emits_get | intro st].
  destruct (S.authenticationProviders st) as [|p ps]; [apply emits_ret |].
  apply emits_bind; [apply emits_update | intros _].
  apply emits_bind; [apply emits_get | intro st1].
  assert (Hpick : emits isAccountStep
            (items <- stateful (S.createQuickpickItems arraySort getLabel
                                  supportsMultipleAccounts) ;;
             selected <- performOr (QuickPick (localize "pick an account" "Preferences Sync")
                                      (localize "choose account placeholder"
                                         "Select an account") items) None ;;
             ret (match selected with
                  | Some item =>
                      match item_account item with
                      | Some account => Some (S.PickedAccount account)
                      | None => Some (S.PickedProvider (item_authenticationProvider item))
                      end
                  | None => None
                  end))).
  { apply emits_bind; [apply emits_stateful | intro items].
    apply emits_bind; [apply emits_performOr; reflexivity | intro selected].
    apply emits_ret. }
  destruct (S.authenticationProviders st1) as [|q [|q' qs]]; try exact Hpick.
  destruct (S.all st1); [apply emits_ret | exact Hpick].
Qed.

Lemma emits_pick : emits isAccountStep (S.pick arraySort getLabel supportsMultipleAccounts).
Proof.
  unfold S.pick.
  apply emits_bind; [apply emits_doPick | intros [[account | provider] |]].
  - apply emits_bind; [apply emits_switch | intros _; apply emits_ret].
  - apply emits_bind; [apply emits_perform; reflexivity | intro session].
    apply emits_bind; [apply emits_switch | intros _; apply emits_ret].
  - apply emits_ret.
Qed.

(** C10. When the pick has completed with an account picked or a login
    done, and the account status is not [Available] in the state it leaves,
    [turnOn] throws the error "No account available", which is not
    [Canceled]; it has called what the pick called and nothing more, and
    none of these calls is a step of the synchronisation. *)
Theorem turnOn_requires_account (st : S.State) (W : Type) (h : handler W) (w : W) :
  let picked := run h (S.pick arraySort getLabel supportsMultipleAccounts st) w in
  let out := run h (S.turnOn arraySort getLabel supportsMultipleAccounts st) w in
  fst (result_of picked) = Ok true ->
  S.accountStatus (snd (result_of picked)) <> AccountStatus.Available ->
  out = ((Throw (Error "No account available"), snd (result_of picked)),
         world_of picked, trace_of picked)
  /\ existsb isSyncStep (calls (trace_of out)) = false.
Proof.
  intros picked out Hpicked Hstatus.
  assert (Hout : out = ((Throw (Error "No account available"), snd (result_of picked)),
                        world_of picked, trace_of picked)).
  { unfold out, S.turnOn. rewrite run_bind. fold picked. cbv zeta.
    rewrite Hpicked. cbn [negb]. rewrite run_bind.
    cbn [get run result_of world_of trace_of fst snd app].
    destruct (AccountStatus.eqb (S.accountStatus (snd (fst (fst picked))))
                AccountStatus.Available) eqn:E.
    - apply AccountStatus_eqb_eq in E. contradiction.
    - cbn. rewrite app_nil_r. reflexivity. }
  split; [exact Hout |].
  rewrite Hout. change (existsb isSyncStep (calls (trace_of picked)) = false).
  pose proof (emits_pick st h w) as Hemits. fold picked in Hemits.
  destruct (existsb isSyncStep (calls (trace_of picked))) eqn:E; [| reflexivity].
  apply existsb_exists in E. destruct E as (c & Hin & Hsync).
  rewrite forallb_forall in Hemits.
  rewrite (accountStep_not_syncStep c (Hemits c Hin)) in Hsync. discriminate.
Qed.
End Pick.

Lemma turnOn_requires_account_witness :
  let vanishing := withSessions [] (sessionOf "s1" (Ok "token")) in
  let picked := run vanishing (S.pick keepOrder labelIsId singleAccount freshWindow) tt in
  let out := run vanishing (S.turnOn keepOrder labelIsId singleAccount freshWindow) tt in
  fst (result_of picked) = Ok true
  /\ S.accountStatus (snd (result_of picked)) <> AccountStatus.Available
  /\ out = ((Throw (Error "No account available"), snd (result_of picked)),
            world_of picked, trace_of picked)
  /\ existsb isSyncStep (calls (trace_of out)) = false.
Proof.
  cbv zeta.
  assert (Hpicked : fst (result_of (run (withSessions [] (sessionOf "s1" (Ok "token")))
                                     (S.pick keepOrder labelIsId singleAccount freshWindow) tt))
                    = Ok true) by reflexivity.
  assert (Hstatus : S.accountStatus
                      (snd (result_of (run (withSessions [] (sessionOf "s1" (Ok "token")))
                                         (S.pick keepOrder labelIsId singleAccount freshWindow)
                                         tt)))
                    <> AccountStatus.Available) by (vm_compute; discriminate).
  split; [exact Hpicked |]. split; [exact Hstatus |].
  exact (turnOn_requires_account keepOrder labelIsId singleAccount freshWindow
           (withSessions [] (sessionOf "s1" (Ok "token"))) tt Hpicked Hstatus).
Defined.

(** With the account available, [turnOn] goes on to the synchronisation: it
    resets the local state, previews, merges, and turns auto sync on. *)
Example turnOn_with_account_synchronises :
  let s1 := sessionOf "s1" (Ok "token") in
  let out := run (withSessions [s1] s1) (S.turnOn keepOrder labelIsId singleAccount windowOnS1)
               tt in
  fst (result_of out) = Ok tt
  /\ filter isSyncStep (calls (trace_of out))
     = [ResetLocal; CreateManualSyncTask;
        WithProgress "Preferences Sync [(details)](command:SHOW_SYNC_LOG_COMMAND_ID)" 500;
        ProgressReport "Turning on..."; TaskPreview 0; TaskManifestIsNull 0; HasLocalData;
        TaskOnSynchronizeResources 0; TaskMerge 0 None; DisposeListener 0; TaskDispose 0;
        AutoSyncTurnOn;
        NotificationInfo
          "Preferences Sync [(details)](command:SHOW_SYNC_LOG_COMMAND_ID) is turned on"].
Proof. cbv zeta. split; reflexivity. Qed.

(** *** The enablement sequence on examples *)

(** On "Replace Local" the task pulls, and the manual sync view is not
    opened. *)
Example turnOn_replace_local_pulls :
  let out := run (firstSync 2) (S.turnOn keepOrder labelIsId singleAccount windowOnS1) tt in
  fst (result_of out) = Ok tt
  /\ filter (fun c => match c with
                      | TaskMerge _ _ | TaskPull _ | TaskPush _ | OpenView _ | AwaitEmpty _ => true
                      | _ => false
                      end) (calls (trace_of out))
     = [TaskPull 0]
  /\ telemetry (trace_of out)
     = [PublicLog2 "sync.userAccount" [("id", "1")];
        PublicLog2 "sync/firstTimeSync" [("action", "pull")]].
Proof. cbv zeta. repeat split. Qed.

(** On "Cancel" the sequence is unwound with [Canceled]: the task is stopped
    and disposed, and auto sync is not turned on. *)
Example turnOn_cancel_unwinds :
  let out := run (firstSync 3) (S.turnOn keepOrder labelIsId singleAccount windowOnS1) tt in
  fst (result_of out) = Throw Canceled
  /\ filter (fun c => match c with
                      | TaskStop _ | TaskDispose _ | AutoSyncTurnOn
                      | TaskMerge _ _ | TaskPull _ | TaskPush _ => true
                      | _ => false
                      end) (calls (trace_of out))
     = [TaskStop 0; TaskDispose 0].
Proof. cbv zeta. repeat split. Qed.

(** Sessions of one account name share a slot: the current session keeps it,
    and otherwise the last one does. *)
Example sessions_sharing_a_name :
  let s1 := sessionOf "s1" (Ok "t1") in
  let s2 := sessionOf "s2" (Ok "t2") in
  map sessionId (S.all (snd (result_of (run (withSessions [s1; s2] s1)
                                          (S.update windowOnS1) tt)))) = ["s1"]
  /\ map sessionId (S.all (snd (result_of (run (withSessions [s1; s2] s1)
                                             (S.update freshWindow) tt)))) = ["s2"].
Proof. cbv zeta. split; reflexivity. Qed.

(** * Further properties *)

(** ** The preview beyond the claims *)

Lemma run_tryCatch {St A W} (h : handler W) (body : M St A) (handle : error -> M St A)
    (s : St) (w : W) :
  run h (tryCatch body handle s) w =
  let r := run h (body s) w in
  match fst (result_of r) with
  | Ok a => ((Ok a, snd (result_of r)), world_of r, trace_of r)
  | Throw e =>
      let r' := run h (handle e (snd (result_of r))) (world_of r) in
      (result_of r', world_of r', trace_of r ++ trace_of r')
  end.
Proof.
  unfold tryCatch. rewrite run_pbind. unfold result_of, world_of, trace_of.
  destruct (run h (body s) w) as [[[[a | e] s1] w1] t1]; simpl.
  - rewrite app_nil_r. reflexivity.
  - reflexivity.
Qed.

Lemma fired_app (t1 t2 : trace) : fired (t1 ++ t2) = fired t1 ++ fired t2.
Proof. unfold fired. rewrite calls_app. apply flat_map_app. Qed.

Lemma run_fireAll_fired {St W} (h : handler W) (l : list notification) (s : St) (w : W) :
  fired (trace_of (run h (fireAll l s) w)) = l.
Proof.
  revert w. induction l as [|n l IH]; intro w; [reflexivity |].
  simpl fireAll. rewrite run_bind. unfold fire. rewrite run_signal. simpl.
  change (n :: fired (trace_of (run h (fireAll l s) (snd (h (Fire n) w)))) = n :: l).
  rewrite IH. reflexivity.
Qed.

Lemma run_modify_fired {St W} (h : handler W) (f : St -> St * list notification)
    (s : St) (w : W) :
  fired (trace_of (run h (modify f s) w)) = snd (f s).
Proof. unfold modify. apply run_fireAll_fired. Qed.

Lemma updatePreview_empty (st : PreviewState) (m : ManualSync.t) :
  manualSync st = Some m ->
  let st' := fst (P.updatePreview [] st) in
  manualSync st' = Some {| ManualSync.preview := []; ManualSync.task := ManualSync.task m |}
  /\ P.changes st' = []
  /\ P.conflicts st' = P.conflicts st
  /\ snd (P.updatePreview [] st)
     = match P.changes st with [] => [] | _ :: _ => [DidChangeChanges []] end.
Proof.
  intro Hm. unfold P.updatePreview. rewrite Hm. unfold P.updateChanges, P.changes, P.conflicts.
  simpl. destruct (_changes st) as [|c l]; simpl; repeat split.
Qed.

(** X1. With a manual session, a [pull] or a [push] that the task completes
    resolves everything: the stored preview is emptied, the task is kept,
    [changes] is empty, [conflicts] is as before, and [onDidChangeChanges]
    fires, with the empty list, exactly when there were changes. *)
Theorem pull_and_push_empty_the_changes
    (st : PreviewState) (m : ManualSync.t) (W : Type) (h : handler W) (w : W) :
  manualSync st = Some m ->
  let resolved (out : (outcome unit * PreviewState) * W * trace) :=
    fst (result_of out) = Ok tt
    /\ manualSync (snd (result_of out))
       = Some {| ManualSync.preview := []; ManualSync.task := ManualSync.task m |}
    /\ P.changes (snd (result_of out)) = []
    /\ P.conflicts (snd (result_of out)) = P.conflicts st
    /\ fired (trace_of out)
       = match P.changes st with [] => [] | _ :: _ => [DidChangeChanges []] end in
  (fst (h (TaskPull (ManualSync.task m)) w) = Ok tt -> resolved (run h (P.pull st) w))
  /\ (fst (h (TaskPush (ManualSync.task m)) w) = Ok tt -> resolved (run h (P.push st) w)).
Proof.
  intros Hm resolved. destruct (updatePreview_empty st Hm) as (H1 & H2 & H3 & H4).
  cbv zeta in *.
  split; intro Hok; unfold resolved, P.pull, P.push;
    rewrite run_bind; cbn [get run result_of world_of trace_of fst snd app];
    rewrite Hm, run_bind, run_perform; cbn [result_of world_of trace_of fst snd];
    rewrite Hok;
    match goal with
    | |- context [run h (modify ?f st) ?w'] =>
        pose proof (run_modify h f st w') as Hr;
        pose proof (run_modify_fired h f st w') as Hf;
        destruct (run h (modify f st) w') as [[[r s1] w1] t1]
    end;
    cbn [result_of world_of trace_of fst snd] in *; injection Hr as -> ->;
    rewrite fired_app, Hf, H4; repeat split; assumption.
Qed.

Lemma pull_and_push_empty_the_changes_witness :
  let m := {| ManualSync.preview := P.manualPreview manualState; ManualSync.task := 0 |} in
  let out := run (pressing 0) (P.pull manualState) tt in
  manualSync manualState = Some m
  /\ fst (pressing 0 (TaskPull (ManualSync.task m)) tt) = Ok tt
  /\ (fst (result_of out) = Ok tt
      /\ manualSync (snd (result_of out))
         = Some {| ManualSync.preview := []; ManualSync.task := ManualSync.task m |}
      /\ P.changes (snd (result_of out)) = []
      /\ P.conflicts (snd (result_of out)) = P.conflicts manualState
      /\ fired (trace_of out)
         = match P.changes manualState with [] => [] | _ :: _ => [DidChangeChanges []] end).
Proof.
  cbv zeta. split; [reflexivity |]. split; [reflexivity |].
  exact (proj1 (pull_and_push_empty_the_changes manualState (pressing 0) tt
                  (m := {| ManualSync.preview := P.manualPreview manualState;
                           ManualSync.task := 0 |}) eq_refl) eq_refl).
Defined.

(** X2. When the call an entry point delegates to throws, the entry point
    throws the same error after that one call: nothing is fired and the state
    is the one before. *)
Theorem failed_delegate_changes_nothing
    (o : operation) (st : PreviewState) (c : call) (e : error)
    (W : Type) (h : handler W) (w : W) :
  delegateCall o st = Some c ->
  fst (h c w) = Throw e ->
  let out := run h (invoke o st) w in
  result_of out = (Throw e, st)
  /\ calls (trace_of out) = [c]
  /\ fired (trace_of out) = [].
Proof.
  intros Hc He.
  destruct o as [syncResource resource content | resource | |];
    unfold delegateCall in Hc; unfold invoke, P.accept, P.merge, P.pull, P.push;
    rewrite run_bind; cbn [get run result_of world_of trace_of fst snd app];
    destruct (manualSync st) as [m|]; try discriminate;
    injection Hc as <-; rewrite ?run_bind, ?run_perform;
    cbn [run perform result_of world_of trace_of fst snd] in *; rewrite He;
    repeat split.
Qed.

Lemma failed_delegate_changes_nothing_witness :
  let out := run (failingPull (Error "offline")) (invoke Pull manualState) tt in
  delegateCall Pull manualState = Some (TaskPull 0)
  /\ fst (failingPull (Error "offline") (TaskPull 0) tt) = Throw (Error "offline")
  /\ result_of out = (Throw (Error "offline"), manualState)
  /\ calls (trace_of out) = [TaskPull 0]
  /\ fired (trace_of out) = [].
Proof.
  cbv zeta. split; [reflexivity |]. split; [reflexivity |].
  exact (failed_delegate_changes_nothing Pull manualState (failingPull (Error "offline")) tt
           (c := TaskPull 0) (e := Error "offline") eq_refl eq_refl).
Defined.

Lemma updateConflicts_fields feed (st : PreviewState) :
  manualSync (fst (P.updateConflicts feed st)) = manualSync st
  /\ locals (_conflicts (fst (P.updateConflicts feed st)))
     = locals (P.toUserDataSyncResourceGroups feed)
  /\ (_conflicts (fst (P.updateConflicts feed st)) = _conflicts st
      \/ _conflicts (fst (P.updateConflicts feed st)) = P.toUserDataSyncResourceGroups feed).
Proof.
  destruct (updateConflicts_cases feed st) as [[e Hu] | [n Hu]]; rewrite Hu.
  - destruct (updateChanges_locals st) as (_ & _ & Hc & Hm). rewrite Hc, Hm.
    repeat split; [symmetry; exact e | left; reflexivity].
  - cbn [fst].
    match goal with
    | |- context [P.updateChanges ?s] =>
        destruct (updateChanges_locals s) as (_ & _ & Hc & Hm); rewrite Hc, Hm
    end.
    repeat split. right. reflexivity.
Qed.

(** X3. Nothing but [setManualSyncPreview] touches the manual session: once
    a session is active, the conflicts feed leaves it as it is, and every entry
    point leaves it active on the same task, whatever it is answered. *)
Theorem manual_session_is_never_ended (st : PreviewState) (m : ManualSync.t) :
  manualSync st = Some m ->
  (forall feed, manualSync (fst (P.updateConflicts feed st)) = Some m)
  /\ (forall o (W : Type) (h : handler W) (w : W),
        exists preview,
          manualSync (snd (result_of (run h (invoke o st) w)))
          = Some {| ManualSync.preview := preview; ManualSync.task := ManualSync.task m |}).
Proof.
  intro Hm. split.
  - intro feed. rewrite (proj1 (updateConflicts_fields feed st)). exact Hm.
  - intros o W h w.
    destruct (invoke_state o h w st) as [E | (m' & preview & Hm' & E)]; rewrite E.
    + exists (ManualSync.preview m). rewrite Hm. destruct m; reflexivity.
    + exists preview.
      match goal with
      | |- context [P.updateChanges ?s] =>
          destruct (updateChanges_locals s) as (_ & _ & _ & Hs); rewrite Hs
      end.
      rewrite Hm in Hm'. injection Hm' as <-. reflexivity.
Qed.

Lemma manual_session_is_never_ended_witness :
  let m := {| ManualSync.preview := P.manualPreview manualState; ManualSync.task := 0 |} in
  manualSync manualState = Some m
  /\ (forall feed, manualSync (fst (P.updateConflicts feed manualState)) = Some m)
  /\ (forall o (W : Type) (h : handler W) (w : W),
        exists preview,
          manualSync (snd (result_of (run h (invoke o manualState) w)))
          = Some {| ManualSync.preview := preview; ManualSync.task := ManualSync.task m |}).
Proof.
  cbv zeta. split; [reflexivity |].
  exact (manual_session_is_never_ended manualState
           (m := {| ManualSync.preview := P.manualPreview manualState;
                    ManualSync.task := 0 |}) eq_refl).
Defined.

(** X4. In every state the preview reaches without a manual session, there
    is no change, a decoration can only come from a conflict, and neither the
    conflicts feed nor an entry point starts a session. *)
Theorem no_session_no_changes (st : PreviewState) :
  reachable st ->
  manualSync st = None ->
  P.changes st = []
  /\ (forall resource,
        P.provideDecorations resource st <> None ->
        exists c, In c (P.conflicts st) /\ Group.remote c = resource)
  /\ (forall feed, manualSync (fst (P.updateConflicts feed st)) = None)
  /\ (forall o (W : Type) (h : handler W) (w : W),
        manualSync (snd (result_of (run h (invoke o st) w))) = None).
Proof.
  intros Hreach Hnone.
  assert (Hch : P.changes st = []).
  { destruct (reachable_upToDate Hreach) as [_ Hl].
    unfold P.newChanges, P.manualPreview in Hl. rewrite Hnone in Hl. simpl in Hl.
    unfold P.changes. destruct (_changes st); [reflexivity | discriminate]. }
  split; [exact Hch |]. split; [| split].
  - intros resource Hdec. unfold P.provideDecorations in Hdec. rewrite Hch in Hdec.
    simpl in Hdec.
    destruct (find (fun c => isEqual (Group.remote c) resource) (P.conflicts st)) as [c|] eqn:E;
      [| contradiction].
    apply find_some in E. destruct E as [Hin Heq].
    exists c. split; [exact Hin |]. unfold isEqual in Heq. apply String.eqb_eq. exact Heq.
  - intro feed. rewrite (proj1 (updateConflicts_fields feed st)). exact Hnone.
  - intros o W h w.
    destruct (invoke_state o h w st) as [E | (m & preview & Hm & _)].
    + rewrite E. exact Hnone.
    + rewrite Hnone in Hm. discriminate.
Qed.

Lemma no_session_no_changes_witness :
  let st := fst (P.newUserDataSyncPreview
                   [(SyncResource.Settings,
                     [resourcePreview "a" Change.Modified Change.Modified false])]) in
  reachable st
  /\ manualSync st = None
  /\ P.changes st = []
  /\ (forall resource,
        P.provideDecorations resource st <> None ->
        exists c, In c (P.conflicts st) /\ Group.remote c = resource)
  /\ (forall feed, manualSync (fst (P.updateConflicts feed st)) = None)
  /\ (forall o (W : Type) (h : handler W) (w : W),
        manualSync (snd (result_of (run h (invoke o st) w))) = None).
Proof.
  cbv zeta. split; [apply reachable_new |]. split; [reflexivity |].
  exact (no_session_no_changes
           (reachable_new [(SyncResource.Settings,
                            [resourcePreview "a" Change.Modified Change.Modified false])])
           eq_refl).
Defined.

Lemma locals_toUserDataSyncResourceGroups (feed : list (SyncResource.t * list IResourcePreview)) :
  locals (P.toUserDataSyncResourceGroups feed)
  = flat_map (fun p => map localResource (snd p)) feed.
Proof.
  unfold locals, P.toUserDataSyncResourceGroups, flatten.
  induction feed as [|p feed IH]; [reflexivity |].
  simpl. rewrite map_app, IH, map_map. reflexivity.
Qed.

(** X5. After the conflicts feed has been read, [conflicts] holds the local
    resources of the feed, kind after kind and in the order of the feed, with
    no entry dropped or merged; the entries themselves are those of the feed,
    or those stored before when they had the same local resources. *)
Theorem conflicts_follow_the_feed
    (feed : list (SyncResource.t * list IResourcePreview)) (st : PreviewState) :
  let st' := fst (P.updateConflicts feed st) in
  locals (P.conflicts st') = flat_map (fun p => map localResource (snd p)) feed
  /\ (P.conflicts st' = P.toUserDataSyncResourceGroups feed
      \/ P.conflicts st' = P.conflicts st
         /\ locals (P.conflicts st) = flat_map (fun p => map localResource (snd p)) feed).
Proof.
  cbv zeta. destruct (updateConflicts_fields feed st) as (_ & Hl & Hc).
  unfold P.conflicts. rewrite <- locals_toUserDataSyncResourceGroups. split; [exact Hl |].
  destruct Hc as [Hc | Hc]; [right | left; exact Hc].
  split; [exact Hc |]. rewrite <- Hc. exact Hl.
Qed.

(** ** The service beyond the claims *)

(** *** The session id and its cache *)

Lemma cache_eqb_eq (cache : option (option string)) (id : option string) :
  option_eqb (option_eqb String.eqb) cache (Some id) = true -> cache = Some id.
Proof.
  destruct cache as [cached|]; simpl; [| discriminate].
  intro H. apply option_eqb_string in H. rewrite H. reflexivity.
Qed.

Lemma option_eqb_refl (a : option string) : option_eqb String.eqb a a = true.
Proof. destruct a; simpl; [apply String.eqb_refl | reflexivity]. Qed.

(** X6. Setting the current session id and then reading it gives the id back,
    with nothing more to load.  When the cache agreed with the storage, the
    storage holds the id afterwards (the key is removed for [undefined]).
    No other key of the storage is touched, and setting the id that is
    already cached changes nothing. *)
Theorem session_id_round_trip (id : option string) (st : S.State) :
  let st' := S.set_currentSessionId id st in
  S.currentSessionId st' = (id, st')
  /\ (coherent st -> S.getStoredCachedSessionId st' = id /\ coherent st')
  /\ (forall key, String.eqb S.CACHED_SESSION_STORAGE_KEY key = false ->
                  storage_get key (S.storage st') = storage_get key (S.storage st))
  /\ (S._cachedCurrentSessionId st = Some id -> st' = st).
Proof.
  cbv zeta. unfold S.set_currentSessionId.
  destruct (option_eqb (option_eqb String.eqb) (S._cachedCurrentSessionId st) (Some id)) eqn:E;
    cbn [negb].
  - apply cache_eqb_eq in E. repeat split.
    + unfold S.currentSessionId. rewrite E. reflexivity.
    + unfold coherent in H. rewrite E in H. symmetry. exact H.
    + exact H.
  - repeat split.
    + destruct id; reflexivity.
    + unfold S.getStoredCachedSessionId. destruct id as [id|]; simpl.
      * exact (storage_get_store _ _ _).
      * exact (storage_get_remove _ _).
    + apply set_currentSessionId_coherent with (id := id) in H.
      unfold S.set_currentSessionId in H. rewrite E in H. exact H.
    + destruct id as [id|];
        cbn [S.storage S.with_storage S.with_cachedCurrentSessionId]; intros key H.
      * rewrite storage_get_store_other by exact H. reflexivity.
      * rewrite storage_get_remove_other by exact H. reflexivity.
    + intro Hc. rewrite Hc in E. simpl in E. rewrite option_eqb_refl in E. discriminate.
Qed.

Lemma session_id_round_trip_witness :
  let st' := S.set_currentSessionId (Some "s2"%string) windowOnS1 in
  coherent windowOnS1
  /\ S.currentSessionId st' = (Some "s2"%string, st')
  /\ S.getStoredCachedSessionId st' = Some "s2"%string
  /\ coherent st'.
Proof.
  cbv zeta. split; [exact I |].
  destruct (session_id_round_trip (Some "s2"%string) windowOnS1) as (Hread & Hstored & _).
  split; [exact Hread |]. exact (Hstored I).
Defined.

(** *** What a refresh leaves alone *)

Lemma sessionView_filled (st : S.State) : sessionView (filled st) = sessionView st.
Proof.
  unfold sessionView. rewrite effective_filled.
  destruct (cacheFilled_fields (or_intror eq_refl : cacheFilled st (filled st)))
    as (-> & _ & _ & -> & _).
  unfold filled, S.currentSessionId. destruct (S._cachedCurrentSessionId st); reflexivity.
Qed.

Lemma sessionView_cacheFilled (st st' : S.State) :
  cacheFilled st st' -> sessionView st' = sessionView st.
Proof. intros [-> | ->]; [reflexivity | apply sessionView_filled]. Qed.

Lemma sessionView_with_all (x : list (string * list UserDataSyncAccount)) (st : S.State) :
  sessionView (S.with_all x st) = sessionView st.
Proof. unfold sessionView. rewrite effective_with_all. reflexivity. Qed.

Lemma sessionView_with_accountStatus (x : AccountStatus.t) (st : S.State) :
  sessionView (S.with_accountStatus x st) = sessionView st.
Proof. unfold sessionView. rewrite effective_with_accountStatus. reflexivity. Qed.

Lemma preserves_sessionView_update (v : Storage * option string
                                        * list IAuthenticationProvider * option string) :
  preserves (fun s => sessionView s = v) S.update.
Proof.
  assert (Hget : forall id, preserves (fun s => sessionView s = v) (S.getAccounts id)).
  { intro id. unfold S.getAccounts. preserving.
    apply preserves_stateful. intros s <-.
    apply sessionView_cacheFilled, collectAccounts_filled. }
  assert (Hfetch : forall providers acc,
             preserves (fun s => sessionView s = v) (S.fetchAccounts providers acc)).
  { induction providers as [|p providers IH]; intro acc; simpl.
    - apply preserves_ret.
    - apply preserves_bind; [apply Hget | intro accounts; apply IH]. }
  unfold S.update, S.updateToken, S.updateAccountStatus. preserving.
  all: first [ apply Hfetch
             | apply preserves_stateful; intros s <-;
               apply sessionView_cacheFilled, current_run
             | apply preserves_assign; intros s <-;
               first [apply sessionView_with_all | apply sessionView_with_accountStatus] ].
Qed.

(** A refresh leaves the storage, the session id, the providers and the host
    session id as they are, whether it completes or not. *)
Lemma update_sessionView (st : S.State) (W : Type) (h : handler W) (w : W) :
  sessionView (snd (result_of (run h (S.update st) w))) = sessionView st.
Proof. apply (preserves_sessionView_update (v := sessionView st)). reflexivity. Qed.

(** After a completed refresh the status is the one of the current account. *)
Lemma update_completed (st : S.State) (W : Type) (h : handler W) (w : W) :
  let out := run h (S.update st) w in
  fst (result_of out) = Ok tt ->
  S._accountStatus (snd (result_of out)) = statusFor (fst (S.current (snd (result_of out)))).
Proof.
  intros out Hdone. destruct (update_run h st w) as [_ Hrest].
  cbv zeta in *. fold out in Hrest.
  destruct (fst (result_of (run h (S.fetchAccounts (S.authenticationProviders st) [] st) w)))
    as [allAccounts | e].
  - destruct Hrest as (Hfill & _ & _ & Hstate).
    destruct (Hstate Hdone) as [Hst' _].
    pose proof (refreshed_facts allAccounts Hfill) as Hfacts.
    cbv zeta in Hfacts. rewrite <- Hst' in Hfacts.
    destruct Hfacts as (Hc & Hstatus & _). rewrite Hstatus, Hc. reflexivity.
  - destruct Hrest as [Hthrow _]. rewrite Hdone in Hthrow. discriminate.
Qed.

(** *** Bootstrap *)

Lemma sessionView_storage (st st' : S.State) :
  sessionView st' = sessionView st ->
  S.storage st' = S.storage st /\ effectiveSessionId st' = effectiveSessionId st.
Proof. unfold sessionView. intro H. injection H as H1 H2 _ _. split; assumption. Qed.

Lemma initialize_state (st : S.State) (W : Type) (h : handler W) (w : W) :
  let st' := snd (result_of (run h (S.initialize st) w)) in
  match effectiveSessionId st, S.useWorkbenchSessionId st, S.authenticationSessionId st with
  | None, true, Some hostId =>
      if String.eqb hostId ""
      then S.storage st' = S.storage st /\ effectiveSessionId st' = None
      else S.getStoredCachedSessionId st' = Some hostId
           /\ effectiveSessionId st' = Some hostId
           /\ S.useWorkbenchSessionId st' = false
  | _, _, _ =>
      S.storage st' = S.storage st /\ effectiveSessionId st' = effectiveSessionId st
  end.
Proof.
  cbv zeta. unfold S.initialize.
  rewrite run_bind. cbn [get run result_of world_of trace_of fst snd app].
  rewrite run_bind. cbn [stateful run result_of world_of trace_of fst snd app].
  fold (effectiveSessionId st). fold (filled st). rewrite run_bind.
  assert (Hkeep : forall s, sessionView s = sessionView st ->
            S.storage (snd (result_of (run h (S.update s) w))) = S.storage st
            /\ effectiveSessionId (snd (result_of (run h (S.update s) w)))
               = effectiveSessionId st).
  { intros s Hs. apply sessionView_storage. rewrite update_sessionView. exact Hs. }
  destruct (effectiveSessionId st) as [id|] eqn:Heff.
  - cbn [ret run result_of world_of trace_of fst snd app].
    apply Hkeep, sessionView_filled.
  - destruct (S.useWorkbenchSessionId st) eqn:Huse.
    + destruct (S.authenticationSessionId st) as [hostId|] eqn:Hhost.
      * destruct (String.eqb hostId "") eqn:Hempty; cbn [negb].
        -- cbn [ret run result_of world_of trace_of fst snd app].
           apply Hkeep, sessionView_filled.
        -- rewrite run_bind. cbn [assign run result_of world_of trace_of fst snd app].
           set (s2 := S.set_useWorkbenchSessionId false
                        (S.set_currentSessionId (Some hostId) (filled st))).
           assert (Hs2 : S.getStoredCachedSessionId s2 = Some hostId
                         /\ effectiveSessionId s2 = Some hostId
                         /\ S.useWorkbenchSessionId s2 = false).
           { assert (Hc : S._cachedCurrentSessionId (filled st) = Some None).
             { unfold filled, S.currentSessionId.
               unfold effectiveSessionId, S.currentSessionId in Heff.
               destruct (S._cachedCurrentSessionId st) as [c|] eqn:Hcache; simpl in *.
               - rewrite Hcache, Heff. reflexivity.
               - rewrite Heff. reflexivity. }
             unfold s2, S.set_currentSessionId. rewrite Hc. cbn [option_eqb negb].
             unfold S.getStoredCachedSessionId, S.useWorkbenchSessionId,
               S.set_useWorkbenchSessionId, storage_getBoolean, effectiveSessionId,
               S.currentSessionId.
             cbn [S.storage S.with_storage S.with_cachedCurrentSessionId
                    S._cachedCurrentSessionId negb fst].
             rewrite storage_get_store_other by reflexivity.
             rewrite !storage_get_store. repeat split. }
           destruct Hs2 as (H1 & H2 & H3).
           pose proof (update_sessionView s2 h w) as Hview.
           apply sessionView_storage in Hview. destruct Hview as [Hst Heff'].
           unfold result_of in Hst, Heff'.
           unfold S.getStoredCachedSessionId, S.useWorkbenchSessionId in *.
           rewrite Hst, Heff'. repeat split; assumption.
      * cbn [ret run result_of world_of trace_of fst snd app].
        apply Hkeep, sessionView_filled.
    + cbn [ret run result_of world_of trace_of fst snd app].
      apply Hkeep, sessionView_filled.
Qed.

Lemma useWorkbenchSessionId_storage (st st' : S.State) :
  S.storage st' = S.storage st -> S.useWorkbenchSessionId st' = S.useWorkbenchSessionId st.
Proof. unfold S.useWorkbenchSessionId. intros ->. reflexivity. Qed.

(** X7.  [initialize] on a window that has no session id, may still use the
    session of its host and is given one: it stores that id, works with it and
    clears the permission by storing the flag.  From then on [initialize] of
    any window on the same storage writes nothing and keeps the session id
    that window works with, whatever its host offers. *)
Theorem host_session_adopted_once (st : S.State) (hostId : string)
    (W : Type) (h : handler W) (w : W) :
  effectiveSessionId st = None ->
  S.useWorkbenchSessionId st = true ->
  S.authenticationSessionId st = Some hostId ->
  hostId <> ""%string ->
  let st1 := snd (result_of (run h (S.initialize st) w)) in
  S.getStoredCachedSessionId st1 = Some hostId
  /\ effectiveSessionId st1 = Some hostId
  /\ S.useWorkbenchSessionId st1 = false
  /\ forall (st2 : S.State) (W2 : Type) (h2 : handler W2) (w2 : W2),
       S.storage st2 = S.storage st1 ->
       let st3 := snd (result_of (run h2 (S.initialize st2) w2)) in
       S.storage st3 = S.storage st2 /\ effectiveSessionId st3 = effectiveSessionId st2.
Proof.
  intros Heff Huse Hhost Hne st1.
  pose proof (initialize_state st h w) as H. cbv zeta in H. fold st1 in H.
  rewrite Heff, Huse, Hhost in H.
  destruct (String.eqb hostId "") eqn:E; [apply String.eqb_eq in E; contradiction |].
  destruct H as (H1 & H2 & H3).
  split; [exact H1 |]. split; [exact H2 |]. split; [exact H3 |].
  intros st2 W2 h2 w2 Hsame st3.
  pose proof (initialize_state st2 h2 w2) as H'. cbv zeta in H'. fold st3 in H'.
  rewrite (useWorkbenchSessionId_storage st1 st2 Hsame), H3 in H'.
  destruct (effectiveSessionId st2); exact H'.
Qed.

Lemma host_session_adopted_once_witness :
  let st1 := snd (result_of (run (withSessions [sessionOf "s1" (Ok "token")] (sessionOf "s1" (Ok "token")))
                                 (S.initialize hostedWindow) tt)) in
  S.getStoredCachedSessionId st1 = Some "s1"%string
  /\ effectiveSessionId st1 = Some "s1"%string
  /\ S.useWorkbenchSessionId st1 = false
  /\ forall (st2 : S.State) (W2 : Type) (h2 : handler W2) (w2 : W2),
       S.storage st2 = S.storage st1 ->
       let st3 := snd (result_of (run h2 (S.initialize st2) w2)) in
       S.storage st3 = S.storage st2 /\ effectiveSessionId st3 = effectiveSessionId st2.
Proof.
  apply (host_session_adopted_once hostedWindow (hostId := "s1")
           (withSessions [sessionOf "s1" (Ok "token")] (sessionOf "s1" (Ok "token"))) tt).
  - reflexivity.
  - reflexivity.
  - reflexivity.
  - discriminate.
Defined.

(** X8.  In every other case (a session id is already at hand, the permission
    is cleared, or the host offers no session id or an empty one) [initialize]
    writes nothing to the storage and keeps the session id, whatever the
    refresh it ends with is answered. *)
Theorem initialize_otherwise_keeps_the_session (st : S.State)
    (W : Type) (h : handler W) (w : W) :
  effectiveSessionId st <> None
  \/ S.useWorkbenchSessionId st = false
  \/ S.authenticationSessionId st = None
  \/ S.authenticationSessionId st = Some ""%string ->
  let st1 := snd (result_of (run h (S.initialize st) w)) in
  S.storage st1 = S.storage st /\ effectiveSessionId st1 = effectiveSessionId st.
Proof.
  intros Hcase st1.
  pose proof (initialize_state st h w) as H. cbv zeta in H. fold st1 in H.
  destruct (effectiveSessionId st) as [id|]; [exact H |].
  destruct (S.useWorkbenchSessionId st); [| exact H].
  destruct (S.authenticationSessionId st) as [hostId|]; [| exact H].
  destruct (String.eqb hostId "") eqn:E; [exact H |].
  destruct Hcase as [Hc | [Hc | [Hc | Hc]]]; try discriminate; try contradiction.
  injection Hc as ->. discriminate.
Qed.

Lemma initialize_otherwise_keeps_the_session_witness :
  let st1 := snd (result_of (run (withSessions [sessionOf "s1" (Ok "token")] (sessionOf "s1" (Ok "token")))
                                 (S.initialize windowOnS1) tt)) in
  S.storage st1 = S.storage windowOnS1
  /\ effectiveSessionId st1 = effectiveSessionId windowOnS1.
Proof.
  apply (initialize_otherwise_keeps_the_session windowOnS1
           (withSessions [sessionOf "s1" (Ok "token")] (sessionOf "s1" (Ok "token"))) tt).
  left. discriminate.
Defined.

(** *** The calls of a refresh *)

Ltac emitting :=
  repeat match goal with
         | |- emits _ (ret _) => apply emits_ret
         | |- emits _ (throw _) => apply emits_throw
         | |- emits _ get => apply emits_get
         | |- emits _ (assign _) => apply emits_assign
         | |- emits _ (stateful _) => apply emits_stateful
         | |- emits _ (perform _) => apply emits_perform; reflexivity
         | |- emits _ (signal _) => apply emits_signal; reflexivity
         | |- emits _ (fire _) => apply emits_signal; reflexivity
         | |- emits _ (bind _ _) => apply emits_bind; [| intro; cbv beta]
         | |- emits _ (tryCatch _ _) => apply emits_tryCatch; [| intro; cbv beta]
         | |- emits _ (match ?x with _ => _ end) => destruct x
         | |- emits _ (if ?x then _ else _) => destruct x
         end.

Lemma refresh_fetchAccounts (providers : list IAuthenticationProvider)
    (allAccounts : list (string * list UserDataSyncAccount)) :
  emits isRefreshCall (S.fetchAccounts providers allAccounts).
Proof.
  revert allAccounts. induction providers as [|p providers IH]; intro allAccounts; simpl.
  - apply emits_ret.
  - apply emits_bind; [unfold S.getAccounts; emitting | intro accounts; apply IH].
Qed.

Lemma refresh_update : emits isRefreshCall S.update.
Proof.
  unfold S.update.
  apply emits_bind; [apply emits_get | intro st].
  apply emits_bind; [apply refresh_fetchAccounts | intro allAccounts].
  unfold S.updateToken, S.updateAccountStatus. emitting.
Qed.

Lemma refresh_updateDetached : emits isRefreshCall S.updateDetached.
Proof.
  unfold S.updateDetached. apply emits_tryCatch; [apply refresh_update | intro; apply emits_ret].
Qed.

Lemma filter_none {A} (keep allowed : A -> bool) (l : list A) :
  (forall a, allowed a = true -> keep a = false) ->
  forallb allowed l = true -> filter keep l = [].
Proof.
  intros Hno. induction l as [|a l IH]; simpl; [reflexivity |].
  intro H. apply andb_true_iff in H. destruct H as [Ha Hl].
  rewrite (Hno a Ha). exact (IH Hl).
Qed.

Lemma refresh_no_telemetry (c : call) : isRefreshCall c = true -> isTelemetry c = false.
Proof. destruct c; simpl; try discriminate; reflexivity. Qed.

Lemma telemetry_app (t1 t2 : trace) : telemetry (t1 ++ t2) = telemetry t1 ++ telemetry t2.
Proof. unfold telemetry. rewrite calls_app. apply filter_app. Qed.

Lemma set_currentSessionId_effective (id : option string) (st : S.State) :
  effectiveSessionId (S.set_currentSessionId id st) = id.
Proof.
  unfold S.set_currentSessionId.
  destruct (option_eqb _ _ _) eqn:E; cbn [negb].
  - apply cache_eqb_eq in E. unfold effectiveSessionId, S.currentSessionId.
    rewrite E. reflexivity.
  - destruct id; reflexivity.
Qed.

Lemma set_currentSessionId_stored (id : option string) (st : S.State) :
  coherent st -> S.getStoredCachedSessionId (S.set_currentSessionId id st) = id.
Proof.
  intro Hco. pose proof (set_currentSessionId_coherent id st Hco) as Hco'.
  pose proof (set_currentSessionId_effective id st) as Heff.
  unfold effectiveSessionId, S.currentSessionId in Heff. unfold coherent in Hco'.
  destruct (S._cachedCurrentSessionId (S.set_currentSessionId id st)) as [c|].
  - simpl in Heff. rewrite <- Hco'. exact Heff.
  - exact Heff.
Qed.

(** The setter writes the storage unless the value is the cached one. *)
Lemma set_currentSessionId_writes (id : option string) (st : S.State) :
  S._cachedCurrentSessionId st <> Some id ->
  S.getStoredCachedSessionId (S.set_currentSessionId id st) = id.
Proof.
  intro Hne. unfold S.set_currentSessionId.
  destruct (option_eqb _ _ _) eqn:E; cbn [negb].
  - apply cache_eqb_eq in E. contradiction.
  - unfold S.getStoredCachedSessionId. destruct id as [id|];
      cbn [S.storage S.with_storage S.with_cachedCurrentSessionId].
    + apply storage_get_store.
    + apply storage_get_remove.
Qed.

Lemma set_currentSessionId_kept (id : option string) (st : S.State) :
  S._cachedCurrentSessionId st = Some id -> S.set_currentSessionId id st = st.
Proof.
  intro H. unfold S.set_currentSessionId. rewrite H. cbn [option_eqb].
  rewrite option_eqb_refl. reflexivity.
Qed.

Lemma filled_cache (st : S.State) :
  S._cachedCurrentSessionId (filled st) = Some (effectiveSessionId st).
Proof.
  unfold filled, effectiveSessionId, S.currentSessionId.
  destruct (S._cachedCurrentSessionId st) as [c|] eqn:E; cbn [fst snd]; [exact E | reflexivity].
Qed.

Lemma filled_of_cached (st : S.State) (c : option string) :
  S._cachedCurrentSessionId st = Some c -> filled st = st.
Proof. intro H. unfold filled, S.currentSessionId. rewrite H. reflexivity. Qed.

(** Setting the session id after the cache may have been filled: the storage
    holds the id afterwards unless the id was the cached one already. *)
Lemma set_after_read_writes (id : option string) (st st0 : S.State) :
  cacheFilled st st0 ->
  S._cachedCurrentSessionId st <> Some id ->
  S.getStoredCachedSessionId (S.set_currentSessionId id st0) = id.
Proof.
  intros [-> | ->] Hne; [apply set_currentSessionId_writes; exact Hne |].
  destruct (S._cachedCurrentSessionId st) as [c|] eqn:Ec.
  - rewrite (@filled_of_cached st c Ec). apply set_currentSessionId_writes.
    rewrite Ec. exact Hne.
  - destruct (option_eqb String.eqb (effectiveSessionId st) id) eqn:E.
    + apply option_eqb_string in E.
      rewrite set_currentSessionId_kept by (rewrite filled_cache, E; reflexivity).
      rewrite <- E. unfold S.getStoredCachedSessionId.
      rewrite (proj1 (sessionView_storage (sessionView_filled st))).
      unfold effectiveSessionId, S.currentSessionId. rewrite Ec. reflexivity.
    + apply set_currentSessionId_writes. rewrite filled_cache.
      intro H. injection H as H. rewrite H, option_eqb_refl in E. discriminate.
Qed.

(** *** Switching the account *)

Lemma switch_run (sessionId accountName accountId : string) (st : S.State)
    (W : Type) (h : handler W) (w : W) (enabled : bool) :
  fst (h AutoSyncIsEnabled w) = Ok enabled ->
  let st1 := S.set_currentSessionId (Some sessionId) (snd (S.current st)) in
  let w1 := snd (h AutoSyncIsEnabled w) in
  let log := PublicLog2 "sync.userAccount" [("id", accountId)] in
  let up := run h (S.update st1) (snd (h log w1)) in
  run h (S.switch sessionId accountName accountId st) w
  = (result_of up, world_of up,
     Called AutoSyncIsEnabled (Ok enabled) :: Called log (fst (h log w1)) :: trace_of up).
Proof.
  intros Hen st1 w1 log up. unfold S.switch.
  rewrite run_bind. cbn [stateful run result_of world_of trace_of fst snd app].
  rewrite run_bind, run_perform. cbn [result_of world_of trace_of fst snd app].
  rewrite Hen.
  rewrite run_bind. cbn [assign run result_of world_of trace_of fst snd app].
  rewrite run_bind, run_signal. cbn [result_of world_of trace_of fst snd app].
  reflexivity.
Qed.

Lemma statusFor_available (c : option UserDataSyncAccount) :
  statusFor c = AccountStatus.Available <-> c <> None.
Proof. destruct c; simpl; split; intro H; try discriminate; try reflexivity; contradiction. Qed.

Lemma hd_error_filter {A} (keep : A -> bool) (l : list A) :
  hd_error (filter keep l) <> None <-> exists a, In a l /\ keep a = true.
Proof.
  split.
  - destruct (filter keep l) as [|a l'] eqn:E; [intro H; contradiction H; reflexivity |].
    intros _. exists a. apply filter_In. rewrite E. left. reflexivity.
  - intros (a & Hin & Hk) H.
    assert (Hf : In a (filter keep l)) by (apply filter_In; split; assumption).
    destruct (filter keep l); [contradiction | discriminate].
Qed.

(** X9.  [switch], once auto sync has told whether it is enabled: from then on
    the service works with the given session id.  It writes the id to the
    storage unless that id is the cached one already, and then it leaves the
    storage as it is: the storage holds the id afterwards whenever the id was
    not the cached one or the cache agreed with the storage.  The account
    telemetry is logged once, with the given account id and whether the
    refresh that follows completes or not.  When the refresh completes, the
    current account if any has the given session id, and the account is
    available exactly when some account of the refreshed registry has it. *)
Theorem switch_selects_the_session (id accountName accountId : string)
    (st : S.State) (W : Type) (h : handler W) (w : W) (enabled : bool) :
  fst (h AutoSyncIsEnabled w) = Ok enabled ->
  let out := run h (S.switch id accountName accountId st) w in
  let st' := snd (result_of out) in
  effectiveSessionId st' = Some id
  /\ (S._cachedCurrentSessionId st <> Some (Some id) \/ coherent st ->
      S.getStoredCachedSessionId st' = Some id)
  /\ (S._cachedCurrentSessionId st = Some (Some id) -> S.storage st' = S.storage st)
  /\ telemetry (trace_of out) = [PublicLog2 "sync.userAccount" [("id", accountId)]]
  /\ (fst (result_of out) = Ok tt ->
      (forall a, fst (S.current st') = Some a -> sessionId a = id)
      /\ (S._accountStatus st' = AccountStatus.Available
          <-> exists a, In a (S.all st')
                        /\ sessionId a = id)).
Proof.
  intros Hen out st'. unfold st', out. rewrite (switch_run _ accountName accountId st h w Hen).
  cbv zeta. cbn [result_of world_of trace_of fst snd].
  set (st1 := S.set_currentSessionId (Some id) (snd (S.current st))).
  set (w2 := snd (h _ (snd (h AutoSyncIsEnabled w)))).
  pose proof (update_sessionView st1 h w2) as Hview.
  apply sessionView_storage in Hview. destruct Hview as [Hsto Heff].
  unfold result_of in Hsto, Heff.
  assert (Heff' : effectiveSessionId (snd (fst (fst (run h (S.update st1) w2))))
                  = Some id).
  { rewrite Heff. apply set_currentSessionId_effective. }
  split; [exact Heff' |]. split; [| split; [| split]].
  - intros [Hne | Hco]; unfold S.getStoredCachedSessionId in *; rewrite Hsto.
    + apply (@set_after_read_writes (Some id) st); [apply current_run | exact Hne].
    + apply set_currentSessionId_stored, current_coherent, Hco.
  - intro Hcached. rewrite Hsto. unfold st1.
    assert (Hsame : snd (S.current st) = st).
    { destruct (proj2 (current_run st)) as [E | E]; rewrite E;
        [reflexivity | exact (@filled_of_cached st (Some id) Hcached)]. }
    rewrite Hsame, (@set_currentSessionId_kept (Some id) st Hcached). reflexivity.
  - change (telemetry ([Called AutoSyncIsEnabled (Ok enabled);
                        Called (PublicLog2 "sync.userAccount" [("id", accountId)])
                          (fst (h (PublicLog2 "sync.userAccount" [("id", accountId)])
                                  (snd (h AutoSyncIsEnabled w))))]
                       ++ snd (run h (S.update st1) w2))
            = [PublicLog2 "sync.userAccount" [("id", accountId)]]).
    assert (Hquiet : telemetry (snd (run h (S.update st1) w2)) = []).
    { exact (filter_none isTelemetry isRefreshCall _ refresh_no_telemetry
               (refresh_update st1 h w2)). }
    rewrite telemetry_app, Hquiet. reflexivity.
  - intro Hdone. split.
    + intros a Ha. apply current_sessionId in Ha. rewrite Heff' in Ha.
      injection Ha as Ha. symmetry. exact Ha.
    + pose proof (update_completed st1 h w2 Hdone) as Hstatus.
      unfold result_of in Hstatus. rewrite Hstatus, statusFor_available.
      rewrite (proj1 (current_run _)), hd_error_filter, Heff'.
      split; intros (a & Hin & Ha); exists a; (split; [exact Hin |]).
      * simpl in Ha. apply String.eqb_eq in Ha. exact Ha.
      * simpl. apply String.eqb_eq. exact Ha.
Qed.

Lemma switch_selects_the_session_witness :
  let h := withSessions [sessionOf "s2" (Ok "token")] (sessionOf "s2" (Ok "token")) in
  let out := run h (S.switch "s2" "octocat" "1" windowOnS1) tt in
  let st' := snd (result_of out) in
  let stale := snd (result_of (run h (S.switch "s1" "octocat" "1" staleWindow) tt)) in
  fst (result_of out) = Ok tt
  /\ S._cachedCurrentSessionId windowOnS1 <> Some (Some "s2"%string)
  /\ S._cachedCurrentSessionId staleWindow = Some (Some "s1"%string)
  /\ effectiveSessionId st' = Some "s2"%string
  /\ S.getStoredCachedSessionId st' = Some "s2"%string
  /\ telemetry (trace_of out) = [PublicLog2 "sync.userAccount" [("id", "1")]]%string
  /\ (forall a, fst (S.current st') = Some a -> sessionId a = "s2"%string)
  /\ (S._accountStatus st' = AccountStatus.Available
      <-> exists a, In a (S.all st') /\ sessionId a = "s2"%string)
  /\ effectiveSessionId stale = Some "s1"%string
  /\ S.storage stale = S.storage staleWindow.
Proof.
  cbv zeta. split; [reflexivity |].
  assert (Hfresh : S._cachedCurrentSessionId windowOnS1 <> Some (Some "s2"%string))
    by discriminate.
  split; [exact Hfresh |]. split; [reflexivity |].
  destruct (switch_selects_the_session "s2" "octocat" "1" windowOnS1
              (withSessions [sessionOf "s2" (Ok "token")] (sessionOf "s2" (Ok "token"))) tt
              (enabled := false) eq_refl)
    as (Hid & Hstored & _ & Htelemetry & Hdone).
  destruct (switch_selects_the_session "s1" "octocat" "1" staleWindow
              (withSessions [sessionOf "s2" (Ok "token")] (sessionOf "s2" (Ok "token"))) tt
              (enabled := false) eq_refl)
    as (Hid' & _ & Hkept & _).
  split; [exact Hid |]. split; [exact (Hstored (or_introl Hfresh)) |].
  split; [exact Htelemetry |]. split; [exact (proj1 (Hdone eq_refl)) |].
  split; [exact (proj2 (Hdone eq_refl)) |]. split; [exact Hid' | exact (Hkept eq_refl)].
Defined.

(** *** The listeners *)

Lemma updateDetached_run (st : S.State) (W : Type) (h : handler W) (w : W) :
  let out := run h (S.updateDetached st) w in
  let st' := snd (result_of out) in
  fst (result_of out) = Ok tt
  /\ sessionView st' = sessionView st
  /\ forallb isRefreshCall (calls (trace_of out)) = true
  /\ (allAnswered (trace_of out) = true ->
      S._accountStatus st' = statusFor (fst (S.current st'))).
Proof.
  cbv zeta. unfold S.updateDetached. rewrite run_tryCatch. cbv zeta.
  pose proof (update_sessionView st h w) as Hview.
  pose proof (refresh_update st h w) as Hcalls.
  pose proof (update_completed st h w) as Hdone.
  pose proof (proj1 (update_run h st w)) as Hsucc.
  cbv zeta in Hdone, Hsucc.
  destruct (fst (result_of (run h (S.update st) w))) as [[]|e] eqn:E;
    cbn [ret run result_of world_of trace_of fst snd].
  - repeat split; try assumption. intros _. apply Hdone. reflexivity.
  - rewrite app_nil_r. repeat split; try assumption.
    unfold allAnswered. intro H. unfold trace_of in Hsucc. rewrite H in Hsucc. discriminate.
Qed.

Lemma no_current_without_session (st : S.State) :
  effectiveSessionId st = None -> fst (S.current st) = None.
Proof.
  intro H. rewrite (proj1 (current_run st)), H.
  induction (S.all st) as [|a l IH]; simpl; [reflexivity | exact IH].
Qed.

(** X10.  The listener for session changes never fails, whatever the refresh it
    starts is answered, and it makes only the calls of a refresh.  When the
    session id the service works with is among the removed ones, the service
    forgets it: nothing is stored any more, whatever the storage held, and
    when the refresh is answered there is no current account and the status
    is [Unavailable].  When it is not among them, or there is none, the
    storage and the session id stay. *)
Theorem removed_session_is_forgotten (removed : list string) (st : S.State)
    (W : Type) (h : handler W) (w : W) :
  let out := run h (S.onDidChangeSessions removed st) w in
  let st' := snd (result_of out) in
  fst (result_of out) = Ok tt
  /\ forallb isRefreshCall (calls (trace_of out)) = true
  /\ (forall id, effectiveSessionId st = Some id -> id <> ""%string -> In id removed ->
        effectiveSessionId st' = None
        /\ S.getStoredCachedSessionId st' = None
        /\ (allAnswered (trace_of out) = true ->
            fst (S.current st') = None
            /\ S._accountStatus st' = AccountStatus.Unavailable))
  /\ ((forall id, effectiveSessionId st = Some id -> ~ In id removed) ->
        S.storage st' = S.storage st /\ effectiveSessionId st' = effectiveSessionId st).
Proof.
  cbv zeta. unfold S.onDidChangeSessions.
  rewrite run_bind. cbn [stateful run result_of world_of trace_of fst snd app].
  fold (effectiveSessionId st). fold (filled st).
  assert (Hkeep : forall s, sessionView s = sessionView st ->
            let out := run h (S.updateDetached s) w in
            S.storage (snd (result_of out)) = S.storage st
            /\ effectiveSessionId (snd (result_of out)) = effectiveSessionId st).
  { intros s Hs out. apply sessionView_storage.
    etransitivity; [exact (proj1 (proj2 (updateDetached_run s h w))) | exact Hs]. }
  destruct (effectiveSessionId st) as [id|] eqn:Heff.
  - destruct (negb (String.eqb id "") && existsb (String.eqb id) removed) eqn:E.
    + rewrite run_bind. cbn [assign run result_of world_of trace_of fst snd app].
      set (s1 := S.set_currentSessionId None (filled st)).
      destruct (updateDetached_run s1 h w) as (Hok & Hview & Hcalls & Hdone).
      apply sessionView_storage in Hview. destruct Hview as [Hsto Heff1].
      cbv zeta in Hok, Hcalls, Hdone.
      unfold result_of, trace_of in *.
      destruct (fst (fst (fst (run h (S.updateDetached s1) w)))) as [[]|e] eqn:Eres;
        [| discriminate].
      cbn [fst snd].
      assert (Hnone : effectiveSessionId (snd (fst (fst (run h (S.updateDetached s1) w))))
                      = None).
      { rewrite Heff1. apply set_currentSessionId_effective. }
      split; [reflexivity |]. split; [exact Hcalls |]. split.
      * intros id' _ _ _. split; [exact Hnone |]. split.
        -- unfold S.getStoredCachedSessionId in *. rewrite Hsto.
           apply set_currentSessionId_writes. rewrite filled_cache, Heff. discriminate.
        -- intro Hans. pose proof (no_current_without_session _ Hnone) as Hcur.
           split; [exact Hcur |]. rewrite (Hdone Hans), Hcur. reflexivity.
      * intro Hnot. exfalso. apply andb_true_iff in E. destruct E as [_ E].
        apply existsb_exists in E. destruct E as (x & Hin & Hx).
        apply String.eqb_eq in Hx. subst x. exact (Hnot id eq_refl Hin).
    + rewrite run_bind. cbn [ret run result_of world_of trace_of fst snd app].
      destruct (updateDetached_run (filled st) h w) as (Hok & Hview & Hcalls & Hdone).
      cbv zeta in Hok, Hcalls, Hdone. unfold result_of, trace_of in *.
      destruct (fst (fst (fst (run h (S.updateDetached (filled st)) w)))) as [[]|e] eqn:Eres;
        [| discriminate].
      cbn [fst snd].
      split; [reflexivity |]. split; [exact Hcalls |]. split.
      * intros id' Hid Hne Hin. exfalso. injection Hid as <-.
        apply andb_false_iff in E. destruct E as [E | E].
        -- apply negb_false_iff, String.eqb_eq in E. contradiction.
        -- assert (Hex : existsb (String.eqb id) removed = true).
           { apply existsb_exists. exists id. split; [exact Hin | apply String.eqb_refl]. }
           rewrite Hex in E. discriminate.
      * intros _. pose proof (Hkeep (filled st) (sessionView_filled st)) as H.
        cbv zeta in H. unfold result_of in H. exact H.
  - rewrite run_bind. cbn [ret run result_of world_of trace_of fst snd app].
    destruct (updateDetached_run (filled st) h w) as (Hok & Hview & Hcalls & Hdone).
    cbv zeta in Hok, Hcalls, Hdone. unfold result_of, trace_of in *.
    destruct (fst (fst (fst (run h (S.updateDetached (filled st)) w)))) as [[]|e] eqn:Eres;
      [| discriminate].
    cbn [fst snd].
    split; [reflexivity |]. split; [exact Hcalls |]. split.
    + intros id' Hid. discriminate.
    + intros _. pose proof (Hkeep (filled st) (sessionView_filled st)) as H.
      cbv zeta in H. unfold result_of in H. exact H.
Qed.

Lemma removed_session_is_forgotten_witness :
  let out := run (withSessions [] (sessionOf "s1" (Ok "token")))
                 (S.onDidChangeSessions ["s1"%string] staleWindow) tt in
  let st' := snd (result_of out) in
  effectiveSessionId staleWindow = Some "s1"%string
  /\ In "s1"%string ["s1"%string]
  /\ S.getStoredCachedSessionId staleWindow = Some "s2"%string
  /\ allAnswered (trace_of out) = true
  /\ effectiveSessionId st' = None
  /\ S.getStoredCachedSessionId st' = None
  /\ fst (S.current st') = None
  /\ S._accountStatus st' = AccountStatus.Unavailable.
Proof.
  cbv zeta. split; [reflexivity |]. split; [left; reflexivity |]. split; [reflexivity |].
  split; [reflexivity |].
  destruct (proj1 (proj2 (proj2 (removed_session_is_forgotten ["s1"%string] staleWindow
                                   (withSessions [] (sessionOf "s1" (Ok "token"))) tt)))
              "s1"%string eq_refl ltac:(discriminate) (or_introl eq_refl))
    as (H1 & H2 & H3).
  split; [exact H1 |]. split; [exact H2 |]. exact (H3 eq_refl).
Defined.

Lemma refresh_no_notification (c : call) : isRefreshCall c = true -> isNotify c = false.
Proof. destruct c; simpl; try discriminate; reflexivity. Qed.

Lemma notified_app (t1 t2 : trace) : notified (t1 ++ t2) = notified t1 ++ notified t2.
Proof. unfold notified. rewrite calls_app. apply filter_app. Qed.

(** X11.  After successive authorization failures the service works with no
    session id, and logs the failure once.  It removes the id from the storage
    unless its cache held no id already, and then it leaves the storage as it
    is: nothing is stored afterwards whenever the cache held an id or was not
    filled, or agreed with the storage.  The notification that offers to sign
    in again is shown exactly when the refresh completes; then there is no
    current account and the status is [Unavailable].  When the refresh fails,
    the listener fails with it and nothing is shown. *)
Theorem successive_auth_failures_sign_out (st : S.State)
    (W : Type) (h : handler W) (w : W) :
  let out := run h (S.onDidSuccessiveAuthFailures st) w in
  let st' := snd (result_of out) in
  effectiveSessionId st' = None
  /\ (S._cachedCurrentSessionId st <> Some None \/ coherent st ->
      S.getStoredCachedSessionId st' = None)
  /\ (S._cachedCurrentSessionId st = Some None -> S.storage st' = S.storage st)
  /\ telemetry (trace_of out) = [PublicLog2 "sync/successiveAuthFailures" []]
  /\ notified (trace_of out)
     = (if succeeded (fst (result_of out))
        then [NotificationNotify SeverityError
                (localize "successive auth failures"
                   "Preferences sync was turned off because of successive authorization failures. Please sign in again to continue synchronizing")
                "sign in"]
        else [])
  /\ (fst (result_of out) = Ok tt ->
      fst (S.current st') = None /\ S._accountStatus st' = AccountStatus.Unavailable).
Proof.
  cbv zeta. unfold S.onDidSuccessiveAuthFailures.
  rewrite run_bind, run_signal. cbn [result_of world_of trace_of fst snd app].
  rewrite run_bind. cbn [assign run result_of world_of trace_of fst snd app].
  set (s1 := S.set_currentSessionId None st).
  set (w1 := snd (h _ w)).
  rewrite run_bind. cbv zeta.
  pose proof (update_sessionView s1 h w1) as Hview.
  apply sessionView_storage in Hview. destruct Hview as [Hsto Heff].
  pose proof (refresh_update s1 h w1) as Hcalls.
  pose proof (update_completed s1 h w1) as Hdone. cbv zeta in Hdone.
  assert (Hnone : effectiveSessionId (snd (result_of (run h (S.update s1) w1))) = None).
  { rewrite Heff. apply set_currentSessionId_effective. }
  assert (Hstored : S._cachedCurrentSessionId st <> Some None \/ coherent st ->
            S.getStoredCachedSessionId (snd (result_of (run h (S.update s1) w1))) = None).
  { intros [Hne | Hco]; unfold S.getStoredCachedSessionId in *; rewrite Hsto.
    - apply set_currentSessionId_writes. exact Hne.
    - apply set_currentSessionId_stored. exact Hco. }
  assert (Hkept : S._cachedCurrentSessionId st = Some None ->
            S.storage (snd (result_of (run h (S.update s1) w1))) = S.storage st).
  { intro Hcached. rewrite Hsto. unfold s1.
    rewrite (@set_currentSessionId_kept None st Hcached). reflexivity. }
  assert (Htel : telemetry (trace_of (run h (S.update s1) w1)) = []).
  { exact (filter_none isTelemetry isRefreshCall _ refresh_no_telemetry Hcalls). }
  assert (Hnot : notified (trace_of (run h (S.update s1) w1)) = []).
  { exact (filter_none isNotify isRefreshCall _ refresh_no_notification Hcalls). }
  destruct (fst (result_of (run h (S.update s1) w1))) as [[]|e] eqn:E.
  - cbv beta iota zeta. rewrite run_signal.
    cbn [result_of world_of trace_of fst snd app succeeded].
    unfold result_of, trace_of in *.
    split; [exact Hnone |]. split; [exact Hstored |]. split; [exact Hkept |].
    split; [| split].
    + match goal with
      | |- telemetry (?e :: ?t) = _ => change (telemetry ([e] ++ t) = [called e])
      end.
      rewrite !telemetry_app, Htel. reflexivity.
    + match goal with
      | |- notified (?e :: ?t ++ [?n]) = _ =>
          change (notified ([e] ++ t ++ [n]) = [called n])
      end.
      rewrite !notified_app, Hnot. reflexivity.
    + intros _. pose proof (no_current_without_session _ Hnone) as Hcur.
      split; [exact Hcur |]. rewrite (Hdone eq_refl), Hcur. reflexivity.
  - cbn [result_of world_of trace_of fst snd app succeeded].
    unfold result_of, trace_of in *.
    split; [exact Hnone |]. split; [exact Hstored |]. split; [exact Hkept |].
    split; [| split].
    + match goal with
      | |- telemetry (?e :: ?t) = _ => change (telemetry ([e] ++ t) = [called e])
      end.
      rewrite telemetry_app, Htel. reflexivity.
    + match goal with
      | |- notified (?e :: ?t) = _ => change (notified ([e] ++ t) = [])
      end.
      rewrite notified_app, Hnot. reflexivity.
    + discriminate.
Qed.

Lemma successive_auth_failures_sign_out_witness :
  let out := run (withSessions [sessionOf "s1" (Ok "token")] (sessionOf "s1" (Ok "token")))
                 (S.onDidSuccessiveAuthFailures staleWindow) tt in
  let st' := snd (result_of out) in
  S._cachedCurrentSessionId staleWindow <> Some None
  /\ S.getStoredCachedSessionId staleWindow = Some "s2"%string
  /\ fst (result_of out) = Ok tt
  /\ S.getStoredCachedSessionId st' = None
  /\ fst (S.current st') = None
  /\ S._accountStatus st' = AccountStatus.Unavailable.
Proof.
  cbv zeta.
  assert (Hcached : S._cachedCurrentSessionId staleWindow <> Some None) by discriminate.
  split; [exact Hcached |]. split; [reflexivity |]. split; [reflexivity |].
  destruct (successive_auth_failures_sign_out staleWindow
              (withSessions [sessionOf "s1" (Ok "token")] (sessionOf "s1" (Ok "token"))) tt)
    as (_ & Hstored & _ & _ & _ & Hdone).
  split; [exact (Hstored (or_introl Hcached)) |]. exact (Hdone eq_refl).
Defined.

(** X12.  The listener for storage changes never fails and never writes to
    the storage.  An event for another key or another scope does nothing at
    all, and so does one for the session key while the service works with the
    id that is stored.  After an event for the session key in the global scope
    the service works with the stored id, and it has started a refresh exactly
    when the two differed. *)
Theorem storage_change_adopts_the_stored_id (key : string) (globalScope : bool)
    (st : S.State) (W : Type) (h : handler W) (w : W) :
  let out := run h (S.onDidChangeStorage key globalScope st) w in
  let st' := snd (result_of out) in
  fst (result_of out) = Ok tt
  /\ S.storage st' = S.storage st
  /\ forallb isRefreshCall (calls (trace_of out)) = true
  /\ (key <> S.CACHED_SESSION_STORAGE_KEY \/ globalScope = false ->
      out = ((Ok tt, st), w, []))
  /\ (key = S.CACHED_SESSION_STORAGE_KEY -> globalScope = true ->
      effectiveSessionId st' = S.getStoredCachedSessionId st
      /\ (effectiveSessionId st = S.getStoredCachedSessionId st ->
          out = ((Ok tt, filled st), w, []))
      /\ (effectiveSessionId st <> S.getStoredCachedSessionId st ->
          out = run h (S.updateDetached (S.with_cachedCurrentSessionId None (filled st))) w)).
Proof.
  cbv zeta. unfold S.onDidChangeStorage.
  destruct (String.eqb key S.CACHED_SESSION_STORAGE_KEY) eqn:Ekey; cbn [andb].
  - apply String.eqb_eq in Ekey. destruct globalScope.
    + rewrite run_bind. cbn [stateful run result_of world_of trace_of fst snd app].
      rewrite run_bind. cbn [get run result_of world_of trace_of fst snd app].
      fold (filled st). fold (effectiveSessionId st).
      assert (Hstored : S.getStoredCachedSessionId (filled st) = S.getStoredCachedSessionId st).
      { unfold S.getStoredCachedSessionId.
        rewrite (proj1 (sessionView_storage (sessionView_filled st))). reflexivity. }
      rewrite Hstored.
      destruct (option_eqb String.eqb (effectiveSessionId st) (S.getStoredCachedSessionId st))
        eqn:E; cbn [negb].
      * apply option_eqb_string in E.
        cbn [ret run result_of world_of trace_of fst snd app].
        split; [reflexivity |].
        split; [exact (proj1 (sessionView_storage (sessionView_filled st))) |].
        split; [reflexivity |]. split.
        -- intros [H | H]; [contradiction | discriminate].
        -- intros _ _. split; [rewrite effective_filled; exact E |].
           split; [reflexivity | intro H; contradiction].
      * rewrite run_bind. cbn [assign run result_of world_of trace_of fst snd app].
        set (s1 := S.with_cachedCurrentSessionId None (filled st)).
        destruct (updateDetached_run s1 h w) as (Hok & Hview & Hcalls & _).
        apply sessionView_storage in Hview. destruct Hview as [Hsto Heff].
        cbv zeta in Hok, Hcalls. unfold result_of, trace_of in *.
        split; [exact Hok |]. split.
        { rewrite Hsto. exact (proj1 (sessionView_storage (sessionView_filled st))). }
        split; [exact Hcalls |]. split.
        -- intros [H | H]; [contradiction | discriminate].
        -- intros _ _. split.
           ++ rewrite Heff. unfold s1, effectiveSessionId, S.currentSessionId. simpl.
              exact Hstored.
           ++ split.
              ** intro H. rewrite H in E.
                 rewrite option_eqb_refl in E. discriminate.
              ** intros _. destruct (run h (S.updateDetached s1) w) as [[r w'] t]. reflexivity.
    + cbn [ret run result_of world_of trace_of fst snd app].
      split; [reflexivity |]. split; [reflexivity |]. split; [reflexivity |].
      split; [intros _; reflexivity | intros _ Hscope; discriminate].
  - cbn [ret run result_of world_of trace_of fst snd app].
    split; [reflexivity |]. split; [reflexivity |]. split; [reflexivity |].
    split; [intros _; reflexivity |]. intros Hkey _. subst key.
    rewrite String.eqb_refl in Ekey. discriminate.
Qed.

Lemma storage_change_adopts_the_stored_id_witness :
  let st' := snd (result_of (run (withSessions [] (sessionOf "s2" (Ok "token")))
                                 (S.onDidChangeStorage S.CACHED_SESSION_STORAGE_KEY true
                                    staleWindow) tt)) in
  effectiveSessionId staleWindow = Some "s1"%string
  /\ effectiveSessionId st' = Some "s2"%string.
Proof.
  cbv zeta. split; [reflexivity |].
  exact (proj1 (proj2 (proj2 (proj2 (proj2
           (storage_change_adopts_the_stored_id S.CACHED_SESSION_STORAGE_KEY true staleWindow
              (withSessions [] (sessionOf "s2" (Ok "token"))) tt))))
           eq_refl eq_refl)).
Defined.

(** ** Enablement beyond the claims *)

Lemma run_tryFinally_signal {St A W} (h : handler W) (body : M St A) (c : call)
    (s : St) (w : W) :
  run h (tryFinally body (signal c) s) w =
  let r := run h (body s) w in
  (result_of r, snd (h c (world_of r)), trace_of r ++ [Called c (fst (h c (world_of r)))]).
Proof.
  unfold tryFinally. rewrite run_pbind. unfold result_of, world_of, trace_of.
  destruct (run h (body s) w) as [[[r s1] w1] t1]. reflexivity.
Qed.

Lemma emits_weaken {St A} (allowed allowed' : call -> bool) (m : M St A) :
  (forall c, allowed c = true -> allowed' c = true) -> emits allowed m -> emits allowed' m.
Proof.
  intros Himp Hm s W h w. specialize (Hm s W h w).
  rewrite forallb_forall in *. intros c Hc. apply Himp, Hm, Hc.
Qed.

Lemma emits_bind_yields {St A B} (allowed : call -> bool) (post : A -> Prop)
    (m : M St A) (f : A -> M St B) :
  emits allowed m -> yields post m -> (forall a, post a -> emits allowed (f a)) ->
  emits allowed (bind m f).
Proof.
  intros Hm Hpost Hf s W h w. rewrite run_bind. cbv zeta.
  specialize (Hm s W h w). specialize (Hpost s W h w).
  destruct (run h (m s) w) as [[[[a | e] s1] w1] t1]; simpl in *.
  - rewrite calls_app, forallb_app, Hm. apply Hf, Hpost. reflexivity.
  - exact Hm.
Qed.

Lemma emits_fireAll {St} (allowed : call -> bool) (l : list notification) :
  (forall n, allowed (Fire n) = true) -> emits allowed (fireAll (S := St) l).
Proof.
  intro Hfire. induction l as [|n l IH]; simpl.
  - apply emits_ret.
  - apply emits_bind; [apply emits_signal, Hfire | intros _; exact IH].
Qed.

Lemma emits_onPreview_modify (allowed : call -> bool)
    (f : PreviewState -> PreviewState * list notification) :
  (forall n, allowed (Fire n) = true) -> emits allowed (S.onPreview (modify f)).
Proof.
  intros Hfire s W h w. unfold S.onPreview. rewrite run_pbind. cbv zeta. simpl.
  rewrite app_nil_r.
  exact (emits_fireAll (St := PreviewState) allowed (snd (f (S.userDataSyncPreview s)))
           Hfire (fst (f (S.userDataSyncPreview s))) h w).
Qed.

Lemma getFirstTimeSyncAction_yields (r l c m : bool) :
  yields (fun action => action <> FirstTimeSyncAction.push)
         (S.getFirstTimeSyncAction r l c m).
Proof.
  intros s W h w a. unfold S.getFirstTimeSyncAction.
  destruct (negb l || negb r || negb c || m).
  - simpl. intro H. injection H as <-. discriminate.
  - rewrite run_bind, run_perform. cbn [result_of world_of trace_of fst snd].
    destruct (fst (h S.firstTimeSyncDialog w)) as [[|[|[|n]]] | e]; simpl;
      intro H; try discriminate; injection H as <-; discriminate.
Qed.

(** X13.  The first-time-sync decision never answers [push] and never changes
    the service.  It calls nothing, or the dialog alone when the dialog fails,
    or the dialog and then one telemetry event; and an error it raises is
    [Canceled] unless it is the error of the dialog. *)
Theorem first_time_sync_never_pushes
    (hasRemoteData hasLocalData hasChanges isLastSyncFromCurrentMachine : bool)
    (st : S.State) (W : Type) (h : handler W) (w : W) :
  let out := run h (S.getFirstTimeSyncAction hasRemoteData hasLocalData hasChanges
                      isLastSyncFromCurrentMachine st) w in
  fst (result_of out) <> Ok FirstTimeSyncAction.push
  /\ snd (result_of out) = st
  /\ (calls (trace_of out) = []
      \/ calls (trace_of out) = [S.firstTimeSyncDialog]
      \/ exists action, calls (trace_of out)
                        = [S.firstTimeSyncDialog; S.firstTimeSyncEvent action])
  /\ (forall e, fst (result_of out) = Throw e ->
                e = Canceled \/ fst (h S.firstTimeSyncDialog w) = Throw e).
Proof.
  cbv zeta. split.
  - intro H. exact (getFirstTimeSyncAction_yields _ _ _ _ st h w H eq_refl).
  - unfold S.getFirstTimeSyncAction.
    destruct (negb hasLocalData || negb hasRemoteData || negb hasChanges
              || isLastSyncFromCurrentMachine).
    + simpl. split; [reflexivity |]. split; [left; reflexivity |]. intros e H. discriminate.
    + rewrite run_bind, run_perform. cbn [result_of world_of trace_of fst snd].
      destruct (fst (h S.firstTimeSyncDialog w)) as [[|[|[|n]]] | e]; simpl;
        (split; [reflexivity |]); split;
        try (right; right; eexists; reflexivity);
        try (right; left; reflexivity);
        intros e' H; try discriminate.
      * left. injection H as <-. reflexivity.
      * right. injection H as <-. reflexivity.
Qed.

Lemma taskEnds_app (t1 t2 : trace) : taskEnds (t1 ++ t2) = taskEnds t1 ++ taskEnds t2.
Proof. unfold taskEnds. rewrite calls_app. apply filter_app. Qed.

Lemma emits_syncManually (task : IManualSyncTask) (preview : SyncPreview) :
  emits isOrdinaryStep (S.syncManually task preview).
Proof.
  unfold S.syncManually.
  apply emits_bind; [apply emits_perform; reflexivity | intro visible].
  apply emits_bind; [apply emits_onPreview_modify; reflexivity | intros _].
  emitting.
Qed.

(** [syncBeforeTurningOn] is a body guarded by the [catch] that stops the
    task and the [finally] that disposes it; the body itself neither ends the
    task nor pushes with it. *)
Lemma syncBeforeTurningOn_shape (title : string) :
  exists body : IManualSyncTask -> M S.State unit,
    (forall task, emits isOrdinaryStep (body task))
    /\ S.syncBeforeTurningOn title
       = (perform ResetLocal ;;;
          manualSyncTask <- perform CreateManualSyncTask ;;
          tryFinally
            (tryCatch (body manualSyncTask)
               (fun error => perform (TaskStop manualSyncTask) ;;; throw error))
            (signal (TaskDispose manualSyncTask))).
Proof.
  eexists. split; [| unfold S.syncBeforeTurningOn; reflexivity].
  intro task. cbv beta.
  apply emits_bind.
  - apply emits_bind; [apply emits_signal; reflexivity | intros _].
    apply emits_bind; [apply emits_signal; reflexivity | intros _].
    apply emits_bind; [apply emits_perform; reflexivity | intro preview].
    apply emits_bind; [apply emits_perform; reflexivity | intro manifestIsNull].
    apply emits_bind; [apply emits_perform; reflexivity | intro hasLocalData].
    apply (emits_bind_yields (post := fun action => action <> FirstTimeSyncAction.push)).
    + unfold S.getFirstTimeSyncAction. emitting.
    + apply getFirstTimeSyncAction_yields.
    + intros action Haction.
      apply emits_bind; [apply emits_perform; reflexivity | intro progressDisposable].
      apply emits_bind; [| intros _; apply emits_ret].
      apply emits_tryFinally; [| apply emits_signal; reflexivity].
      destruct action; try contradiction; emitting.
  - intro r. destruct (fst r); try apply emits_ret.
    apply emits_syncManually.
Qed.

Lemma ordinary_not_taskEnd (c : call) : isOrdinaryStep c = true -> isTaskEnd c = false.
Proof.
  unfold isOrdinaryStep. intro H. apply andb_true_iff in H. destruct H as [H _].
  apply andb_true_iff in H. destruct H as [H _]. apply negb_true_iff in H. exact H.
Qed.

Lemma last_app_one {A} (l : list A) (a d : A) : last (l ++ [a]) d = a.
Proof.
  induction l as [|x l IH]; [reflexivity |].
  simpl. destruct (l ++ [a]) eqn:E; [destruct l; discriminate | exact IH].
Qed.

(** A body guarded as in [syncBeforeTurningOn]. *)
Lemma guarded_run (body : IManualSyncTask -> M S.State unit) (st : S.State)
    (W : Type) (h : handler W) (w : W) :
  (forall task, emits isOrdinaryStep (body task)) ->
  let out :=
    run h ((perform ResetLocal ;;;
            manualSyncTask <- perform CreateManualSyncTask ;;
            tryFinally
              (tryCatch (body manualSyncTask)
                 (fun error => perform (TaskStop manualSyncTask) ;;; throw error))
              (signal (TaskDispose manualSyncTask))) st) w in
  let w1 := snd (h ResetLocal w) in
  match fst (h ResetLocal w) with
  | Throw e => out = ((Throw e, st), w1, [Called ResetLocal (Throw e)])
  | Ok u =>
      match fst (h CreateManualSyncTask w1) with
      | Throw e =>
          out = ((Throw e, st), snd (h CreateManualSyncTask w1),
                 [Called ResetLocal (Ok u); Called CreateManualSyncTask (Throw e)])
      | Ok task =>
          taskEnds (trace_of out)
          = (if succeeded (fst (result_of out)) then [] else [TaskStop task])
            ++ [TaskDispose task]
          /\ last (calls (trace_of out)) ResetLocal = TaskDispose task
      end
  end.
Proof.
  intros Hbody out w1. unfold out.
  rewrite run_bind, run_perform. cbn [result_of world_of trace_of fst snd].
  fold w1. destruct (fst (h ResetLocal w)) as [u | e]; [| reflexivity].
  rewrite run_bind, run_perform. cbn [result_of world_of trace_of fst snd].
  destruct (fst (h CreateManualSyncTask w1)) as [task | e]; [| reflexivity].
  rewrite run_tryFinally_signal, run_tryCatch. cbv zeta.
  set (w2 := snd (h CreateManualSyncTask w1)).
  pose proof (Hbody task st W h w2) as Hcalls.
  assert (Hquiet : taskEnds (trace_of (run h (body task st) w2)) = []).
  { exact (filter_none isTaskEnd isOrdinaryStep _ ordinary_not_taskEnd Hcalls). }
  unfold trace_of in Hquiet.
  destruct (fst (result_of (run h (body task st) w2))) as [[] | e] eqn:E.
  - cbn [result_of world_of trace_of fst snd succeeded]. split.
    + rewrite !taskEnds_app, Hquiet. reflexivity.
    + rewrite !app_assoc, calls_app. apply last_app_one.
  - rewrite run_bind, run_perform. cbn [result_of world_of trace_of fst snd].
    destruct (fst (h (TaskStop task) _)) as [a | e'];
      cbn [throw run result_of world_of trace_of fst snd succeeded]; split.
    + rewrite !taskEnds_app, Hquiet. reflexivity.
    + rewrite !app_assoc, calls_app. apply last_app_one.
    + rewrite !taskEnds_app, Hquiet. reflexivity.
    + rewrite !app_assoc, calls_app. apply last_app_one.
Qed.

(** X14.  [syncBeforeTurningOn] and the manual sync task it creates.  When
    resetting the local state or creating the task fails, the method fails
    with that error and nothing else is called.  Once the task is created it
    is disposed whatever happens, and disposing it is the last call of the
    method; it is stopped, once and before it is disposed, exactly when the
    method fails. *)
Theorem enablement_ends_its_task (title : string) (st : S.State)
    (W : Type) (h : handler W) (w : W) :
  let out := run h (S.syncBeforeTurningOn title st) w in
  let w1 := snd (h ResetLocal w) in
  match fst (h ResetLocal w) with
  | Throw e => out = ((Throw e, st), w1, [Called ResetLocal (Throw e)])
  | Ok u =>
      match fst (h CreateManualSyncTask w1) with
      | Throw e =>
          out = ((Throw e, st), snd (h CreateManualSyncTask w1),
                 [Called ResetLocal (Ok u); Called CreateManualSyncTask (Throw e)])
      | Ok task =>
          taskEnds (trace_of out)
          = (if succeeded (fst (result_of out)) then [] else [TaskStop task])
            ++ [TaskDispose task]
          /\ last (calls (trace_of out)) ResetLocal = TaskDispose task
      end
  end.
Proof.
  destruct (syncBeforeTurningOn_shape title) as (body & Hbody & ->).
  exact (guarded_run body st h w Hbody).
Qed.

Lemma ordinary_or_end_app (c : call) :
  isOrdinaryStep c = true -> isOrdinaryStep c || isTaskEnd c = true.
Proof. intros ->. reflexivity. Qed.

Lemma emits_syncBeforeTurningOn (title : string) :
  emits (fun c => isOrdinaryStep c || isTaskEnd c) (S.syncBeforeTurningOn title).
Proof.
  destruct (syncBeforeTurningOn_shape title) as (body & Hbody & ->).
  apply emits_bind; [apply emits_perform; reflexivity | intros _].
  apply emits_bind; [apply emits_perform; reflexivity | intro task].
  apply emits_tryFinally; [| apply emits_signal; reflexivity].
  apply emits_tryCatch.
  - exact (emits_weaken _ ordinary_or_end_app (Hbody task)).
  - intro e. apply emits_bind; [apply emits_perform; reflexivity | intros _; apply emits_throw].
Qed.

Lemma syncBeforeTurningOn_completed (title : string) (st : S.State)
    (W : Type) (h : handler W) (w : W) :
  let out := run h (S.syncBeforeTurningOn title st) w in
  fst (result_of out) = Ok tt ->
  exists task, taskEnds (trace_of out) = [TaskDispose task].
Proof.
  intros out Hdone. unfold out in *.
  destruct (syncBeforeTurningOn_shape title) as (body & Hbody & Hshape).
  rewrite Hshape in *.
  pose proof (guarded_run body st h w Hbody) as Hrun. cbv zeta in Hrun.
  destruct (fst (h ResetLocal w)) as [u | e].
  - destruct (fst (h CreateManualSyncTask (snd (h ResetLocal w)))) as [task | e].
    + destruct Hrun as [Hends _]. rewrite Hdone in Hends. exists task. exact Hends.
    + rewrite Hrun in Hdone. discriminate.
  - rewrite Hrun in Hdone. discriminate.
Qed.

Lemma accountStep_ordinary (c : call) : isAccountStep c = true -> isOrdinaryStep c = true.
Proof. destruct c; simpl; try discriminate; reflexivity. Qed.

Lemma ordinary_facts (c : call) :
  isOrdinaryStep c = true -> isTaskEnd c = false /\ isTaskPush c = false /\ isTurnedOn c = false.
Proof.
  unfold isOrdinaryStep. intro H. apply andb_true_iff in H. destruct H as [H H3].
  apply andb_true_iff in H. destruct H as [H1 H2].
  apply negb_true_iff in H1, H2, H3. repeat split; assumption.
Qed.

Section TurnOnOrder.
Variable arraySort : forall A : Type, (A -> A -> Z) -> list A -> list A.
Variable getLabel : string -> string.
Variable supportsMultipleAccounts : string -> bool.

(** The calls of [turnOn]: those of the pick, those of the first sync, and
    what turns auto sync on. *)
Lemma turnOn_calls (st : S.State) (W : Type) (h : handler W) (w : W) :
  let out := run h (S.turnOn arraySort getLabel supportsMultipleAccounts st) w in
  exists tp ts tail,
    calls (trace_of out) = tp ++ ts ++ tail
    /\ forallb isAccountStep tp = true
    /\ forallb (fun c => isOrdinaryStep c || isTaskEnd c) ts = true
    /\ (tail = [] /\ fst (result_of out) <> Ok tt
        \/ (exists task, filter isTaskEnd ts = [TaskDispose task])
           /\ (tail = [AutoSyncTurnOn] /\ fst (result_of out) <> Ok tt
               \/ exists message,
                    tail = [AutoSyncTurnOn; NotificationInfo message]
                    /\ fst (result_of out) = Ok tt)).
Proof.
  cbv zeta. unfold S.turnOn. rewrite run_bind. cbv zeta.
  pose proof (emits_pick arraySort getLabel supportsMultipleAccounts st h w) as Hpick.
  set (picked := run h (S.pick arraySort getLabel supportsMultipleAccounts st) w) in *.
  assert (Hstop : forall r : outcome unit,
            r <> Ok tt ->
            exists tp ts tail,
              calls (trace_of picked) = tp ++ ts ++ tail
              /\ forallb isAccountStep tp = true
              /\ forallb (fun c => isOrdinaryStep c || isTaskEnd c) ts = true
              /\ (tail = [] /\ r <> Ok tt
                  \/ (exists task, filter isTaskEnd ts = [TaskDispose task])
                     /\ (tail = [AutoSyncTurnOn] /\ r <> Ok tt
                         \/ exists message,
                              tail = [AutoSyncTurnOn; NotificationInfo message]
                              /\ r = Ok tt))).
  { intros r Hr. exists (calls (trace_of picked)), [], [].
    rewrite !app_nil_r. repeat split; try assumption. left. split; [reflexivity | exact Hr]. }
  destruct (fst (result_of picked)) as [[|] | e].
  - cbn [negb]. rewrite run_bind. cbn [get run result_of world_of trace_of fst snd app].
    destruct (AccountStatus.eqb _ AccountStatus.Available); cbn [negb].
    + rewrite run_bind. cbv zeta.
      match goal with
      | |- context [run h (S.syncBeforeTurningOn ?t ?s) ?w'] =>
          set (sync := run h (S.syncBeforeTurningOn t s) w');
          pose proof (emits_syncBeforeTurningOn t s h w') as Hsync;
          pose proof (syncBeforeTurningOn_completed t s h w') as Hdone;
          cbv zeta in Hdone; fold sync in Hsync, Hdone
      end.
      destruct (fst (result_of sync)) as [[] | e] eqn:Esync.
      * specialize (Hdone eq_refl). unfold taskEnds in Hdone.
        rewrite run_bind, run_perform. cbn [result_of world_of trace_of fst snd].
        destruct (fst (h AutoSyncTurnOn _)) as [[] | e].
        -- rewrite ?run_signal. cbn [result_of world_of trace_of fst snd].
           eexists (calls (snd picked)), (calls (trace_of sync)), _.
           split; [rewrite !calls_app; reflexivity |].
           split; [exact Hpick |]. split; [exact Hsync |].
           right. split; [exact Hdone |]. right. eexists. split; reflexivity.
        -- cbn [result_of world_of trace_of fst snd].
           eexists (calls (snd picked)), (calls (trace_of sync)), _.
           split; [rewrite !calls_app; reflexivity |].
           split; [exact Hpick |]. split; [exact Hsync |].
           right. split; [exact Hdone |]. left. split; [reflexivity | discriminate].
      * cbn [result_of world_of trace_of fst snd].
        exists (calls (snd picked)), (calls (trace_of sync)), [].
        split; [rewrite !app_nil_r, !calls_app; reflexivity |].
        split; [exact Hpick |]. split; [exact Hsync |].
        left. split; [reflexivity | discriminate].
    + cbn [throw run result_of world_of trace_of fst snd app]. rewrite app_nil_r.
      apply (Hstop (Throw (Error (localize "no account" "No account available")))).
      discriminate.
  - cbn [negb throw run result_of world_of trace_of fst snd app]. rewrite app_nil_r.
    apply (Hstop (Throw Canceled)). discriminate.
  - apply (Hstop (Throw e)). discriminate.
Qed.

End TurnOnOrder.

Lemma existsb_none {A} (bad allowed : A -> bool) (l : list A) :
  (forall a, allowed a = true -> bad a = false) ->
  forallb allowed l = true -> existsb bad l = false.
Proof.
  intros Hno. induction l as [|a l IH]; simpl; [reflexivity |].
  intro H. apply andb_true_iff in H. destruct H as [Ha Hl].
  rewrite (Hno a Ha). exact (IH Hl).
Qed.

Lemma ordinary_or_end_facts (c : call) :
  isOrdinaryStep c || isTaskEnd c = true -> isTaskPush c = false /\ isTurnedOn c = false.
Proof. destruct c; simpl; try discriminate; split; reflexivity. Qed.

Section TurnOnLast.
Variable arraySort : forall A : Type, (A -> A -> Z) -> list A -> list A.
Variable getLabel : string -> string.
Variable supportsMultipleAccounts : string -> bool.

(** X15.  [turnOn] never pushes with the manual sync task.  It turns auto
    sync on only after the first sync has completed, so with the task disposed
    and never stopped; and when [turnOn] completes, turning auto sync on and
    telling the user so are its last two calls and happen once. *)
Theorem turnOn_turns_auto_sync_on_last (st : S.State) (W : Type) (h : handler W) (w : W) :
  let out := run h (S.turnOn arraySort getLabel supportsMultipleAccounts st) w in
  existsb isTaskPush (calls (trace_of out)) = false
  /\ (In AutoSyncTurnOn (calls (trace_of out)) ->
      exists task, taskEnds (trace_of out) = [TaskDispose task])
  /\ (fst (result_of out) = Ok tt ->
      exists before message,
        calls (trace_of out) = before ++ [AutoSyncTurnOn; NotificationInfo message]
        /\ existsb isTurnedOn before = false).
Proof.
  intro out.
  destruct (turnOn_calls arraySort getLabel supportsMultipleAccounts st h w)
    as (tp & ts & tail & Hcalls & Hp & Hs & Htail).
  cbv zeta in Hcalls, Htail. fold out in Hcalls, Htail.
  assert (Hp_push : existsb isTaskPush tp = false).
  { apply (existsb_none isTaskPush isAccountStep); [| exact Hp].
    intros c Hc. apply accountStep_ordinary, ordinary_facts in Hc. apply Hc. }
  assert (Hp_on : existsb isTurnedOn tp = false).
  { apply (existsb_none isTurnedOn isAccountStep); [| exact Hp].
    intros c Hc. apply accountStep_ordinary, ordinary_facts in Hc. apply Hc. }
  assert (Hp_end : filter isTaskEnd tp = []).
  { apply (filter_none isTaskEnd isAccountStep); [| exact Hp].
    intros c Hc. apply accountStep_ordinary, ordinary_facts in Hc. apply Hc. }
  assert (Hs_push : existsb isTaskPush ts = false).
  { apply (existsb_none isTaskPush (fun c => isOrdinaryStep c || isTaskEnd c)); [| exact Hs].
    intros c Hc. apply ordinary_or_end_facts in Hc. apply Hc. }
  assert (Hs_on : existsb isTurnedOn ts = false).
  { apply (existsb_none isTurnedOn (fun c => isOrdinaryStep c || isTaskEnd c)); [| exact Hs].
    intros c Hc. apply ordinary_or_end_facts in Hc. apply Hc. }
  assert (Hno : forall l, existsb isTurnedOn l = false -> ~ In AutoSyncTurnOn l).
  { intros l Hl Hin.
    assert (Hex : existsb isTurnedOn l = true)
      by (apply existsb_exists; exists AutoSyncTurnOn; split; [exact Hin | reflexivity]).
    rewrite Hex in Hl. discriminate. }
  unfold taskEnds. rewrite Hcalls.
  destruct Htail as [[-> Hres] | [(task & Hends) [[-> Hres] | (message & -> & Hres)]]].
  - rewrite !app_nil_r. split; [| split].
    + rewrite existsb_app, Hp_push, Hs_push. reflexivity.
    + intro Hin. exfalso. apply (Hno (tp ++ ts)); [| exact Hin].
      rewrite existsb_app, Hp_on, Hs_on. reflexivity.
    + intro H. contradiction.
  - split; [| split].
    + rewrite !existsb_app, Hp_push, Hs_push. reflexivity.
    + intros _. exists task. rewrite !filter_app, Hp_end, Hends. reflexivity.
    + intro H. contradiction.
  - split; [| split].
    + rewrite !existsb_app, Hp_push, Hs_push. reflexivity.
    + intros _. exists task. rewrite !filter_app, Hp_end, Hends. reflexivity.
    + intros _. exists (tp ++ ts), message. split; [apply app_assoc |].
      rewrite existsb_app, Hp_on, Hs_on. reflexivity.
Qed.

End TurnOnLast.

Lemma turnOn_turns_auto_sync_on_last_witness :
  let out := run (firstSync 1) (S.turnOn keepOrder labelIsId singleAccount windowOnS1) tt in
  fst (result_of out) = Ok tt
  /\ (exists task, taskEnds (trace_of out) = [TaskDispose task])
  /\ (exists before message,
        calls (trace_of out) = before ++ [AutoSyncTurnOn; NotificationInfo message]
        /\ existsb isTurnedOn before = false).
Proof.
  cbv zeta. split; [reflexivity |].
  destruct (turnOn_turns_auto_sync_on_last keepOrder labelIsId singleAccount windowOnS1
              (firstSync 1) tt) as (_ & Hon & Hlast).
  split; [| exact (Hlast eq_refl)].
  apply Hon. apply in_map_iff. eexists (Called AutoSyncTurnOn _). split; [reflexivity |].
  vm_compute. repeat (first [left; reflexivity | right]).
Defined.

(** ** Picking an account beyond the claims *)

Lemma update_providers (st : S.State) (W : Type) (h : handler W) (w : W) :
  S.authenticationProviders (snd (result_of (run h (S.update st) w)))
  = S.authenticationProviders st.
Proof.
  pose proof (update_sessionView st h w) as H. unfold sessionView in H.
  injection H as _ _ H _. exact H.
Qed.

Section PickWithoutChooser.
Variable arraySort : forall A : Type, (A -> A -> Z) -> list A -> list A.
Variable getLabel : string -> string.
Variable supportsMultipleAccounts : string -> bool.


(** X17.  With exactly one configured provider and no account after the
    refresh, the pick shows no quick pick: once the refresh has completed it
    logs in with that provider and its scopes.  When the login fails, [pick]
    fails with that error and switches to nothing; when it answers a session,
    [pick] switches to that session, its account label and its account id, and
    answers [true] when the switch completes. *)
Theorem single_provider_logs_in (provider : IAuthenticationProvider) (st : S.State)
    (W : Type) (h : handler W) (w : W) :
  let up := run h (S.update st) w in
  let st1 := snd (result_of up) in
  let login := Login (provider_id provider) (scopes provider) in
  S.authenticationProviders st = [provider] ->
  fst (result_of up) = Ok tt ->
  S.all st1 = [] ->
  run h (S.doPick arraySort getLabel supportsMultipleAccounts st) w
  = ((Ok (Some (S.PickedProvider provider)), st1), world_of up, trace_of up)
  /\ match fst (h login (world_of up)) with
     | Throw e =>
         run h (S.pick arraySort getLabel supportsMultipleAccounts st) w
         = ((Throw e, st1), snd (h login (world_of up)),
            trace_of up ++ [Called login (Throw e)])
     | Ok session =>
         let switched :=
           run h (S.switch (Session.id session)
                    (SessionAccount.label (Session.account session))
                    (SessionAccount.id (Session.account session)) st1)
               (snd (h login (world_of up))) in
         run h (S.pick arraySort getLabel supportsMultipleAccounts st) w
         = ((match fst (result_of switched) with
             | Ok _ => Ok true
             | Throw e => Throw e
             end, snd (result_of switched)),
            world_of switched,
            trace_of up ++ Called login (Ok session) :: trace_of switched)
     end.
Proof.
  intros up st1 login Hone Hdone Hnone.
  assert (Hprov : S.authenticationProviders st1 = [provider]).
  { unfold st1, up. rewrite update_providers. exact Hone. }
  assert (Hpick : run h (S.doPick arraySort getLabel supportsMultipleAccounts st) w
                  = ((Ok (Some (S.PickedProvider provider)), st1), world_of up,
                     trace_of up)).
  { unfold S.doPick. rewrite run_bind.
    cbn [get run result_of world_of trace_of fst snd app]. rewrite Hone.
    rewrite run_bind. fold up. cbv zeta. rewrite Hdone.
    rewrite run_bind. cbn [get run result_of world_of trace_of fst snd app].
    change (snd (fst (fst up))) with st1. rewrite Hprov, Hnone.
    cbn [ret run result_of world_of trace_of fst snd app]. rewrite !app_nil_r.
    reflexivity. }
  split; [exact Hpick |].
  unfold S.pick. rewrite run_bind, Hpick. cbv zeta.
  cbn [result_of world_of trace_of fst snd].
  rewrite run_bind, run_perform. cbn [result_of world_of trace_of fst snd].
  unfold login, world_of.
  destruct (fst (h (Login _ _) _)) as [session | e]; [| reflexivity].
  rewrite run_bind. cbv zeta. unfold result_of, world_of, trace_of.
  destruct (fst (fst (fst (run h (S.switch _ _ _ st1) _)))) as [[] | e];
    cbn [ret run fst snd app]; rewrite ?app_nil_r; reflexivity.
Qed.

End PickWithoutChooser.


Lemma single_provider_logs_in_witness :
  let h := withSessions [] (sessionOf "s2" (Ok "token")) in
  let up := run h (S.update freshWindow) tt in
  S.authenticationProviders freshWindow = [github]
  /\ fst (result_of up) = Ok tt
  /\ S.all (snd (result_of up)) = []
  /\ run h (S.doPick keepOrder labelIsId singleAccount freshWindow) tt
     = ((Ok (Some (S.PickedProvider github)), snd (result_of up)), world_of up, trace_of up).
Proof.
  cbv zeta. split; [reflexivity |]. split; [reflexivity |]. split; [reflexivity |].
  exact (proj1 (@single_provider_logs_in keepOrder labelIsId singleAccount github freshWindow
                  unit (withSessions [] (sessionOf "s2" (Ok "token"))) tt
                  eq_refl eq_refl eq_refl)).
Defined.

(** ** The account registry beyond the claims *)

Lemma map_set_In {V} (k : string) (v : V) (m : list (string * V)) : In (k, v) (map_set k v m).
Proof.
  induction m as [|[k' v'] m IH]; simpl; [left; reflexivity |].
  destruct (String.eqb k' k); [left; reflexivity | right; exact IH].
Qed.

Lemma map_set_In_inv {V} (k : string) (v : V) (m : list (string * V)) (kv : string * V) :
  In kv (map_set k v m) -> kv = (k, v) \/ In kv m.
Proof.
  induction m as [|[k' v'] m IH]; simpl.
  - intros [H | []]. left. symmetry. exact H.
  - destruct (String.eqb k' k); simpl.
    + intros [H | H]; [left; symmetry; exact H | right; right; exact H].
    + intros [H | H]; [right; left; exact H |].
      destruct (IH H) as [H' | H']; [left; exact H' | right; right; exact H'].
Qed.

Lemma map_set_key_kept {V} (k k' : string) (v : V) (m : list (string * V)) :
  In k' (map fst m) -> In k' (map fst (map_set k v m)).
Proof.
  induction m as [|[k0 v0] m IH]; simpl; [intros [] |].
  destruct (String.eqb k0 k) eqn:E; simpl.
  - apply String.eqb_eq in E. subst k0. intro H. exact H.
  - intros [H | H]; [left; exact H | right; exact (IH H)].
Qed.

Lemma map_set_NoDup {V} (k : string) (v : V) (m : list (string * V)) :
  NoDup (map fst m) -> NoDup (map fst (map_set k v m)).
Proof.
  induction m as [|[k0 v0] m IH]; simpl; intro H.
  - constructor; [intros [] | constructor].
  - destruct (String.eqb k0 k) eqn:E; simpl.
    + apply String.eqb_eq in E. subst k0. exact H.
    + inversion H as [|x l Hnotin Hnodup]; subst. constructor; [| exact (IH Hnodup)].
      intro Hin. apply in_map_iff in Hin. destruct Hin as ([k1 v1] & Hk & Hin).
      simpl in Hk. subst k1. apply map_set_In_inv in Hin. destruct Hin as [Hin | Hin].
      * injection Hin as Hk _. subst k. rewrite String.eqb_refl in E. discriminate.
      * apply Hnotin. apply in_map_iff. exists (k0, v1). split; [reflexivity | exact Hin].
Qed.

(** What the loop of [getAccounts] keeps true of the accounts collected so
    far and of the current account found so far. *)
Lemma collectAccounts_slots (pid : string) (sessions : list Session.t) :
  forall (known : list Session.t)
         (accounts : list (string * UserDataSyncAccount))
         (cur : option UserDataSyncAccount) (st : S.State),
    NoDup (map fst accounts) ->
    (forall k a, In (k, a) accounts ->
                 k = accountName a /\ authenticationProviderId a = pid
                 /\ In (session a) (known ++ sessions)) ->
    (forall c, cur = Some c ->
               authenticationProviderId c = pid /\ In (session c) (known ++ sessions)
               /\ Some (sessionId c) = effectiveSessionId st) ->
    (forall s, In s known -> In (SessionAccount.label (Session.account s)) (map fst accounts)) ->
    (forall s, In s known -> Some (Session.id s) = effectiveSessionId st -> cur <> None) ->
    let r := fst (S.collectAccounts pid sessions accounts cur st) in
    NoDup (map fst (fst r))
    /\ (forall k a, In (k, a) (fst r) ->
                    k = accountName a /\ authenticationProviderId a = pid
                    /\ In (session a) (known ++ sessions))
    /\ (forall c, snd r = Some c ->
                  authenticationProviderId c = pid /\ In (session c) (known ++ sessions)
                  /\ Some (sessionId c) = effectiveSessionId st)
    /\ (forall s, In s (known ++ sessions) ->
                  In (SessionAccount.label (Session.account s)) (map fst (fst r)))
    /\ (forall s, In s (known ++ sessions) -> Some (Session.id s) = effectiveSessionId st ->
                  snd r <> None).
Proof.
  induction sessions as [|s sessions IH]; intros known accounts cur st H1 H2 H3 H4 H5.
  - cbn [S.collectAccounts fst snd]. rewrite app_nil_r in *.
    split; [exact H1 |]. split; [exact H2 |]. split; [exact H3 |].
    split; [exact H4 | exact H5].
  - cbn [S.collectAccounts]. rewrite isCurrentAccount_run. cbn [fst snd].
    set (account := {| authenticationProviderId := pid; session := s |}).
    assert (Hshift : forall x, In x ((known ++ [s]) ++ sessions) <-> In x (known ++ s :: sessions)).
    { intro x. rewrite <- app_assoc. reflexivity. }
    specialize (IH (known ++ [s]) (map_set (accountName account) account accounts)
                  (if option_eqb String.eqb (Some (sessionId account)) (effectiveSessionId st)
                   then Some account else cur)
                  (filled st)).
    rewrite effective_filled in IH.
    assert (Hgoal : forall r : list (string * UserDataSyncAccount) * option UserDataSyncAccount,
              (NoDup (map fst (fst r))
               /\ (forall k a, In (k, a) (fst r) ->
                               k = accountName a /\ authenticationProviderId a = pid
                               /\ In (session a) ((known ++ [s]) ++ sessions))
               /\ (forall c, snd r = Some c ->
                             authenticationProviderId c = pid
                             /\ In (session c) ((known ++ [s]) ++ sessions)
                             /\ Some (sessionId c) = effectiveSessionId st)
               /\ (forall x, In x ((known ++ [s]) ++ sessions) ->
                             In (SessionAccount.label (Session.account x)) (map fst (fst r)))
               /\ (forall x, In x ((known ++ [s]) ++ sessions) ->
                             Some (Session.id x) = effectiveSessionId st -> snd r <> None)) ->
              NoDup (map fst (fst r))
              /\ (forall k a, In (k, a) (fst r) ->
                              k = accountName a /\ authenticationProviderId a = pid
                              /\ In (session a) (known ++ s :: sessions))
              /\ (forall c, snd r = Some c ->
                            authenticationProviderId c = pid
                            /\ In (session c) (known ++ s :: sessions)
                            /\ Some (sessionId c) = effectiveSessionId st)
              /\ (forall x, In x (known ++ s :: sessions) ->
                            In (SessionAccount.label (Session.account x)) (map fst (fst r)))
              /\ (forall x, In x (known ++ s :: sessions) ->
                            Some (Session.id x) = effectiveSessionId st -> snd r <> None)).
    { intros r (G1 & G2 & G3 & G4 & G5). split; [exact G1 |]. split; [| split; [| split]].
      - intros k a Hin. destruct (G2 k a Hin) as (Ga & Gb & Gc).
        repeat split; try assumption. apply Hshift. exact Gc.
      - intros c Hc. destruct (G3 c Hc) as (Ga & Gb & Gc).
        repeat split; try assumption. apply Hshift. exact Gb.
      - intros x Hx. apply G4, Hshift, Hx.
      - intros x Hx. apply G5, Hshift, Hx. }
    apply Hgoal. apply IH; clear IH Hgoal.
    + apply map_set_NoDup. exact H1.
    + intros k a Hin. apply map_set_In_inv in Hin. destruct Hin as [Hin | Hin].
      * injection Hin as -> ->. repeat split. apply Hshift, in_or_app. right. left. reflexivity.
      * destruct (H2 k a Hin) as (Ga & Gb & Gc). repeat split; try assumption.
        apply Hshift. exact Gc.
    + intros c Hc.
      destruct (option_eqb String.eqb (Some (sessionId account)) (effectiveSessionId st)) eqn:E.
      * injection Hc as <-. repeat split.
        -- apply Hshift, in_or_app. right. left. reflexivity.
        -- apply option_eqb_string in E. exact E.
      * destruct (H3 c Hc) as (Ga & Gb & Gc). repeat split; try assumption.
        apply Hshift. exact Gb.
    + intros x Hx. apply in_app_or in Hx. destruct Hx as [Hx | [<- | []]].
      * apply map_set_key_kept. exact (H4 x Hx).
      * apply in_map_iff. exists (accountName account, account).
        split; [reflexivity | apply map_set_In].
    + intros x Hx Hid. apply in_app_or in Hx. destruct Hx as [Hx | [<- | []]].
      * destruct (option_eqb String.eqb (Some (sessionId account)) (effectiveSessionId st));
          [discriminate | exact (H5 x Hx Hid)].
      * change (Session.id s) with (sessionId account) in Hid. rewrite Hid.
        rewrite option_eqb_refl. discriminate.
Qed.

Lemma keyed_by_name (m : list (string * UserDataSyncAccount)) :
  (forall k a, In (k, a) m -> k = accountName a) ->
  map accountName (map_values m) = map fst m.
Proof.
  unfold map_values. induction m as [|[k a] m IH]; intro H; [reflexivity |].
  simpl. rewrite <- (H k a (or_introl eq_refl)). f_equal.
  apply IH. intros k' a' Hin. apply H. right. exact Hin.
Qed.

(** X18.  [getAccounts] for one provider.  When the sessions cannot be
    fetched it fails with that error.  Otherwise it answers accounts of that
    provider, each made of one of the fetched sessions, with no two of them
    sharing an account name and every fetched account name among them; and
    when a fetched session has the session id the service works with, an
    account with that session id is among them, whatever other sessions share
    its account name. *)
Theorem getAccounts_slots (pid : string) (st : S.State) (W : Type) (h : handler W) (w : W) :
  let out := run h (S.getAccounts pid st) w in
  match fst (h (GetSessions pid) w) with
  | Throw e =>
      out = ((Throw e, st), snd (h (GetSessions pid) w), [Called (GetSessions pid) (Throw e)])
  | Ok answer =>
      let sessions := match answer with Some l => l | None => [] end in
      exists accounts,
        fst (result_of out) = Ok accounts
        /\ NoDup (map accountName accounts)
        /\ (forall a, In a accounts ->
                      authenticationProviderId a = pid /\ In (session a) sessions)
        /\ (forall s, In s sessions ->
                      In (SessionAccount.label (Session.account s)) (map accountName accounts))
        /\ (forall s, In s sessions -> Some (Session.id s) = effectiveSessionId st ->
                      exists a, In a accounts /\ sessionId a = Session.id s)
  end.
Proof.
  cbv zeta. unfold S.getAccounts. rewrite run_bind, run_perform.
  cbn [result_of world_of trace_of fst snd].
  destruct (fst (h (GetSessions pid) w)) as [answer | e]; [| reflexivity].
  rewrite run_bind. cbn [stateful ret run result_of world_of trace_of fst snd app].
  set (sessions := match answer with Some l => l | None => [] end).
  destruct (@collectAccounts_slots pid sessions [] [] None st) as (G1 & G2 & G3 & G4 & G5).
  { constructor. }
  { intros k a []. }
  { intros c Hc. discriminate. }
  { intros s []. }
  { intros s []. }
  cbn [app] in G2, G3, G4, G5.
  set (r := fst (S.collectAccounts pid sessions [] None st)) in *.
  set (final := match snd r with
                | Some currentAccount => map_set (accountName currentAccount) currentAccount (fst r)
                | None => fst r
                end).
  assert (F1 : NoDup (map fst final)).
  { unfold final. destruct (snd r); [apply map_set_NoDup |]; exact G1. }
  assert (F2 : forall k a, In (k, a) final ->
                 k = accountName a /\ authenticationProviderId a = pid /\ In (session a) sessions).
  { unfold final. destruct (snd r) as [c|] eqn:Ec; [| exact G2].
    intros k a Hin. apply map_set_In_inv in Hin. destruct Hin as [Hin | Hin].
    - injection Hin as -> ->. destruct (G3 c eq_refl) as (Ga & Gb & _).
      repeat split; assumption.
    - exact (G2 k a Hin). }
  assert (F4 : forall s, In s sessions ->
                 In (SessionAccount.label (Session.account s)) (map fst final)).
  { unfold final. intros s Hs. destruct (snd r); [apply map_set_key_kept |]; exact (G4 s Hs). }
  assert (Hnames : map accountName (map_values final) = map fst final).
  { apply keyed_by_name. intros k a Hin. apply (F2 k a Hin). }
  exists (map_values final). split; [reflexivity |].
  split; [rewrite Hnames; exact F1 |]. split; [| split].
  - intros a Hin. unfold map_values in Hin. apply in_map_iff in Hin.
    destruct Hin as ([k a'] & Ha & Hin). simpl in Ha. subst a'.
    destruct (F2 k a Hin) as (_ & Gb & Gc). split; assumption.
  - intros s Hs. rewrite Hnames. exact (F4 s Hs).
  - intros s Hs Hid. pose proof (G5 s Hs Hid) as Hcur.
    destruct (snd r) as [c|] eqn:Ec; [| contradiction].
    destruct (G3 c eq_refl) as (_ & _ & Gc). exists c. split.
    + unfold map_values. apply in_map_iff. exists (accountName c, c).
      split; [reflexivity |]. unfold final. apply map_set_In.
    + rewrite <- Hid in Gc. injection Gc as Gc. exact Gc.
Qed.

Lemma getAccounts_provider (pid : string) (st : S.State) (W : Type) (h : handler W) (w : W)
    (accounts : list UserDataSyncAccount) :
  fst (result_of (run h (S.getAccounts pid st) w)) = Ok accounts ->
  forall a, In a accounts -> authenticationProviderId a = pid.
Proof.
  unfold S.getAccounts. rewrite run_bind, run_perform.
  cbn [result_of world_of trace_of fst snd].
  destruct (fst (h (GetSessions pid) w)) as [answer | e]; [| discriminate].
  rewrite run_bind. cbn [stateful ret run result_of world_of trace_of fst snd app].
  set (sessions := match answer with Some l => l | None => [] end).
  destruct (@collectAccounts_slots pid sessions [] [] None st) as (_ & G2 & G3 & _).
  { constructor. }
  { intros k a []. }
  { intros c Hc. discriminate. }
  { intros s []. }
  { intros s []. }
  set (r := fst (S.collectAccounts pid sessions [] None st)) in *.
  intro H. injection H as <-. intros a Hin.
  unfold map_values in Hin. apply in_map_iff in Hin. destruct Hin as ([k a'] & Ha & Hin).
  simpl in Ha. subst a'.
  destruct (snd r) as [c|] eqn:Ec.
  - apply map_set_In_inv in Hin. destruct Hin as [Hin | Hin].
    + injection Hin as _ ->. apply (G3 c eq_refl).
    + apply (G2 k a Hin).
  - apply (G2 k a Hin).
Qed.

(** The accounts fetched so far are filed under configured providers, each
    list holding accounts of the provider it is filed under. *)
Lemma fetchAccounts_filed (ids : list string) (providers : list IAuthenticationProvider) :
  forall (allAccounts : list (string * list UserDataSyncAccount)) (st : S.State)
         (W : Type) (h : handler W) (w : W)
         (result : list (string * list UserDataSyncAccount)),
    (forall p, In p providers -> In (provider_id p) ids) ->
    (forall pid accounts, In (pid, accounts) allAccounts ->
       In pid ids /\ forall a, In a accounts -> authenticationProviderId a = pid) ->
    fst (result_of (run h (S.fetchAccounts providers allAccounts st) w)) = Ok result ->
    forall pid accounts, In (pid, accounts) result ->
      In pid ids /\ forall a, In a accounts -> authenticationProviderId a = pid.
Proof.
  induction providers as [|p providers IH]; intros allAccounts st W h w result Hids Hall.
  - simpl. intro H. injection H as <-. exact Hall.
  - cbn [S.fetchAccounts]. rewrite run_bind. cbv zeta.
    pose proof (@getAccounts_provider (provider_id p) st W h w) as Hprov.
    destruct (fst (result_of (run h (S.getAccounts (provider_id p) st) w)))
      as [accounts | e]; [| discriminate].
    cbn [result_of world_of trace_of fst snd]. intro Hres.
    eapply IH; [| | exact Hres].
    + intros q Hq. apply Hids. right. exact Hq.
    + intros pid accounts' Hin. apply map_set_In_inv in Hin. destruct Hin as [Hin | Hin].
      * injection Hin as -> ->. split; [apply Hids; left; reflexivity |].
        exact (Hprov accounts eq_refl).
      * exact (Hall pid accounts' Hin).
Qed.

Lemma preserves_all_after_fetch (allAccounts : list (string * list UserDataSyncAccount)) :
  preserves (fun s => S._all s = allAccounts)
            (current <- stateful S.current ;;
             S.updateToken current ;;; S.updateAccountStatus current).
Proof.
  unfold S.updateToken, S.updateAccountStatus. preserving.
  all: first [ apply preserves_stateful; intros s <-;
               apply (cacheFilled_fields (proj2 (current_run s)))
             | apply preserves_assign; intros s <-; reflexivity ].
Qed.

(** X19.  A refresh replaces the registry at once or not at all.  When one of
    the session lists cannot be fetched, the refresh fails with that error
    having called nothing but the fetches, and the registry and the account
    status are as before.  When all are fetched, the registry is what was
    fetched, also when the token sink fails afterwards; it is filed under
    configured providers only, and every account belongs to the provider it is
    filed under. *)
Theorem refresh_replaces_the_registry_at_once (st : S.State)
    (W : Type) (h : handler W) (w : W) :
  let out := run h (S.update st) w in
  let st' := snd (result_of out) in
  let fetched := run h (S.fetchAccounts (S.authenticationProviders st) [] st) w in
  match fst (result_of fetched) with
  | Ok allAccounts =>
      S._all st' = allAccounts
      /\ (forall pid accounts, In (pid, accounts) allAccounts ->
            (exists p, In p (S.authenticationProviders st) /\ provider_id p = pid)
            /\ forall a, In a accounts -> authenticationProviderId a = pid)
      /\ (forall a, In a (S.all st') ->
            exists p, In p (S.authenticationProviders st)
                      /\ authenticationProviderId a = provider_id p)
  | Throw e =>
      fst (result_of out) = Throw e
      /\ S._all st' = S._all st
      /\ S._accountStatus st' = S._accountStatus st
      /\ fetchesOnly (trace_of out)
  end.
Proof.
  cbv zeta. unfold S.update. rewrite run_bind.
  cbn [get run result_of world_of trace_of fst snd app]. rewrite run_bind. cbv zeta.
  destruct (fetchAccounts_run h (S.authenticationProviders st) [] st w) as (Hfill & Hfetch & _).
  cbv zeta in Hfill, Hfetch.
  pose proof (@fetchAccounts_filed (map provider_id (S.authenticationProviders st))
                (S.authenticationProviders st) [] st W h w) as Hfiled.
  unfold result_of, world_of, trace_of in *.
  destruct (fst (fst (fst (run h (S.fetchAccounts (S.authenticationProviders st) [] st) w))))
    as [allAccounts | e].
  - rewrite run_bind. cbn [assign run result_of world_of trace_of fst snd app].
    set (st1 := snd (fst (fst (run h (S.fetchAccounts (S.authenticationProviders st) [] st) w)))).
    set (w1 := snd (fst (run h (S.fetchAccounts (S.authenticationProviders st) [] st) w))).
    pose proof (@preserves_all_after_fetch allAccounts) as Hall. unfold preserves in Hall.
    specialize (Hall (S.with_all allAccounts st1) eq_refl W h w1).
    unfold result_of in Hall.
    assert (Hkeys : forall pid accounts, In (pid, accounts) allAccounts ->
              (exists p, In p (S.authenticationProviders st) /\ provider_id p = pid)
              /\ forall a, In a accounts -> authenticationProviderId a = pid).
    { intros pid accounts Hin.
      destruct (Hfiled allAccounts (fun p Hp => in_map provider_id _ p Hp)
                  (fun pid accounts (H : In (pid, accounts) []) => match H with end)
                  eq_refl pid accounts Hin) as [Hid Hacc].
      split; [| exact Hacc]. apply in_map_iff in Hid. destruct Hid as (p & Hp & Hin').
      exists p. split; assumption. }
    split; [exact Hall |]. split; [exact Hkeys |].
    intros a Ha. unfold S.all in Ha. rewrite Hall in Ha.
    unfold flatten, map_values in Ha. apply in_concat in Ha.
    destruct Ha as (accounts & Hacc & Ha). apply in_map_iff in Hacc.
    destruct Hacc as ([pid accounts'] & Heq & Hin). simpl in Heq. subst accounts'.
    destruct (Hkeys pid accounts Hin) as [(p & Hp & Hpid) Hown].
    exists p. split; [exact Hp |]. rewrite Hpid. exact (Hown a Ha).
  - cbn [fst snd].
    destruct (cacheFilled_fields Hfill) as (_ & Hstatus & Hall & _).
    split; [reflexivity |]. split; [exact Hall |]. split; [exact Hstatus | exact Hfetch].
Qed.

(** ** Merging in a manual session *)

(** X20.  With a manual session, a [merge] that the task completes keeps the
    task and stores the preview the task returns; the conflicts stay, the
    changes are recomputed from the new preview, and [onDidChangeChanges]
    fires, with the new changes, exactly when their local resources differ
    from those of the changes before. *)
Theorem merge_stores_the_returned_preview
    (resource : option URI) (st : PreviewState) (m : ManualSync.t) (preview : SyncPreview)
    (W : Type) (h : handler W) (w : W) :
  manualSync st = Some m ->
  fst (h (TaskMerge (ManualSync.task m) resource) w) = Ok preview ->
  let out := run h (P.merge resource st) w in
  let st' := snd (result_of out) in
  fst (result_of out) = Ok tt
  /\ manualSync st'
     = Some {| ManualSync.preview := preview; ManualSync.task := ManualSync.task m |}
  /\ P.conflicts st' = P.conflicts st
  /\ locals (P.changes st') = locals (P.newChanges st')
  /\ hd_error (calls (trace_of out)) = Some (TaskMerge (ManualSync.task m) resource)
  /\ fired (trace_of out)
     = (if list_eq_dec string_dec (locals (P.newChanges st')) (locals (P.changes st))
        then [] else [DidChangeChanges (P.newChanges st')]).
Proof.
  intros Hm Hok. cbv zeta. unfold P.merge.
  rewrite run_bind. cbn [get run result_of world_of trace_of fst snd app].
  rewrite Hm, run_bind, run_perform. cbn [result_of world_of trace_of fst snd].
  rewrite Hok.
  match goal with
  | |- context [run h (modify ?f st) ?w'] =>
      pose proof (run_modify h f st w') as Hr;
      pose proof (run_modify_fired h f st w') as Hf;
      destruct (run h (modify f st) w') as [[[r s1] w1] t1]
  end.
  cbn [result_of world_of trace_of fst snd] in *. injection Hr as -> ->.
  rewrite fired_app, Hf. unfold P.updatePreview. rewrite Hm.
  set (installed := {| _changes := _changes st; _conflicts := _conflicts st;
                       manualSync := Some {| ManualSync.preview := preview;
                                             ManualSync.task := ManualSync.task m |} |}).
  destruct (updateChanges_locals installed) as (Hl & Hn & Hc & Hs).
  split; [reflexivity |]. split; [exact Hs |]. split; [exact Hc |].
  split; [unfold P.changes; rewrite Hl, Hn; reflexivity |].
  split; [reflexivity |].
  rewrite Hn. simpl. apply (updateChanges_fires installed).
Qed.

Lemma merge_stores_the_returned_preview_witness :
  let m := {| ManualSync.preview := P.manualPreview manualState; ManualSync.task := 0 |} in
  let out := run (firstSync 0) (P.merge None manualState) tt in
  manualSync manualState = Some m
  /\ fst (firstSync 0 (TaskMerge 0 None) tt) = Ok []
  /\ fst (result_of out) = Ok tt
  /\ manualSync (snd (result_of out))
     = Some {| ManualSync.preview := []; ManualSync.task := 0 |}.
Proof.
  cbv zeta. split; [reflexivity |]. split; [reflexivity |].
  destruct (@merge_stores_the_returned_preview None manualState
              {| ManualSync.preview := P.manualPreview manualState; ManualSync.task := 0 |}
              [] unit (firstSync 0) tt eq_refl eq_refl)
    as (H1 & H2 & _).
  split; [exact H1 | exact H2].
Defined.

(** ** The quick pick beyond the claims *)

Lemma sameRegistry_refl (m : list (string * list UserDataSyncAccount)) : sameRegistry m m.
Proof.
  induction m as [|e m IH]; constructor; [| exact IH].
  split; [reflexivity | apply Permutation_refl].
Qed.

Lemma sameRegistry_trans (m1 m2 m3 : list (string * list UserDataSyncAccount)) :
  sameRegistry m1 m2 -> sameRegistry m2 m3 -> sameRegistry m1 m3.
Proof.
  intro H12. revert m3. induction H12 as [|e1 e2 m1 m2 [Hk Hp] _ IH]; intros m3 H23.
  - inversion H23. constructor.
  - inversion H23 as [|x e3 y m3' [Hk' Hp'] Hrest]; subst. constructor.
    + split; [congruence | eapply Permutation_trans; eassumption].
    + apply IH. exact Hrest.
Qed.

Lemma sameRegistry_map_set (k : string) (l l' : list UserDataSyncAccount)
    (m : list (string * list UserDataSyncAccount)) :
  map_get k m = Some l -> Permutation l l' -> sameRegistry m (map_set k l' m).
Proof.
  intros Hget Hperm. induction m as [|[k0 l0] m IH]; [discriminate |].
  simpl in *. destruct (String.eqb k0 k) eqn:E.
  - injection Hget as ->. apply String.eqb_eq in E. subst k0.
    constructor; [split; [reflexivity | exact Hperm] | apply sameRegistry_refl].
  - constructor; [split; [reflexivity | apply Permutation_refl] | exact (IH Hget)].
Qed.

Lemma sameRegistry_get (k : string) (m m' : list (string * list UserDataSyncAccount)) :
  sameRegistry m m' ->
  match map_get k m, map_get k m' with
  | Some l, Some l' => Permutation l l'
  | None, None => True
  | _, _ => False
  end.
Proof.
  intro H. induction H as [|[k1 l1] [k2 l2] m m' [Hk Hp] _ IH]; simpl; [exact I |].
  simpl in Hk, Hp. subst k2. destruct (String.eqb k1 k); [exact Hp | exact IH].
Qed.

Lemma sameRegistry_all (m m' : list (string * list UserDataSyncAccount)) :
  sameRegistry m m' ->
  forall a, In a (flatten (map_values m)) <-> In a (flatten (map_values m')).
Proof.
  intros H a. unfold flatten, map_values.
  induction H as [|[k1 l1] [k2 l2] m m' [Hk Hp] _ IH]; simpl; [reflexivity |].
  simpl in Hp. rewrite !in_app_iff, IH. split; intros [Hin | Hin]; auto; left.
  - exact (Permutation_in a Hp Hin).
  - exact (Permutation_in a (Permutation_sym Hp) Hin).
Qed.

Lemma map_get_In_all (k : string) (l : list UserDataSyncAccount)
    (m : list (string * list UserDataSyncAccount)) (a : UserDataSyncAccount) :
  map_get k m = Some l -> In a l -> In a (flatten (map_values m)).
Proof.
  unfold flatten, map_values. induction m as [|[k0 l0] m IH]; [discriminate |].
  simpl. destruct (String.eqb k0 k).
  - intros [= ->] Hin. apply in_or_app. left. exact Hin.
  - intros Hget Hin. apply in_or_app. right. exact (IH Hget Hin).
Qed.

Section QuickPickItems.
Variable arraySort : forall A : Type, (A -> A -> Z) -> list A -> list A.
Variable getLabel : string -> string.
Variable supportsMultipleAccounts : string -> bool.
Hypothesis sorted : reorders arraySort.

(** The loop over the providers: what it offers, in terms of the registry it
    started from. *)
Lemma accountItems_offers (providers : list IAuthenticationProvider)
    (cur : option UserDataSyncAccount) :
  forall st : S.State,
    let r := S.accountItems arraySort getLabel providers cur st in
    sameRegistry (S._all st) (S._all (snd r))
    /\ S.authenticationProviders (snd r) = S.authenticationProviders st
    /\ (forall e, In e (fst r) ->
          exists item a l,
            e = Item item /\ item_account item = Some a
            /\ In (item_authenticationProvider item) providers
            /\ map_get (provider_id (item_authenticationProvider item)) (S._all st) = Some l
            /\ In a l
            /\ item_description item = lastUsed cur a)
    /\ (forall p l a, In p providers -> map_get (provider_id p) (S._all st) = Some l ->
          In a l ->
          exists item, In (Item item) (fst r) /\ item_account item = Some a
                       /\ item_authenticationProvider item = p).
Proof.
  induction providers as [|p providers IH]; intro st.
  - cbn [S.accountItems fst snd]. split; [apply sameRegistry_refl |].
    split; [reflexivity |]. split; [intros e [] | intros q l a []].
  - cbn [S.accountItems]. cbv zeta.
    set (cmp := S.currentFirst sessionId (option_map sessionId cur)).
    destruct (map_get (provider_id p) (S._all st)) as [l0|] eqn:Hget.
    + set (accounts := arraySort cmp l0).
      assert (Hperm : Permutation accounts l0) by apply sorted.
      set (st1 := S.with_all (map_set (provider_id p) accounts (S._all st)) st).
      assert (Hsame : sameRegistry (S._all st) (S._all st1)).
      { apply sameRegistry_map_set with (l := l0); [exact Hget | apply Permutation_sym; exact Hperm]. }
      destruct (IH st1) as (I1 & I2 & I3 & I4). cbv zeta in I1, I2, I3, I4.
      cbn [fst snd]. split; [exact (@sameRegistry_trans _ _ _ Hsame I1) |].
      split; [rewrite I2; reflexivity |]. split.
      * intros e He. apply in_app_or in He. destruct He as [He | He].
        -- apply in_map_iff in He. destruct He as (a & <- & Ha).
           eexists _, a, l0. split; [reflexivity |]. split; [reflexivity |].
           split; [left; reflexivity |]. split; [exact Hget |].
           split; [exact (Permutation_in a Hperm Ha) | reflexivity].
        -- destruct (I3 e He) as (item & a & l1 & -> & Ha & Hp & Hl1 & Hin & Hd).
           pose proof (@sameRegistry_get (provider_id (item_authenticationProvider item)) _ _ Hsame)
             as Hrel.
           rewrite Hl1 in Hrel.
           destruct (map_get (provider_id (item_authenticationProvider item)) (S._all st))
             as [l|] eqn:Hl; [| contradiction].
           exists item, a, l. split; [reflexivity |]. split; [exact Ha |].
           split; [right; exact Hp |]. split; [exact Hl |].
           split; [exact (Permutation_in a (Permutation_sym Hrel) Hin) | exact Hd].
      * intros q l a [<- | Hq] Hl Hin.
        -- rewrite Hget in Hl. injection Hl as <-.
           eexists. split.
           { apply in_or_app. left. apply in_map_iff. exists a.
             split; [reflexivity | exact (Permutation_in a (Permutation_sym Hperm) Hin)]. }
           split; reflexivity.
        -- pose proof (@sameRegistry_get (provider_id q) _ _ Hsame) as Hrel. rewrite Hl in Hrel.
           destruct (map_get (provider_id q) (S._all st1)) as [l1|] eqn:Hl1; [| contradiction].
           destruct (I4 q l1 a Hq Hl1 (Permutation_in a Hrel Hin)) as (item & Hitem & Hrest).
           exists item. split; [apply in_or_app; right; exact Hitem | exact Hrest].
    + assert (Hnil : arraySort cmp (@nil UserDataSyncAccount) = []).
      { apply Permutation_nil. apply Permutation_sym. apply sorted. }
      rewrite Hnil. cbn [map app].
      destruct (IH st) as (I1 & I2 & I3 & I4). cbv zeta in I1, I2, I3, I4.
      split; [exact I1 |]. split; [exact I2 |]. split.
      * intros e He. destruct (I3 e He) as (item & a & l1 & -> & Ha & Hp & Hl1 & Hin & Hd).
        exists item, a, l1. repeat split; try assumption. right. exact Hp.
      * intros q l a [<- | Hq] Hl Hin.
        -- rewrite Hget in Hl. discriminate.
        -- exact (I4 q l a Hq Hl Hin).
Qed.

End QuickPickItems.

Section QuickPickOffers.
Variable arraySort : forall A : Type, (A -> A -> Z) -> list A -> list A.
Variable getLabel : string -> string.
Variable supportsMultipleAccounts : string -> bool.
Hypothesis sorted : reorders arraySort.

(** X21.  What the quick pick offers, as long as sorting an array only
    reorders it.  An item with an account carries a configured provider and an
    account the registry files under the id of that provider, and is described
    as last used exactly when its session id is the one of the current
    account; an item without an account is a sign-in entry for a configured
    provider that has no account in the registry or supports several.
    Conversely every account filed under the id of a configured provider is
    offered with that provider, and every configured provider without an
    account, or supporting several, has its sign-in entry.  Building the
    items leaves the registry as it is up to the order of the accounts of a
    provider. *)
Theorem quick_pick_offers_the_registry (st : S.State) :
  let r := S.createQuickpickItems arraySort getLabel supportsMultipleAccounts st in
  let signsIn (p : IAuthenticationProvider) :=
    supportsMultipleAccounts (provider_id p) = true
    \/ forall a, In a (S.all st) -> authenticationProviderId a <> provider_id p in
  sameRegistry (S._all st) (S._all (snd r))
  /\ (forall item, In (Item item) (fst r) ->
        In (item_authenticationProvider item) (S.authenticationProviders st)
        /\ match item_account item with
           | Some a =>
               (exists l, map_get (provider_id (item_authenticationProvider item)) (S._all st)
                          = Some l /\ In a l)
               /\ item_description item = lastUsed (fst (S.current st)) a
           | None => signsIn (item_authenticationProvider item)
           end)
  /\ (forall p l a, In p (S.authenticationProviders st) ->
        map_get (provider_id p) (S._all st) = Some l -> In a l ->
        exists item, In (Item item) (fst r) /\ item_account item = Some a
                     /\ item_authenticationProvider item = p)
  /\ (forall p, In p (S.authenticationProviders st) -> signsIn p ->
        exists item, In (Item item) (fst r) /\ item_account item = None
                     /\ item_authenticationProvider item = p).
Proof.
  cbv zeta. unfold S.createQuickpickItems.
  (* the sign-in entries, for a state with the same providers and accounts *)
  assert (Hsign : forall st2 : S.State,
            S.authenticationProviders st2 = S.authenticationProviders st ->
            (forall a, In a (S.all st2) <-> In a (S.all st)) ->
            (forall item, In (Item item)
                            (S.providerItems getLabel supportsMultipleAccounts st2) ->
               item_account item = None
               /\ In (item_authenticationProvider item) (S.authenticationProviders st)
               /\ (supportsMultipleAccounts (provider_id (item_authenticationProvider item))
                   = true
                   \/ forall a, In a (S.all st) ->
                        authenticationProviderId a
                        <> provider_id (item_authenticationProvider item)))
            /\ (forall p, In p (S.authenticationProviders st) ->
                  (supportsMultipleAccounts (provider_id p) = true
                   \/ forall a, In a (S.all st) ->
                        authenticationProviderId a <> provider_id p) ->
                  exists item,
                    In (Item item) (S.providerItems getLabel supportsMultipleAccounts st2)
                    /\ item_account item = None /\ item_authenticationProvider item = p)).
  { intros st2 Hprov Hall. unfold S.providerItems. rewrite Hprov. split.
    - intros item Hin. apply in_flat_map in Hin. destruct Hin as (p & Hp & Hin).
      destruct (negb (existsb _ (S.all st2)) || supportsMultipleAccounts (provider_id p))
        eqn:E; [| destruct Hin].
      destruct Hin as [Hin | []]. injection Hin as <-. cbn.
      split; [reflexivity |]. split; [exact Hp |].
      apply orb_true_iff in E. destruct E as [E | E]; [right | left; exact E].
      intros a Ha Heq. apply negb_true_iff in E.
      assert (Hex : existsb (fun account => String.eqb (authenticationProviderId account)
                                                      (provider_id p)) (S.all st2) = true).
      { apply existsb_exists. exists a. split; [apply Hall; exact Ha |].
        apply String.eqb_eq. exact Heq. }
      rewrite Hex in E. discriminate.
    - intros p Hp Hsigns.
      assert (E : negb (existsb (fun account => String.eqb (authenticationProviderId account)
                                                          (provider_id p)) (S.all st2))
                  || supportsMultipleAccounts (provider_id p) = true).
      { destruct Hsigns as [Hm | Hnone]; [rewrite Hm; apply orb_true_r |].
        apply orb_true_iff. left. apply negb_true_iff.
        destruct (existsb _ (S.all st2)) eqn:Hex; [| reflexivity].
        apply existsb_exists in Hex. destruct Hex as (a & Ha & Heq).
        apply String.eqb_eq in Heq. exfalso. apply (Hnone a); [apply Hall; exact Ha | exact Heq]. }
      eexists. split.
      { apply in_flat_map. exists p. split; [exact Hp |]. rewrite E. left. reflexivity. }
      split; reflexivity. }
  destruct (S.all st) as [|a0 accounts] eqn:Hall.
  - cbn [fst snd app].
    assert (Hnil : forall a, In a (S.all st) <-> In a []) by (intro a; rewrite Hall; reflexivity).
    destruct (Hsign st eq_refl Hnil) as [Hs1 Hs2].
    split; [apply sameRegistry_refl |]. split; [| split].
    + intros item Hin. destruct (Hs1 item Hin) as (Hnone & Hp & Hsigns).
      split; [exact Hp |]. rewrite Hnone. exact Hsigns.
    + intros p l a Hp Hl Ha. exfalso.
      pose proof (map_get_In_all _ _ a Hl Ha) as Hin.
      change (In a (S.all st)) in Hin. rewrite Hall in Hin. exact Hin.
    + exact Hs2.
  - rewrite <- Hall in Hsign |- *. clear a0 accounts Hall. cbn [fst snd].
    set (c := S.current st).
    set (providers := arraySort (S.currentFirst provider_id
                                   (option_map authenticationProviderId (fst c)))
                                (S.authenticationProviders st)).
    assert (Hperm : Permutation providers (S.authenticationProviders st)) by apply sorted.
    destruct (cacheFilled_fields (proj2 (current_run st))) as (Hprov & _ & Hreg & _).
    fold c in Hprov, Hreg.
    destruct (accountItems_offers getLabel sorted providers (fst c) (snd c))
      as (I1 & I2 & I3 & I4).
    cbv zeta in I1, I2, I3, I4. rewrite Hreg in I1, I3, I4.
    set (r := S.accountItems arraySort getLabel providers (fst c) (snd c)) in *.
    destruct (Hsign (snd r)) as [Hs1 Hs2].
    { rewrite I2. exact Hprov. }
    { intro a. unfold S.all. symmetry. apply sameRegistry_all. exact I1. }
    split; [exact I1 |]. split; [| split].
    + intros item Hin. apply in_app_or in Hin. destruct Hin as [Hin | Hin].
      * apply in_app_or in Hin. destruct Hin as [[Hin | []] | Hin]; [discriminate |].
        apply in_app_or in Hin. destruct Hin as [Hin | [Hin | []]]; [| discriminate].
        destruct (I3 _ Hin) as (item' & a & l & Heq & Ha & Hp & Hl & Hal & Hd).
        injection Heq as <-.
        split; [exact (Permutation_in _ Hperm Hp) |].
        rewrite Ha. split; [exists l; split; assumption | exact Hd].
      * destruct (Hs1 item Hin) as (Hnone & Hp & Hsigns).
        split; [exact Hp |]. rewrite Hnone. exact Hsigns.
    + intros p l a Hp Hl Ha.
      destruct (I4 p l a (Permutation_in _ (Permutation_sym Hperm) Hp) Hl Ha)
        as (item & Hin & Hrest).
      exists item. split; [| exact Hrest].
      apply in_or_app. left. apply in_or_app. right. apply in_or_app. left. exact Hin.
    + intros p Hp Hsigns. destruct (Hs2 p Hp Hsigns) as (item & Hin & Hrest).
      exists item. split; [apply in_or_app; right; exact Hin | exact Hrest].
Qed.

End QuickPickOffers.

Lemma quick_pick_offers_the_registry_witness :
  let s1 := sessionOf "s1" (Ok "token") in
  let st := snd (result_of (run (withSessions [s1] s1) (S.update windowOnS1) tt)) in
  let r := S.createQuickpickItems keepOrder labelIsId singleAccount st in
  reorders keepOrder
  /\ sameRegistry (S._all st) (S._all (snd r))
  /\ exists item,
       In (Item item) (fst r)
       /\ item_account item = Some {| authenticationProviderId := "github"; session := s1 |}
       /\ item_authenticationProvider item = github.
Proof.
  cbv zeta.
  assert (Hsorted : reorders keepOrder) by (intros A compare l; apply Permutation_refl).
  split; [exact Hsorted |].
  destruct (@quick_pick_offers_the_registry keepOrder labelIsId singleAccount Hsorted
              (snd (result_of (run (withSessions [sessionOf "s1" (Ok "token")]
                                      (sessionOf "s1" (Ok "token")))
                                   (S.update windowOnS1) tt))))
    as (Hsame & _ & Hoffered & _).
  split; [exact Hsame |].
  exact (Hoffered github
           [{| authenticationProviderId := "github";
               session := sessionOf "s1" (Ok "token") |}]
           {| authenticationProviderId := "github"; session := sessionOf "s1" (Ok "token") |}
           (or_introl eq_refl) eq_refl (or_introl eq_refl)).
Defined.
